(** * Borehole data extraction: evaluation, duplicate detection, line index

    A shallow embedding of the algorithmic core of the repository:

    - [stratigraphy/evaluation/evaluation_dataclasses.py]  (module [Evaluation])
    - [stratigraphy/util/predictions.py]                   (modules [Matching], [Metadata], [Conversion], [Ingestion])
    - [stratigraphy/util/duplicate_detection.py]           (module [Duplicates])
    - [stratigraphy/util/linesquadtree.py]                 (module [QuadTree])
    - [stratigraphy/layer/layer.py]                        (module [Ingestion])
    - [app/api/v1/endpoints/create_pngs.py]                (module [CreatePngs])

    Number model.  Python [int] is [Z].  Python [float] values are the
    rationals they denote ([Q], or canonical [Qc] where values are compared
    with [==] inside containers); rounding of floating-point arithmetic is
    not modelled.  An exception raised by the Python code is an explicit
    result of the embedded function. *)

From stdpp Require Import gmap strings list fin_maps sorting pretty.
From Stdlib Require Import QArith Qcanon Qround Qabs Lqa Lia ZArith.

Set Default Proof Using "Type".
Local Open Scope Z_scope.

(** ** Shared numeric helpers *)

(** [a < b] on floats, as a boolean. *)
Definition Qltb (a b : Q) : bool := negb (Qle_bool b a).

(** Python's [sum(xs)]: a left fold of [+] from [0]. *)
Definition py_sum (xs : list Z) : Z := foldl Z.add 0 xs.

(** [int(x)] on a float: truncation toward zero. *)
Definition py_int (x : Q) : Z := Z.quot (Qnum x) (Z.pos (Qden x)).

(** [round(x)] on a float: the nearest integer, a tie going to the even
    neighbour. *)
Definition py_round (x : Q) : Z :=
  let f := Qfloor x in
  let r := (x - inject_Z f)%Q in
  if Qltb r (1 # 2) then f
  else if Qltb (1 # 2) r then f + 1
  else if Z.even f then f else f + 1.

(** [math.isclose(a, b, abs_tol=abs_tol)] on finite values; the relative
    tolerance keeps its default [1e-09]. *)
Definition rel_tol : Q := 1 # 1000000000.

Definition isclose (a b abs_tol : Q) : bool :=
  Qeq_bool a b
  || (let diff := Qabs (b - a) in
      Qle_bool diff (Qabs (rel_tol * b))
      || Qle_bool diff (Qabs (rel_tol * a))
      || Qle_bool diff abs_tol).

(** ** Exceptions and mutable state

    A computation over a mutable store [S] either returns a value or raises;
    both leave a store behind (what was written before a [raise] stays
    written). *)
Inductive exn : Type := AttributeError | IndexError | KeyError | ValueError.

Inductive outcome (S A : Type) : Type :=
  | Returned (a : A) (s : S)
  | Raised (e : exn) (s : S).
Arguments Returned {S A} a s.
Arguments Raised {S A} e s.

Definition Py (S A : Type) : Type := S -> outcome S A.

Definition ret {S A} (a : A) : Py S A := fun s => Returned a s.
Definition raise {S A} (e : exn) : Py S A := fun s => Raised e s.
Definition bind {S A B} (c : Py S A) (k : A -> Py S B) : Py S B :=
  fun s => match c s with
           | Returned a s' => k a s'
           | Raised e s' => Raised e s'
           end.
Definition get {S} : Py S S := fun s => Returned s s.
Definition put {S} (s : S) : Py S unit := fun _ => Returned tt s.
Definition modify {S} (f : S -> S) : Py S unit := fun s => Returned tt (f s).

Notation "'let*' x ':=' c 'in' k" := (bind c (fun x => k))
  (at level 10, x pattern, c at level 100, k at level 200).
Notation "c ';;;' k" := (bind c (fun _ => k))
  (at level 100, k at level 200, right associativity).

(** The store an outcome leaves behind, and whether it is a return. *)
Definition store_of {S A} (o : outcome S A) : S :=
  match o with Returned _ s => s | Raised _ s => s end.
Definition returns {S A} (o : outcome S A) : Prop :=
  match o with Returned _ _ => True | Raised _ _ => False end.

(** ** evaluation_dataclasses.py *)

Module Evaluation.

(** [class Metrics]: the three counters. *)
Record Metrics : Type := mkMetrics { tp : Z; fp : Z; fn : Z }.

(** [Metrics.precision] *)
Definition precision (m : Metrics) : Q :=
  if 0 <? tp m + fp m then inject_Z (tp m) / inject_Z (tp m + fp m) else 0%Q.

(** [Metrics.recall] *)
Definition recall (m : Metrics) : Q :=
  if 0 <? tp m + fn m then inject_Z (tp m) / inject_Z (tp m + fn m) else 0%Q.

(** [Metrics.f1] *)
Definition f1 (m : Metrics) : Q :=
  let precision := precision m in
  let recall := recall m in
  if Qltb 0 (precision + recall)
  then (2 * precision * recall / (precision + recall))%Q
  else 0%Q.

(** [Metrics.from_metric_list] *)
Definition from_metric_list (metric_list : list Metrics) : Metrics :=
  let tp := py_sum (map tp metric_list) in
  let fp := py_sum (map fp metric_list) in
  let fn := py_sum (map fn metric_list) in
  mkMetrics tp fp fn.

(** Counters are counts: none is negative. *)
Definition is_count (m : Metrics) : Prop := 0 <= tp m /\ 0 <= fp m /\ 0 <= fn m.

(** Component-wise addition of two [Metrics], the reading of "element-wise
    sum" against which [from_metric_list] is compared. *)
Definition metrics_add (a b : Metrics) : Metrics :=
  mkMetrics (tp a + tp b) (fp a + fp b) (fn a + fn b).

Definition metrics_zero : Metrics := mkMetrics 0 0 0.

Definition elementwise_sum (l : list Metrics) : Metrics :=
  foldr metrics_add metrics_zero l.

(** The arithmetic mean of a non-empty list of scores. *)
Definition mean (qs : list Q) : Q :=
  (foldr Qplus 0 qs / inject_Z (Z.of_nat (length qs)))%Q.

(** The sample list of the specification. *)
Definition sample_metrics : list Metrics := [mkMetrics 1 0 0; mkMetrics 2 1 0].

(** A JSON-like object with float values: keys in insertion order. *)
Definition json_scores : Type := list (string * Q).

(** [Metrics.to_json] *)
Definition to_json (m : Metrics) (feature_name : string) : json_scores :=
  [ (feature_name +:+ "_precision", precision m);
    (feature_name +:+ "_recall", recall m);
    (feature_name +:+ "_f1", f1 m) ].

(** [class BoreholeMetadataMetrics] *)
Record BoreholeMetadataMetrics : Type := mkBoreholeMetadataMetrics {
  elevation_metrics : Metrics;
  coordinates_metrics : Metrics
}.

(** [class FileBoreholeMetadataMetrics(BoreholeMetadataMetrics)]: the
    inherited fields and the file name. *)
Record FileBoreholeMetadataMetrics : Type := mkFileBoreholeMetadataMetrics {
  file_metrics :> BoreholeMetadataMetrics;
  filename : string
}.

(** [BoreholeMetadataMetrics.to_json] *)
Definition metadata_to_json (b : BoreholeMetadataMetrics) : json_scores :=
  to_json (elevation_metrics b) "elevation" ++ to_json (coordinates_metrics b) "coordinate".

(** *** The pandas tables the module builds

    A [DataFrame] with a default integer index: its column labels in order
    and its rows, each row aligned with the labels. *)
Inductive cell : Type :=
  | CStr (s : string)
  | CNum (q : Q)
  | CNaN.

Record DataFrame : Type := mkDataFrame {
  columns : list string;
  rows : list (list cell)
}.

(** [pd.DataFrame(data={label: values, ...})] for value lists of one
    length: labels in dict order, row [i] holds the [i]-th value of each. *)
Definition pd_DataFrame (data : list (string * list cell)) : DataFrame :=
  let n := match data with [] => O | (_, vs) :: _ => length vs end in
  mkDataFrame (map fst data)
              (map (fun i => map (fun '(_, vs) => nth i vs CNaN) data) (seq 0 n)).

(** Position of a label among the labels of a frame. *)
Fixpoint label_index (c : string) (cs : list string) : option nat :=
  match cs with
  | [] => None
  | c' :: cs' => if decide (c = c') then Some O else S <$> label_index c cs'
  end.

(** The union of the frames' labels, in order of first appearance. *)
Definition union_columns (frames : list DataFrame) : list string :=
  foldl (fun acc f => acc ++ filter (fun c => c ∉ acc) (remove_dups (columns f)))
        [] frames.

(** A row of frame [f] laid out along the labels [cs]; a label the frame
    lacks gives NaN. *)
Definition reindex_row (cs : list string) (f : DataFrame) (row : list cell) : list cell :=
  map (fun c => match label_index c (columns f) with
                | Some i => nth i row CNaN
                | None => CNaN
                end) cs.

(** [pd.concat(frames, ignore_index=True)]: the rows of the frames, one
    frame after the other, along the union of the labels.  An empty list of
    frames raises [ValueError] ([None]). *)
Definition pd_concat (frames : list DataFrame) : option DataFrame :=
  match frames with
  | [] => None
  | _ =>
      let cs := union_columns frames in
      Some (mkDataFrame cs (concat (map (fun f => map (reindex_row cs f) (rows f)) frames)))
  end.

(** [FileBoreholeMetadataMetrics.get_document_level_metrics] *)
Definition file_get_document_level_metrics (b : FileBoreholeMetadataMetrics) : DataFrame :=
  pd_DataFrame
    [ ("document_name", [CStr (filename b)]);
      ("elevation", [CNum (f1 (elevation_metrics b))]);
      ("coordinate", [CNum (f1 (coordinates_metrics b))]) ].

(** [class OverallBoreholeMetadataMetrics]: the per-file metrics in the order
    in which they were appended. *)
Record OverallBoreholeMetadataMetrics : Type := mkOverall {
  borehole_metadata_metrics : list FileBoreholeMetadataMetrics
}.

(** [OverallBoreholeMetadataMetrics.__init__] *)
Definition overall_init : OverallBoreholeMetadataMetrics := mkOverall [].

(** [self.borehole_metadata_metrics.append(b)], as the callers do. *)
Definition overall_append (o : OverallBoreholeMetadataMetrics) (b : FileBoreholeMetadataMetrics)
  : OverallBoreholeMetadataMetrics :=
  mkOverall (borehole_metadata_metrics o ++ [b]).

(** [OverallBoreholeMetadataMetrics.get_cumulated_metrics] *)
Definition get_cumulated_metrics (o : OverallBoreholeMetadataMetrics) : json_scores :=
  let elevation_metrics :=
    from_metric_list
      (map (fun metadata : FileBoreholeMetadataMetrics => elevation_metrics metadata)
           (borehole_metadata_metrics o)) in
  let coordinates_metrics :=
    from_metric_list
      (map (fun metadata : FileBoreholeMetadataMetrics => coordinates_metrics metadata)
           (borehole_metadata_metrics o)) in
  metadata_to_json (mkBoreholeMetadataMetrics elevation_metrics coordinates_metrics).

(** [OverallBoreholeMetadataMetrics.get_document_level_metrics] *)
Definition get_document_level_metrics (o : OverallBoreholeMetadataMetrics) : option DataFrame :=
  let frames := map file_get_document_level_metrics (borehole_metadata_metrics o) in
  pd_concat frames.

(** The labels the table is said to have, and the labels it has. *)
Definition stated_columns : list string := ["document_name"; "elevation_f1"; "coordinate_f1"].
Definition table_columns : list string := ["document_name"; "elevation"; "coordinate"].

(** The row of one file: its name and its two F1 scores. *)
Definition file_row (b : FileBoreholeMetadataMetrics) : list cell :=
  [CStr (filename b); CNum (f1 (elevation_metrics b)); CNum (f1 (coordinates_metrics b))].

(** The table as stated: one row per file in insertion order under the
    labels [stated_columns]. *)
Definition stated_table (o : OverallBoreholeMetadataMetrics) : Prop :=
  exists df, get_document_level_metrics o = Some df /\
    length (rows df) = length (borehole_metadata_metrics o) /\
    columns df ≡ₚ stated_columns /\
    forall i (b : FileBoreholeMetadataMetrics), borehole_metadata_metrics o !! i = Some b ->
      exists row, rows df !! i = Some row /\
        forall j c, columns df !! j = Some c ->
          (c = "document_name" -> row !! j = Some (CStr (filename b))) /\
          (c = "elevation_f1" -> row !! j = Some (CNum (f1 (elevation_metrics b)))) /\
          (c = "coordinate_f1" -> row !! j = Some (CNum (f1 (coordinates_metrics b)))).

(** Two files for the examples. *)
Definition file_a : FileBoreholeMetadataMetrics :=
  mkFileBoreholeMetadataMetrics
    (mkBoreholeMetadataMetrics (mkMetrics 2 0 0) (mkMetrics 1 0 1)) "a.pdf".
Definition file_b : FileBoreholeMetadataMetrics :=
  mkFileBoreholeMetadataMetrics
    (mkBoreholeMetadataMetrics (mkMetrics 1 1 0) (mkMetrics 0 1 1)) "b.pdf".

End Evaluation.

(** ** predictions.py: metadata evaluation *)

Module Metadata.

(** Modelled from the spec: the coordinate classes of
    [stratigraphy.util.coordinate_extraction], which [evaluate_metadata] reads
    as [coordinates.east.coordinate_value] and
    [coordinates.north.coordinate_value]; a Coordinate is east and north, each
    a numeric value. *)
Record CoordinateEntry : Type := mkCoordinateEntry { coordinate_value : Q }.
Record Coordinate : Type := mkCoordinate { east : CoordinateEntry; north : CoordinateEntry }.

(** Modelled from the spec: [GroundwaterInformation] of
    [stratigraphy.groundwater.groundwater_extraction]: depth, elevation and
    date, each optional. *)
Record GroundwaterInformation : Type := mkGroundwaterInformation {
  depth : option Q;
  elevation : option Q;
  date : option string
}.

(** [class BoreholeMetaData] *)
Record BoreholeMetaData : Type := mkBoreholeMetaData {
  coordinates : option Coordinate;
  groundwater_information : option GroundwaterInformation
}.

(** The ground-truth metadata dict: [.get("coordinates")] with its ["E"] and
    ["N"], and [.get("groundwater")], a list of keyword dicts for
    [GroundwaterInformation]. *)
Record GroundTruthMetadata : Type := mkGroundTruthMetadata {
  gt_coordinates : option (Q * Q);
  gt_groundwater : option (list GroundwaterInformation)
}.

(** What [evaluate_metadata] writes: [self.metadata_is_correct] (a value is
    [True], [False] or [None]) and the warnings sent to the logger. *)
Record EvalStore : Type := mkEvalStore {
  metadata_is_correct : gmap string (option bool);
  warnings : list string
}.

Definition set_correct (key : string) (v : option bool) : Py EvalStore unit :=
  modify (fun st => mkEvalStore (<[key := v]> (metadata_is_correct st)) (warnings st)).

Definition logger_warning (msg : string) : Py EvalStore unit :=
  modify (fun st => mkEvalStore (metadata_is_correct st) (warnings st ++ [msg])).

Definition multiple_groundwater_warning (file_name : string) : string :=
  "Multiple groundwater information entries found in the ground truth for file "
    +:+ file_name +:+ "." +:+ " Only the first entry will be considered for evaluation.".

(** The ground-truth coordinates brought to the frame of the prediction:
    the [if]/[elif]/[else] of [evaluate_metadata]. *)
Definition ground_truth_in_frame (predicted_east E N : Q) : Q * Q :=
  if Qltb 2000000 predicted_east && Qltb E 2000000 then
    (inject_Z (py_int E) + 2000000, inject_Z (py_int N) + 1000000)%Q
  else if Qltb predicted_east 2000000 && Qltb 2000000 E then
    (inject_Z (py_int E) - 2000000, inject_Z (py_int N) - 1000000)%Q
  else
    (inject_Z (py_int E), inject_Z (py_int N)).

Section Evaluate.

(** The comparison methods of the ground-truth [GroundwaterInformation]
    record (first argument), defined outside this module. *)
Variable is_extracted_information_correct :
  GroundwaterInformation -> GroundwaterInformation -> bool.
Variable is_extracted_depth_correct : GroundwaterInformation -> option Q -> bool.
Variable is_extracted_elevation_correct : GroundwaterInformation -> option Q -> bool.
Variable is_extracted_date_correct : GroundwaterInformation -> option string -> bool.

(** The coordinate half of [evaluate_metadata]. *)
Definition evaluate_coordinates (metadata : BoreholeMetaData)
    (metadata_ground_truth : option GroundTruthMetadata) : Py EvalStore unit :=
  match coordinates metadata, metadata_ground_truth ≫= gt_coordinates with
  | Some c, Some (E, N) =>
      let '(ground_truth_east, ground_truth_north) :=
        ground_truth_in_frame (coordinate_value (east c)) E N in
      if isclose (inject_Z (py_int (coordinate_value (east c)))) ground_truth_east 2
         && isclose (inject_Z (py_int (coordinate_value (north c)))) ground_truth_north 2
      then set_correct "coordinates" (Some true)
      else set_correct "coordinates" (Some false)
  | _, _ => set_correct "coordinates" None
  end.

(** The groundwater half of [evaluate_metadata]. *)
Definition evaluate_groundwater (file_name : string) (metadata : BoreholeMetaData)
    (metadata_ground_truth : option GroundTruthMetadata) : Py EvalStore unit :=
  match groundwater_information metadata, metadata_ground_truth ≫= gt_groundwater with
  | Some extracted_groundwater_info, Some groundwater =>
      (if (1 <? length groundwater)%nat
       then logger_warning (multiple_groundwater_warning file_name)
       else ret tt) ;;;
      let* gt_groundwater_info :=
        match groundwater with
        | [] => raise IndexError
        | first :: _ => ret first
        end in
      set_correct "groundwater_information"
        (Some (is_extracted_information_correct gt_groundwater_info extracted_groundwater_info)) ;;;
      set_correct "groundwater_information_depth"
        (Some (is_extracted_depth_correct gt_groundwater_info (depth extracted_groundwater_info))) ;;;
      set_correct "groundwater_information_elevation"
        (Some (is_extracted_elevation_correct gt_groundwater_info
                 (elevation extracted_groundwater_info))) ;;;
      set_correct "groundwater_information_date"
        (Some (is_extracted_date_correct gt_groundwater_info (date extracted_groundwater_info)))
  | _, _ =>
      set_correct "groundwater_information" None ;;;
      set_correct "groundwater_information_depth" None ;;;
      set_correct "groundwater_information_elevation" None ;;;
      set_correct "groundwater_information_date" None
  end.

(** [FilePredictions.evaluate_metadata]; [self.metadata] may be [None], and
    reading an attribute of [None] raises. *)
Definition evaluate_metadata (file_name : string) (self_metadata : option BoreholeMetaData)
    (metadata_ground_truth : option GroundTruthMetadata) : Py EvalStore unit :=
  match self_metadata with
  | None => raise AttributeError
  | Some metadata =>
      evaluate_coordinates metadata metadata_ground_truth ;;;
      evaluate_groundwater file_name metadata metadata_ground_truth
  end.

End Evaluate.

(** The flag the coordinate half computes. *)
Definition coordinates_flag (metadata : BoreholeMetaData)
    (gt : option GroundTruthMetadata) : option bool :=
  match coordinates metadata, gt ≫= gt_coordinates with
  | Some c, Some (E, N) =>
      let g := ground_truth_in_frame (coordinate_value (east c)) E N in
      Some (isclose (inject_Z (py_int (coordinate_value (east c)))) (fst g) 2
            && isclose (inject_Z (py_int (coordinate_value (north c)))) (snd g) 2)
  | _, _ => None
  end.

(** Closeness as [math.isclose(a, b, abs_tol=2)] decides it. *)
Definition close_abs_two (a b : Q) : Prop :=
  (Qabs (b - a) <= 2 \/ Qabs (b - a) <= Qabs (rel_tol * b)
   \/ Qabs (b - a) <= Qabs (rel_tol * a))%Q.

(** The sample of the specification, and a pair of far-away coordinates. *)
Definition sample_coordinate : Coordinate :=
  mkCoordinate (mkCoordinateEntry 2600000) (mkCoordinateEntry 1200000).
Definition sample_prediction : BoreholeMetaData :=
  mkBoreholeMetaData (Some sample_coordinate) None.
Definition sample_ground_truth : GroundTruthMetadata :=
  mkGroundTruthMetadata (Some (600000, 200000)%Q) None.

Definition far_coordinate : Coordinate :=
  mkCoordinate (mkCoordinateEntry 8000000000) (mkCoordinateEntry 1200000).
Definition far_prediction : BoreholeMetaData := mkBoreholeMetaData (Some far_coordinate) None.
Definition far_ground_truth : GroundTruthMetadata :=
  mkGroundTruthMetadata (Some (8000000005, 1200000)%Q) None.

(** The reading of "agree within absolute tolerance 2". *)
Definition within_two (a b : Q) : Prop := (Qabs (a - b) <= 2)%Q.

(** The stated rule for the coordinates flag, with both sides present: the
    flag is [True] exactly when both axes agree within 2 after
    reconciliation, and [False] otherwise. *)
Definition stated_coordinates_rule (c : Coordinate) (E N : Q) (flag : option (option bool)) : Prop :=
  let g := ground_truth_in_frame (coordinate_value (east c)) E N in
  (within_two (inject_Z (py_int (coordinate_value (east c)))) (fst g) /\
   within_two (inject_Z (py_int (coordinate_value (north c)))) (snd g) ->
     flag = Some (Some true)) /\
  (~ (within_two (inject_Z (py_int (coordinate_value (east c)))) (fst g) /\
      within_two (inject_Z (py_int (coordinate_value (north c)))) (snd g)) ->
     flag = Some (Some false)).

Definition empty_store : EvalStore := mkEvalStore ∅ [].

(** Comparison methods for the examples: equality of optional fields. *)
Definition same_number (a b : option Q) : bool :=
  match a, b with
  | Some x, Some y => Qeq_bool x y
  | None, None => true
  | _, _ => false
  end.
Definition same_date (a b : option string) : bool := bool_decide (a = b).
Definition same_depth (gt : GroundwaterInformation) (d : option Q) : bool :=
  same_number (depth gt) d.
Definition same_elevation (gt : GroundwaterInformation) (e : option Q) : bool :=
  same_number (elevation gt) e.
Definition same_day (gt : GroundwaterInformation) (d : option string) : bool :=
  same_date (date gt) d.
Definition same_information (gt e : GroundwaterInformation) : bool :=
  same_depth gt (depth e) && same_elevation gt (elevation e) && same_day gt (date e).

Definition evaluate_metadata_by_equality :=
  evaluate_metadata same_information same_depth same_elevation same_day.

(** A prediction with a groundwater reading and a ground truth with two. *)
Definition reading_a : GroundwaterInformation :=
  mkGroundwaterInformation (Some (5 # 2)%Q) (Some 412%Q) (Some "2020-03-01").
Definition reading_b : GroundwaterInformation :=
  mkGroundwaterInformation (Some 7%Q) (Some 410%Q) (Some "2021-06-15").
Definition wet_prediction : BoreholeMetaData := mkBoreholeMetaData None (Some reading_a).
Definition wet_ground_truth : GroundTruthMetadata :=
  mkGroundTruthMetadata None (Some [reading_a; reading_b]).

End Metadata.

(** ** predictions.py: layer matching *)

(** [xs.remove(x)]: drop the first element equal to [x]; [ValueError] when
    there is none. *)
Fixpoint remove_first {A} `{EqDecision A} (x : A) (xs : list A) : option (list A) :=
  match xs with
  | [] => None
  | y :: ys => if decide (y = x) then Some ys else cons y <$> remove_first x ys
  end.

Definition list_remove {A} `{EqDecision A} (x : A) : Py (list A) unit :=
  fun xs => match remove_first x xs with
            | Some xs' => Returned tt xs'
            | None => Raised ValueError xs
            end.

(** [max(xs, key=key)]: the first element whose key no other exceeds;
    [ValueError] on an empty list. *)
Definition py_max {S A} (key : A -> Q) (xs : list A) : Py S A :=
  match xs with
  | [] => raise ValueError
  | x :: rest => ret (foldl (fun best y => if Qltb (key best) (key y) then y else best) x rest)
  end.

(** The characters of a Python [str].  A string here holds the UTF-8 bytes
    of the text: a byte [10xxxxxx] continues the character begun before it,
    so a character is a byte that is no continuation together with the
    continuation bytes that follow it. *)
Definition is_continuation (byte : Ascii.ascii) : bool :=
  match byte with
  | Ascii.Ascii _ _ _ _ _ _ b6 b7 => b7 && negb b6
  end.

Definition characters (s : string) : list (list Ascii.ascii) :=
  let '(pending, groups) :=
    foldr (fun byte '(pending, groups) =>
             if is_continuation byte then (byte :: pending, groups)
             else ([], (byte :: pending) :: groups))
          ([], []) (String.list_ascii_of_string s) in
  match pending with
  | [] => groups
  | _ => pending :: groups
  end.

(** [Levenshtein.ratio] as its library documents it: the normalised indel
    similarity [1 - d/(len a + len b)], where the indel distance [d] is
    [len a + len b - 2 * lcs a b] and lengths count characters; [1] for two
    empty strings. *)
Fixpoint lcs {A} `{EqDecision A} (a : list A) : list A -> nat :=
  match a with
  | [] => fun _ => O
  | x :: a' =>
      fix inner (b : list A) : nat :=
        match b with
        | [] => O
        | y :: b' =>
            if decide (x = y) then S (lcs a' b')
            else Nat.max (lcs a' b) (inner b')
        end
  end.

Definition levenshtein_ratio (a b : string) : Q :=
  let la := characters a in
  let lb := characters b in
  match (length la + length lb)%nat with
  | O => 1%Q
  | S n => (inject_Z (Z.of_nat (2 * lcs la lb)) / inject_Z (Z.of_nat (S n)))%Q
  end.

Module Matching.

(** Modelled from the spec: [DepthColumnEntry] of
    [stratigraphy.util.depthcolumnentry], a value with its source rectangle
    and page number; the matching reads the [value] only. *)
Record DepthColumnEntry : Type := mkDepthColumnEntry { value : Qc }.

(** Modelled from the spec: [BoundaryInterval] of
    [stratigraphy.util.interval]: a start and an end, each a
    [DepthColumnEntry] or absent. *)
Record BoundaryInterval : Type := mkBoundaryInterval {
  start : option DepthColumnEntry;
  end_ : option DepthColumnEntry
}.

(** [class LayerPrediction]; [material_description] is the [.text] of the
    block, [id] stands for the UUID. *)
Record LayerPrediction : Type := mkLayerPrediction {
  material_description : string;
  depth_interval : option BoundaryInterval;
  material_is_correct : option bool;
  depth_interval_is_correct : option bool;
  id : N
}.

(** A ground-truth layer dict: ["material_description"] and the ["start"]
    and ["end"] of its ["depth_interval"], each a number or [None]. *)
Record GroundTruthLayer : Type := mkGroundTruthLayer {
  gt_material_description : string;
  gt_start : option Qc;
  gt_end : option Qc
}.

#[global] Instance GroundTruthLayer_eq_dec : EqDecision GroundTruthLayer.
Proof. solve_decision. Defined.

(** [x == v] for a ground-truth number-or-None and a number. *)
Definition equals_number (x : option Qc) (v : Qc) : bool := bool_decide (x = Some v).

Section Matcher.

(** [parse_text] of [stratigraphy.util.util] (text normalisation, not among
    the sources) and [Levenshtein.ratio], both taken as given. *)
Variable parse_text : string -> string.
Variable ratio : string -> string -> Q.

(** The [for possible_match in possible_matches] loop: the first candidate
    with an exact depth match is removed from the pool and returned. *)
Fixpoint first_exact_match (layer : LayerPrediction) (possible_matches : list GroundTruthLayer)
  : Py (list GroundTruthLayer) (option GroundTruthLayer) :=
  match possible_matches with
  | [] => ret None
  | possible_match :: rest =>
      let start_ := gt_start possible_match in
      let end__ := gt_end possible_match in
      match depth_interval layer with
      | None => first_exact_match layer rest
      | Some interval =>
          let* from_zero :=
            (if equals_number start_ 0%Qc && bool_decide (start interval = None) then
               match end_ interval with
               | None => raise AttributeError
               | Some e => ret (equals_number end__ (value e))
               end
             else ret false) in
          if from_zero : bool then
            list_remove possible_match ;;; ret (Some possible_match)
          else
            match start interval, end_ interval with
            | Some s, Some e =>
                if equals_number start_ (value s) && equals_number end__ (value e) then
                  list_remove possible_match ;;; ret (Some possible_match)
                else first_exact_match layer rest
            | _, _ => first_exact_match layer rest
            end
      end
  end.

(** [FilePredictions._find_matching_layer]; the store is [unmatched_layers]. *)
Definition _find_matching_layer (layer : LayerPrediction)
  : Py (list GroundTruthLayer) (option GroundTruthLayer * option bool) :=
  let parsed_text := parse_text (material_description layer) in
  let* unmatched_layers := get in
  let possible_matches :=
    List.filter
      (fun ground_truth_layer =>
         Qltb (9 # 10) (ratio parsed_text (gt_material_description ground_truth_layer)))
      unmatched_layers in
  match possible_matches with
  | [] => ret (None, None)
  | _ =>
      let* exact := first_exact_match layer possible_matches in
      match exact with
      | Some possible_match => ret (Some possible_match, Some true)
      | None =>
          let* match_ :=
            py_max (fun x => ratio parsed_text (gt_material_description x)) possible_matches in
          list_remove match_ ;;; ret (Some match_, Some false)
      end
  end.

Definition with_flags (layer : LayerPrediction) (material depth : option bool) : LayerPrediction :=
  mkLayerPrediction (material_description layer) (depth_interval layer) material depth (id layer).

(** The [for layer in self.layers] loop of [evaluate_layers]. *)
Fixpoint evaluate_loop (layers : list LayerPrediction)
  : Py (list GroundTruthLayer) (list LayerPrediction) :=
  match layers with
  | [] => ret []
  | layer :: rest =>
      let* (match_, depth_interval_is_correct) := _find_matching_layer layer in
      let layer' :=
        match match_ with
        | Some _ => with_flags layer (Some true) depth_interval_is_correct
        | None => with_flags layer (Some false) None
        end in
      let* rest' := evaluate_loop rest in
      ret (layer' :: rest')
  end.

(** [FilePredictions.evaluate_layers]: the loop run on a copy of the ground
    truth; the outcome holds the layers with their flags set and the pool
    that is left. *)
Definition evaluate_layers (layers : list LayerPrediction)
    (ground_truth_layers : list GroundTruthLayer)
  : outcome (list GroundTruthLayer) (list LayerPrediction) :=
  let unmatched_layers := ground_truth_layers in
  evaluate_loop layers unmatched_layers.

(** *** The vocabulary of the claims *)

(** A candidate: similarity ratio to the parsed text above 0.9. *)
Definition is_candidate (layer : LayerPrediction) (g : GroundTruthLayer) : Prop :=
  (9 # 10 < ratio (parse_text (material_description layer)) (gt_material_description g))%Q.

Definition candidates (layer : LayerPrediction) (pool : list GroundTruthLayer)
  : list GroundTruthLayer :=
  List.filter
    (fun g => Qltb (9 # 10) (ratio (parse_text (material_description layer))
                               (gt_material_description g))) pool.

Definition similarity (layer : LayerPrediction) (g : GroundTruthLayer) : Q :=
  ratio (parse_text (material_description layer)) (gt_material_description g).

(** An exact depth match of a candidate: ground-truth start 0, predicted
    start absent and the ends equal; or predicted start and end both present
    and equal to the candidate's. *)
Definition exact_depth_match (layer : LayerPrediction) (g : GroundTruthLayer) : Prop :=
  exists interval, depth_interval layer = Some interval /\
    ((gt_start g = Some 0%Qc /\ start interval = None /\
      exists e, end_ interval = Some e /\ gt_end g = Some (value e))
     \/ (exists s e, start interval = Some s /\ end_ interval = Some e /\
                    gt_start g = Some (value s) /\ gt_end g = Some (value e))).

(** The interval of the layer is present with neither start nor end. *)
Definition open_interval (layer : LayerPrediction) : Prop :=
  exists interval, depth_interval layer = Some interval /\
    start interval = None /\ end_ interval = None.

(** The precondition: a present interval whose start is absent has its end. *)
Definition end_present (layer : LayerPrediction) : Prop :=
  forall interval, depth_interval layer = Some interval ->
    start interval = None -> end_ interval <> None.

(** When the loop reads [.value] of an absent end: the interval is open and
    some candidate starts at 0. *)
Definition faults (layer : LayerPrediction) (pool : list GroundTruthLayer) : Prop :=
  open_interval layer /\
  exists g, g ∈ pool /\ is_candidate layer g /\ gt_start g = Some 0%Qc.

(** What the loop over the candidates does. *)
Definition loop_outcome (layer : LayerPrediction) (cands pool : list GroundTruthLayer)
    (o : outcome (list GroundTruthLayer) (option GroundTruthLayer)) : Prop :=
  match o with
  | Returned None pool' =>
      pool' = pool /\ (forall g, g ∈ cands -> ~ exact_depth_match layer g) /\
      ~ (open_interval layer /\ exists g, g ∈ cands /\ gt_start g = Some 0%Qc)
  | Returned (Some m) pool' =>
      (exists l1 l2, cands = l1 ++ m :: l2 /\
                     forall g, g ∈ l1 -> ~ exact_depth_match layer g) /\
      exact_depth_match layer m /\ remove_first m pool = Some pool'
  | Raised e pool' =>
      e = AttributeError /\ pool' = pool /\ open_interval layer /\
      exists g, g ∈ cands /\ gt_start g = Some 0%Qc
  end.

(** What [_find_matching_layer] does with one layer on a pool. *)
Definition find_outcome (layer : LayerPrediction) (pool : list GroundTruthLayer)
    (o : outcome (list GroundTruthLayer) (option GroundTruthLayer * option bool)) : Prop :=
  match o with
  | Returned (None, None) pool' => candidates layer pool = [] /\ pool' = pool
  | Returned (Some m, Some true) pool' =>
      m ∈ candidates layer pool /\ exact_depth_match layer m /\
      (exists l1 l2, candidates layer pool = l1 ++ m :: l2 /\
                     forall g, g ∈ l1 -> ~ exact_depth_match layer g) /\
      remove_first m pool = Some pool'
  | Returned (Some m, Some false) pool' =>
      (forall g, g ∈ candidates layer pool -> ~ exact_depth_match layer g) /\
      ~ faults layer pool /\
      m ∈ candidates layer pool /\
      (forall g, g ∈ candidates layer pool -> (similarity layer g <= similarity layer m)%Q) /\
      remove_first m pool = Some pool'
  | Returned _ _ => False
  | Raised e pool' => e = AttributeError /\ pool' = pool /\ faults layer pool
  end.

(** One layer evaluated as stated: from [pool] to [pool'], the layer
    getting its two flags. *)
Definition layer_as_stated (pool : list GroundTruthLayer) (layer layer' : LayerPrediction)
    (pool' : list GroundTruthLayer) : Prop :=
  (candidates layer pool = [] /\
   layer' = with_flags layer (Some false) None /\ pool' = pool)
  \/ (exists m, m ∈ candidates layer pool /\ exact_depth_match layer m /\
        (exists l1 l2, candidates layer pool = l1 ++ m :: l2 /\
                       forall g, g ∈ l1 -> ~ exact_depth_match layer g) /\
        layer' = with_flags layer (Some true) (Some true) /\
        remove_first m pool = Some pool')
  \/ (candidates layer pool <> [] /\
      (forall g, g ∈ candidates layer pool -> ~ exact_depth_match layer g) /\
      exists m, m ∈ candidates layer pool /\
        (forall g, g ∈ candidates layer pool -> (similarity layer g <= similarity layer m)%Q) /\
        layer' = with_flags layer (Some true) (Some false) /\
        remove_first m pool = Some pool').

(** All layers evaluated as stated, in order, each on the pool the one
    before left. *)
Inductive evaluated : list GroundTruthLayer -> list LayerPrediction ->
                      list LayerPrediction -> list GroundTruthLayer -> Prop :=
  | evaluated_nil pool : evaluated pool [] [] pool
  | evaluated_cons pool layer layer' pool1 rest rest' pool2 :
      layer_as_stated pool layer layer' pool1 ->
      evaluated pool1 rest rest' pool2 ->
      evaluated pool (layer :: rest) (layer' :: rest') pool2.

(** The layers that took a ground-truth entry. *)
Definition matched (layers : list LayerPrediction) : list LayerPrediction :=
  List.filter (fun l => bool_decide (material_is_correct l = Some true)) layers.

End Matcher.

(** Sample data: texts that [parse_text] leaves as they are. *)
Definition plain_text (s : string) : string := s.

Definition entry (q : Q) : option DepthColumnEntry := Some (mkDepthColumnEntry (Q2Qc q)).

Definition sand_0_2 : GroundTruthLayer := mkGroundTruthLayer "sand" (Some (Q2Qc 0)) (Some (Q2Qc 2)).
Definition sand_2_5 : GroundTruthLayer := mkGroundTruthLayer "sand" (Some (Q2Qc 2)) (Some (Q2Qc 5)).
Definition sandy_2_5 : GroundTruthLayer := mkGroundTruthLayer "sandy" (Some (Q2Qc 2)) (Some (Q2Qc 5)).
Definition sandys_5_9 : GroundTruthLayer :=
  mkGroundTruthLayer "sandys" (Some (Q2Qc 5)) (Some (Q2Qc 9)).

Definition new_layer (text : string) (interval : option BoundaryInterval) (n : N) : LayerPrediction :=
  mkLayerPrediction text interval None None n.

(** A layer whose interval is present with start and end both absent, as
    [create_from_json] builds it from [{"start": null, "end": null}]. *)
Definition open_layer : LayerPrediction :=
  new_layer "sand" (Some (mkBoundaryInterval None None)) 1.

(** A layer with absent start and end 2. *)
Definition top_layer : LayerPrediction :=
  new_layer "sand" (Some (mkBoundaryInterval None (entry 2))) 2.

(** A layer "sandy" from 1 to 3, and one without interval. *)
Definition sandy_1_3 : LayerPrediction :=
  new_layer "sandy" (Some (mkBoundaryInterval (entry 1) (entry 3))) 3.
Definition bare_layer : LayerPrediction := new_layer "sand" None 4.

End Matching.

(** ** duplicate_detection.py *)

(** [sorted(xs, key=key)]: ascending by key, elements of equal key in their
    original order. *)
Fixpoint insert_by {A} (key : A -> Q) (x : A) (xs : list A) : list A :=
  match xs with
  | [] => [x]
  | y :: ys => if Qltb (key y) (key x) then y :: insert_by key x ys else x :: y :: ys
  end.

Definition sorted {A} (key : A -> Q) (xs : list A) : list A :=
  foldr (insert_by key) [] xs.

(** [min(a, b)] and [max(a, b)] on floats. *)
Definition min2 (a b : Q) : Q := if Qltb b a then b else a.
Definition max2 (a b : Q) : Q := if Qltb a b then b else a.

(** [enumerate(xs)] *)
Definition enumerate {A} (xs : list A) : list (nat * A) := imap pair xs.

Module Duplicates.

(** A [fitz.Page] as the detector reads it: the size of its rectangle. *)
Record Page : Type := mkPage { width : Q; height : Q }.

(** A layer dict: the ["rect"] of its ["material_description"], as
    [[x0, y0, x1, y1]], and the text it carries. *)
Record Layer : Type := mkLayer {
  rect : Q * Q * Q * Q;
  text : string
}.

(** The key of the sort: [x["material_description"]["rect"][1]]. *)
Definition rect_top (x : Layer) : Q := let '(_, y0, _, _) := rect x in y0.

Definition scale_factor : Q := 3.

(** The slice bounds [(y_start, y_end, x_start, x_end)] of the patch cut
    from the image of the current page. *)
Definition patch_bounds (previous_page current_page : Page) (layer : Layer)
  : Z * Z * Z * Z :=
  let '(x0, y_start, x1, y_end) := rect layer in
  let x_start := py_int (scale_factor * min2 x0 (width current_page * (2 # 10))) in
  let x_end :=
    py_int (scale_factor *
            min2 (max2 x1 (width current_page * (8 # 10))) (width previous_page - 1)) in
  let y_start := py_int (scale_factor * max2 y_start 0) in
  let y_end :=
    py_int (scale_factor *
            min2 (min2 (y_end + 5) (height previous_page - 5)) (height current_page - 5)) in
  (y_start, y_end, x_start, x_end).

Section Detector.

(** [np.max(cv2.matchTemplate(previous_page_image, layer_image,
    cv2.TM_CCOEFF_NORMED))] for the patch with the given slice bounds;
    [None] when [cv2.error] is raised. *)
Variable match_template : Z * Z * Z * Z -> option Q.

Variable previous_page current_page : Page.

(** [img_template_probablility_match] of one layer. *)
Definition img_template_probablility_match (layer : Layer) : Q :=
  match match_template (patch_bounds previous_page current_page layer) with
  | Some score => score
  | None => 0
  end.

(** The [for layer_index, layer in enumerate(sorted_layers)] loop, from the
    current values of the two counters to the final
    [duplicated_layer_index]. *)
Fixpoint scan (layers : list (nat * Layer))
    (duplicated_layer_index count_consecutive_non_duplicate_layers : nat) : nat :=
  match layers with
  | [] => duplicated_layer_index
  | (layer_index, layer) :: rest =>
      if (3 <=? count_consecutive_non_duplicate_layers)%nat then duplicated_layer_index
      else if Qltb (62 # 100) (img_template_probablility_match layer)
      then scan rest layer_index 0
      else scan rest duplicated_layer_index (count_consecutive_non_duplicate_layers + 1)
  end.

(** [remove_duplicate_layers] *)
Definition remove_duplicate_layers (layer_predictions : list Layer) : list Layer :=
  let sorted_layers := sorted rect_top layer_predictions in
  let duplicated_layer_index := scan (enumerate sorted_layers) 0 0 in
  drop duplicated_layer_index sorted_layers.

(** *** The vocabulary of the claim *)

Definition is_duplicate (layer : Layer) : Prop :=
  (62 # 100 < img_template_probablility_match layer)%Q.

Definition duplicateb (layer : Layer) : bool :=
  Qltb (62 # 100) (img_template_probablility_match layer).

(** Three consecutive candidates at [k], [k+1], [k+2], none a duplicate. *)
Definition low_run_at (layers : list Layer) (k : nat) : Prop :=
  exists a b c, layers !! k = Some a /\ layers !! (k + 1)%nat = Some b /\
                layers !! (k + 2)%nat = Some c /\
                ~ is_duplicate a /\ ~ is_duplicate b /\ ~ is_duplicate c.

(** [k] is where the first such run starts. *)
Definition first_low_run (layers : list Layer) (k : nat) : Prop :=
  low_run_at layers k /\ forall j, (j < k)%nat -> ~ low_run_at layers j.

(** The number of candidates the loop looks at: up to the end of the first
    run of three non-duplicates, or all of them. *)
Definition scanned (layers : list Layer) (n : nat) : Prop :=
  (exists k, first_low_run layers k /\ n = (k + 3)%nat)
  \/ ((forall k, ~ low_run_at layers k) /\ n = length layers).

(** The boundary: the last duplicate among the first [n] candidates, or 0
    when there is none. *)
Definition boundary (layers : list Layer) (n b : nat) : Prop :=
  (b = O /\ forall j x, (j < n)%nat -> layers !! j = Some x -> ~ is_duplicate x)
  \/ ((b < n)%nat /\ (exists x, layers !! b = Some x /\ is_duplicate x) /\
      forall j x, (b < j < n)%nat -> layers !! j = Some x -> ~ is_duplicate x).

(** What holds of the two counters when the loop reaches position [o]:
    [count] non-duplicates lie between the last duplicate (at [b]) and [o],
    and a run of three non-duplicates has been seen only if it has just
    ended. *)
Definition scan_invariant (layers : list Layer) (o b count : nat) : Prop :=
  (count <= 3)%nat /\
  (forall j, (j + 3 <= o)%nat -> low_run_at layers j -> count = 3%nat /\ (j + 3)%nat = o) /\
  ((b = O /\ count = o /\
    forall j x, (j < o)%nat -> layers !! j = Some x -> ~ is_duplicate x)
   \/ ((b < o)%nat /\ (exists x, layers !! b = Some x /\ is_duplicate x) /\
       count = (o - b - 1)%nat /\
       forall j x, (b < j < o)%nat -> layers !! j = Some x -> ~ is_duplicate x)).



End Detector.

(** Four rows, top to bottom, on two pages of size 600 x 800; the first row
    is found on the previous page and the other three are not. *)
Definition a4 : Page := mkPage 600 800.
Definition row (y : Q) (t : string) : Layer := mkLayer (100, y, 500, y + 20)%Q t.
Definition rows4 : list Layer := [row 10 "silt"; row 40 "clay"; row 70 "sand"; row 100 "gravel"].
Definition first_row_repeats (bounds : Z * Z * Z * Z) : option Q :=
  let '(y_start, _, _, _) := bounds in
  if (y_start =? 30)%Z then Some 1%Q else Some 0%Q.

End Duplicates.

(** ** linesquadtree.py *)

Module QuadTree.

(** Modelled from the spec: [Point] and [Line] of
    [stratigraphy.util.dataclasses]: a real-valued 2D coordinate, and a segment
    from [start] to [end]. *)
Record Point : Type := mkPoint { x : Q; y : Q }.
Record Line : Type := mkLine { start : Point; end_ : Point }.

(** *** The [quads] region index, by its contract

    [quads.BoundingBox] with its inclusive [contains]; a [quads.QuadTree] as
    its bounds and the points it stores, each integer point with its [data]
    (here a set of line keys).  [find] looks a point up by its coordinates,
    [insert] refuses a point outside the bounds with [ValueError], and
    [within_bb] lists the stored points a box contains. *)
Record BoundingBox : Type := mkBoundingBox { min_x : Q; min_y : Q; max_x : Q; max_y : Q }.

Definition bb_contains (bb : BoundingBox) (p : Z * Z) : bool :=
  Qle_bool (min_x bb) (inject_Z p.1) && Qle_bool (inject_Z p.1) (max_x bb)
  && Qle_bool (min_y bb) (inject_Z p.2) && Qle_bool (inject_Z p.2) (max_y bb).

Record QTree : Type := mkQTree {
  bounding_box : BoundingBox;
  points : gmap (Z * Z) (gset string)
}.

Definition quads_QuadTree (center : Q * Q) (width height : Q) : QTree :=
  mkQTree (mkBoundingBox (center.1 - width / 2) (center.2 - height / 2)
                         (center.1 + width / 2) (center.2 + height / 2))%Q ∅.

Definition qtree_find (t : QTree) (coordinates : Z * Z) : option (gset string) :=
  if bb_contains (bounding_box t) coordinates then points t !! coordinates else None.

Definition qtree_insert (coordinates : Z * Z) (data : gset string) : Py QTree unit :=
  fun t =>
    if bb_contains (bounding_box t) coordinates
    then Returned tt (mkQTree (bounding_box t) (<[coordinates := data]> (points t)))
    else Raised ValueError t.

Definition within_bb (t : QTree) (bb : BoundingBox) : list (Z * Z * gset string) :=
  List.filter (fun point => bb_contains bb point.1) (map_to_list (points t)).

(** *** [class LinesQuadTree] *)
Record LinesQuadTree : Type := mkLinesQuadTree {
  qtree : QTree;
  hashmap : gmap string Line
}.

(** [LinesQuadTree.__init__] *)
Definition init (width height : Q) : LinesQuadTree :=
  mkLinesQuadTree (quads_QuadTree (width / 2, height / 2)%Q (width + 1000) (height + 1000)) ∅.

(** [(round(point.x), round(point.y))] *)
Definition rounded (point : Point) : Z * Z := (py_round (x point), py_round (y point)).

(** [qtree_point.data] updated in place. *)
Definition set_data (s : LinesQuadTree) (coordinates : Z * Z) (data : gset string)
  : LinesQuadTree :=
  mkLinesQuadTree
    (mkQTree (bounding_box (qtree s)) (<[coordinates := data]> (points (qtree s))))
    (hashmap s).

(** [LinesQuadTree._qtree_insert] *)
Definition _qtree_insert (point : Point) (line_key : string) : Py LinesQuadTree unit :=
  fun s =>
    let coordinates := rounded point in
    match qtree_find (qtree s) coordinates with
    | Some data => Returned tt (set_data s coordinates (data ∪ {[line_key]}))
    | None =>
        match qtree_insert coordinates {[line_key]} (qtree s) with
        | Returned _ t => Returned tt (mkLinesQuadTree t (hashmap s))
        | Raised e _ => Raised e s
        end
    end.

(** [LinesQuadTree._qtree_delete]; [set.remove] raises [KeyError] on a key
    the set does not hold. *)
Definition _qtree_delete (point : Point) (line_key : string) : Py LinesQuadTree unit :=
  fun s =>
    let coordinates := rounded point in
    match qtree_find (qtree s) coordinates with
    | Some data =>
        if decide (line_key ∈ data)
        then Returned tt (set_data s coordinates (data ∖ {[line_key]}))
        else Raised KeyError s
    | None => Returned tt s
    end.

(** [LinesQuadTree.remove] *)
Definition remove (line_key : string) : Py LinesQuadTree unit :=
  let* s := get in
  match hashmap s !! line_key with
  | Some line =>
      _qtree_delete (start line) line_key ;;;
      _qtree_delete (end_ line) line_key ;;;
      modify (fun s => mkLinesQuadTree (qtree s) (delete line_key (hashmap s)))
  | None => ret tt
  end.

(** [LinesQuadTree.add]; [line_key] is the value [uuid.uuid4().hex] takes. *)
Definition add (line : Line) (line_key : string) : Py LinesQuadTree string :=
  modify (fun s => mkLinesQuadTree (qtree s) (<[line_key := line]> (hashmap s))) ;;;
  _qtree_insert (start line) line_key ;;;
  _qtree_insert (end_ line) line_key ;;;
  ret line_key.

(** What [neighbouring_lines] returns: the empty list [[]] for an unknown
    key, a dict otherwise. *)
Inductive neighbours : Type :=
  | EmptyList
  | Lines (d : gmap string Line).

(** The box of a line grown by [tol]. *)
Definition search_box (line : Line) (tol : Q) : BoundingBox :=
  let min_x := min2 (x (start line)) (x (end_ line)) in
  let max_x := max2 (x (start line)) (x (end_ line)) in
  let min_y := min2 (y (start line)) (y (end_ line)) in
  let max_y := max2 (y (start line)) (y (end_ line)) in
  mkBoundingBox (min_x - tol) (min_y - tol) (max_x + tol) (max_y + tol).

(** The body of the inner loop of [neighbouring_lines]: one key of one
    point. *)
Definition collect (hashmap : gmap string Line) (line_key : string)
    (neighbouring_lines : gmap string Line) (neighbour_key : string) : gmap string Line :=
  match hashmap !! neighbour_key with
  | Some neighbour =>
      if decide (neighbour_key <> line_key)
      then <[neighbour_key := neighbour]> neighbouring_lines
      else neighbouring_lines
  | None => neighbouring_lines
  end.

(** [LinesQuadTree.neighbouring_lines] *)
Definition neighbouring_lines (s : LinesQuadTree) (line_key : string) (tol : Q) : neighbours :=
  match hashmap s !! line_key with
  | None => EmptyList
  | Some line =>
      let bb := search_box line tol in
      let points := within_bb (qtree s) bb in
      Lines
        (foldl (fun neighbouring_lines point =>
                  foldl (collect (hashmap s) line_key) neighbouring_lines (elements point.2))
               ∅ points)
  end.

(** *** The vocabulary of the claims *)

(** The states of an index: built by [__init__], [add] with a fresh key and
    [remove], each call returning. *)
Inductive reachable : LinesQuadTree -> Prop :=
  | reachable_init width height : reachable (init width height)
  | reachable_add s line line_key s' :
      reachable s -> hashmap s !! line_key = None ->
      add line line_key s = Returned line_key s' -> reachable s'
  | reachable_remove s line_key s' :
      reachable s -> remove line_key s = Returned tt s' -> reachable s'.

(** Both endpoints of every live line are registered, every registered key
    is live and sits at a rounded endpoint of its line, and every stored
    point lies within the bounds. *)
Definition registered (s : LinesQuadTree) (p : Z * Z) (k : string) : Prop :=
  exists data, points (qtree s) !! p = Some data /\ k ∈ data.

Definition points_in_bounds (s : LinesQuadTree) : Prop :=
  forall p data, points (qtree s) !! p = Some data ->
    bb_contains (bounding_box (qtree s)) p = true.

Definition index_invariant (s : LinesQuadTree) : Prop :=
  (forall k l, hashmap s !! k = Some l ->
     registered s (rounded (start l)) k /\ registered s (rounded (end_ l)) k) /\
  (forall p k, registered s p k ->
     exists l, hashmap s !! k = Some l /\ (p = rounded (start l) \/ p = rounded (end_ l))) /\
  points_in_bounds s.

(** A real-valued point inside the box of [line] grown by [tol]. *)
Definition in_search_box (line : Line) (tol : Q) (p : Point) : Prop :=
  let bb := search_box line tol in
  (min_x bb <= x p /\ x p <= max_x bb /\ min_y bb <= y p /\ y p <= max_y bb)%Q.

(** The same for an endpoint as the index registers it, rounded. *)
Definition rounded_in_search_box (line : Line) (tol : Q) (p : Point) : Prop :=
  bb_contains (search_box line tol) (rounded p) = true.

(** The stated result of a query: the other live lines with an endpoint in
    the box. *)
Definition stated_neighbours (s : LinesQuadTree) (line_key : string) (tol : Q) : Prop :=
  exists line d, hashmap s !! line_key = Some line /\
    neighbouring_lines s line_key tol = Lines d /\
    d !! line_key = None /\
    forall k l, d !! k = Some l <->
      k <> line_key /\ hashmap s !! k = Some l /\
      (in_search_box line tol (start l) \/ in_search_box line tol (end_ l)).

(** Calls on an index, and a sequence of them run from a state. *)
Inductive call : Type :=
  | Add (line : Line) (line_key : string)
  | Remove (line_key : string).

Definition key_of (c : call) : string :=
  match c with Add _ k => k | Remove k => k end.

Definition added_keys (cs : list call) : list string :=
  omap (fun c => match c with Add _ k => Some k | Remove _ => None end) cs.

Fixpoint run (cs : list call) : Py LinesQuadTree unit :=
  match cs with
  | [] => ret tt
  | Add line k :: rest => add line k ;;; run rest
  | Remove k :: rest => remove k ;;; run rest
  end.

(** The calls that do not mention [k]. *)
Definition without (k : string) (cs : list call) : list call :=
  List.filter (fun c => bool_decide (key_of c <> k)) cs.

(** Sample lines on a 100 x 100 page. *)
Definition pt (a b : Q) : Point := mkPoint a b.
Definition page : LinesQuadTree := init 100 100.
Definition base_line : Line := mkLine (pt 0 0) (pt 10 0).
Definition near_line : Line := mkLine (pt (104 # 10) 0) (pt 50 50).
Definition short_line : Line := mkLine (pt (102 # 10) (54 # 10)) (pt (104 # 10) (53 # 10)).

Definition page_a : LinesQuadTree := store_of (add base_line "a" page).
Definition page_ab : LinesQuadTree := store_of (add near_line "b" page_a).
Definition page_c : LinesQuadTree := store_of (add short_line "c" page).

(** Two states related as "with [k]" and "without [k]": the same index but
    for the line of key [k]. *)
Definition same_but (k : string) (s t : LinesQuadTree) : Prop :=
  index_invariant s /\ index_invariant t /\
  hashmap t = delete k (hashmap s) /\
  bounding_box (qtree t) = bounding_box (qtree s).

(** A point with integer coordinates. *)
Definition integral (p : Point) : Prop :=
  exists a b, (x p == inject_Z a)%Q /\ (y p == inject_Z b)%Q.

End QuadTree.

(** ** Further sample data for duplicate detection *)

Module DuplicatesSamples.
Import Duplicates.

(** Five rows, top to bottom, and a matcher that finds the first and the
    fifth of them on the previous page. *)
Definition rows5 : list Layer := rows4 ++ [row 130 "marl"].
Definition first_and_fifth_repeat (bounds : Z * Z * Z * Z) : option Q :=
  let '(y_start, _, _, _) := bounds in
  if (y_start =? 30)%Z || (y_start =? 390)%Z then Some 1%Q else Some 0%Q.

End DuplicatesSamples.

(** ** predictions.py: conversion to ground truth *)

Module Conversion.

(** What [convert_to_ground_truth] leaves under ["metadata"]: [self.metadata]
    itself (a [BoreholeMetaData] object or [None]), or the dict
    [{"coordinates": {"E": .., "N": ..}}] that replaces it. *)
Inductive exported_metadata : Type :=
  | MetadataObject (metadata : option Metadata.BoreholeMetaData)
  | MetadataDict (d : Metadata.GroundTruthMetadata).

(** The dict stored under [self.file_name]. *)
Record GroundTruthFile : Type := mkGroundTruthFile {
  file_metadata : exported_metadata;
  file_layers : list Matching.GroundTruthLayer
}.

(** One turn of the [for layer in self.layers] loop: the dict appended for
    the layer.  Reading [.start] of an absent interval raises; a
    [DepthColumnEntry] that is present is true in a condition. *)
Definition convert_layer (layer : Matching.LayerPrediction)
  : exn + Matching.GroundTruthLayer :=
  let material_description := Matching.material_description layer in
  match Matching.depth_interval layer with
  | None => inl AttributeError
  | Some interval =>
      inr (Matching.mkGroundTruthLayer material_description
             (Matching.value <$> Matching.start interval)
             (Matching.value <$> Matching.end_ interval))
  end.

Fixpoint convert_layers (layers : list Matching.LayerPrediction)
  : exn + list Matching.GroundTruthLayer :=
  match layers with
  | [] => inr []
  | layer :: rest =>
      match convert_layer layer with
      | inl e => inl e
      | inr converted =>
          match convert_layers rest with
          | inl e => inl e
          | inr layers' => inr (converted :: layers')
          end
      end
  end.

(** [FilePredictions.convert_to_ground_truth]: the file name with the dict
    stored under it. *)
Definition convert_to_ground_truth (file_name : string)
    (layers : list Matching.LayerPrediction) (metadata : option Metadata.BoreholeMetaData)
  : exn + (string * GroundTruthFile) :=
  match convert_layers layers with
  | inl e => inl e
  | inr layers' =>
      let exported :=
        match metadata with
        | Some m =>
            match Metadata.coordinates m with
            | Some c =>
                MetadataDict
                  (Metadata.mkGroundTruthMetadata
                     (Some (Metadata.coordinate_value (Metadata.east c),
                            Metadata.coordinate_value (Metadata.north c)))
                     None)
            | None => MetadataObject metadata
            end
        | None => MetadataObject metadata
        end in
      inr (file_name, mkGroundTruthFile exported layers')
  end.

(** A layer whose interval has both its start and its end. *)
Definition complete (layer : Matching.LayerPrediction) : Prop :=
  exists interval s e, Matching.depth_interval layer = Some interval /\
    Matching.start interval = Some s /\ Matching.end_ interval = Some e.

(** Sample layers: "sand" from 0 to 2 and "sandy" from 2 to 5. *)
Definition sand_layer : Matching.LayerPrediction :=
  Matching.new_layer "sand"
    (Some (Matching.mkBoundaryInterval (Matching.entry 0) (Matching.entry 2))) 5.
Definition sandy_layer : Matching.LayerPrediction :=
  Matching.new_layer "sandy"
    (Some (Matching.mkBoundaryInterval (Matching.entry 2) (Matching.entry 5))) 6.

End Conversion.

(** ** create_pngs.py *)

Module CreatePngs.

(** [s.startswith(prefix)] and [s.endswith(suffix)] *)
Definition startswith (s prefix : string) : bool := String.prefix prefix s.

Fixpoint endswith (s suffix : string) : bool :=
  String.eqb s suffix
  || match s with
     | EmptyString => false
     | String _ rest => endswith rest suffix
     end.

(** [s.replace(old, new)] for a non-empty [old]: the occurrences of [old]
    met from left to right, none overlapping the one before, each replaced
    by [new].  [skip] counts the characters of the occurrence just replaced
    that are still to be passed. *)
Fixpoint replace_from (old new : string) (skip : nat) (s : string) : string :=
  match s with
  | EmptyString => EmptyString
  | String c rest =>
      match skip with
      | S k => replace_from old new k rest
      | O =>
          if String.prefix old s
          then new +:+ replace_from old new (String.length old - 1) rest
          else String c (replace_from old new 0 rest)
      end
  end.

Definition replace (s old new : string) : string := replace_from old new 0 s.

(** The name the PNG files are built from:
    [aws_filename.replace("pdfs/", "").replace(".pdf", "")]. *)
Definition filename_of (aws_filename : string) : string :=
  replace (replace aws_filename "pdfs/" "") ".pdf" "".

(** The calls to the outside made for the pages, as the source has them. *)
Inductive effect : Type :=
  | load_page (page_number : nat)
  | get_pixmap (page_number : nat)
  | save (png_path : string)
  | upload_file_to_s3 (png_path s3_bucket_png_path : string)
  | os_remove (png_path : string).

(** What the endpoint answers: the response, an [HTTPException], or the
    exception of [load_pdf_from_aws], which is passed on as it is. *)
Inductive response : Type :=
  | PNGResponse (png_urls : list string)
  | HTTPException (status_code : Z) (detail : string)
  | LoadError.

Definition png_filename (filename : string) (page_number : nat) : string :=
  filename +:+ "-" +:+ pretty (page_number + 1)%nat +:+ ".png".
Definition png_path (filename : string) (page_number : nat) : string :=
  "/tmp/" +:+ png_filename filename page_number.
Definition s3_bucket_png_path (filename : string) (page_number : nat) : string :=
  "pngs/" +:+ png_filename filename page_number.

Section Endpoint.

(** [config.bucket_name]; [load_pdf_from_aws], giving the [page_count] of the
    document or raising ([None]); and whether a call raises, given the calls
    made before it. *)
Variable bucket_name : string.
Variable load_pdf_from_aws : string -> option nat.
Variable raises : list effect -> effect -> bool.

Definition png_url (filename : string) (page_number : nat) : string :=
  "https://" +:+ bucket_name +:+ ".s3.amazonaws.com/" +:+ s3_bucket_png_path filename page_number.

(** A call made inside the [try]: it raises, or joins the calls made. *)
Definition perform (c : effect) (done : list effect) : option (list effect) :=
  if raises done c then None else Some (done ++ [c]).

(** The calls of one turn of the loop, in order; at the first that raises
    the turn ends with the calls made so far. *)
Fixpoint perform_all (cs : list effect) (done : list effect) : bool * list effect :=
  match cs with
  | [] => (true, done)
  | c :: rest =>
      match perform c done with
      | Some done' => perform_all rest done'
      | None => (false, done)
      end
  end.

Definition page_calls (filename : string) (page_number : nat) : list effect :=
  [load_page page_number; get_pixmap page_number;
   save (png_path filename page_number);
   upload_file_to_s3 (png_path filename page_number) (s3_bucket_png_path filename page_number);
   os_remove (png_path filename page_number)].

(** The [for page_number in range(pdf_document.page_count)] loop; [None]
    when a call raised. *)
Fixpoint convert_pages (filename : string) (page_numbers : list nat)
    (png_urls : list string) (done : list effect) : option (list string) * list effect :=
  match page_numbers with
  | [] => (Some png_urls, done)
  | page_number :: rest =>
      match perform_all (page_calls filename page_number) done with
      | (true, done') =>
          convert_pages filename rest (png_urls ++ [png_url filename page_number]) done'
      | (false, done') => (None, done')
      end
  end.

(** [create_pngs]: the answer and the calls made. *)
Definition create_pngs (aws_filename : string) (done : list effect)
  : response * list effect :=
  if String.eqb aws_filename "" then
    (HTTPException 400
       "Invalid request. 'filename' parameter is required and must be a string.", done)
  else if negb (endswith aws_filename ".pdf") then
    (HTTPException 400 "Invalid request. The filename must end with '.pdf'.", done)
  else if negb (startswith aws_filename "pdfs/") then
    (HTTPException 400 "Invalid request. The filename must start with 'pdfs/'.", done)
  else
    let filename := filename_of aws_filename in
    match load_pdf_from_aws aws_filename with
    | None => (LoadError, done)
    | Some page_count =>
        match convert_pages filename (seq 0 page_count) [] done with
        | (Some png_urls, done') => (PNGResponse png_urls, done')
        | (None, done') =>
            (HTTPException 500 "An error occurred while processing the PDF.", done')
        end
    end.

End Endpoint.

(** A bucket in which every document has two pages and no call raises, and
    one in which the upload of the second page raises. *)
Definition two_pages (aws_filename : string) : option nat := Some 2%nat.
Definition never_raises (done : list effect) (c : effect) : bool := false.
Definition second_upload_raises (done : list effect) (c : effect) : bool :=
  match c with
  | upload_file_to_s3 _ key => String.eqb key "pngs/10012-2.png"
  | _ => false
  end.

End CreatePngs.

(** ** layer.py, and the JSON reader of predictions.py *)

Module Ingestion.

(** JSON values as [json.load] gives them; the entries of a dict have
    distinct keys. *)
#[warnings="-register-all"]
Inductive json : Type :=
  | JNull
  | JBool (b : bool)
  | JNumber (q : Qc)
  | JString (s : string)
  | JList (items : list json)
  | JDict (entries : list (string * json)).

(** What the readers raise: [TypeError], [UnboundLocalError], or one of the
    exceptions of [exn]. *)
Inductive error : Type :=
  | TypeError
  | UnboundLocalError
  | Builtin (e : exn).

#[global] Instance error_bind : MBind (sum error) :=
  fun A B f x => match x with inl e => inl e | inr a => f a end.
#[global] Instance error_ret : MRet (sum error) := fun A a => inr a.

Definition lookup_key (key : string) (entries : list (string * json)) : option json :=
  snd <$> List.find (fun entry => String.eqb (fst entry) key) entries.

(** [v[key]] for a string key: [KeyError] on a dict without the key,
    [TypeError] on anything that is not a dict. *)
Definition getitem (v : json) (key : string) : error + json :=
  match v with
  | JDict entries =>
      match lookup_key key entries with
      | Some x => inr x
      | None => inl (Builtin KeyError)
      end
  | _ => inl TypeError
  end.

(** [v.get(key)] and [v.get(key, default)]: [AttributeError] on anything
    that is not a dict. *)
Definition get_ (v : json) (key : string) (default : json) : error + json :=
  match v with
  | JDict entries => inr (from_option (fun x => x) default (lookup_key key entries))
  | _ => inl (Builtin AttributeError)
  end.

(** [needle in s] on strings. *)
Fixpoint is_substring (needle s : string) : bool :=
  String.prefix needle s
  || match s with
     | EmptyString => false
     | String _ rest => is_substring needle rest
     end.

(** [key in v] for a string key: a key of a dict, an element of a list, a
    substring of a string; [TypeError] on [None], a number or a boolean. *)
Definition contains (v : json) (key : string) : error + bool :=
  match v with
  | JDict entries => inr (bool_decide (is_Some (lookup_key key entries)))
  | JList items =>
      inr (existsb (fun item => match item with
                                | JString s => String.eqb s key
                                | _ => false
                                end) items)
  | JString s => inr (is_substring key s)
  | _ => inl TypeError
  end.

(** What [for x in v] goes through: the items of a list, the keys of a
    dict, the characters of a string; [TypeError] otherwise. *)
Definition iterate (v : json) : error + list json :=
  match v with
  | JList items => inr items
  | JDict entries => inr (map (fun entry => JString (fst entry)) entries)
  | JString s =>
      inr (map (fun c => JString (String c EmptyString)) (String.list_ascii_of_string s))
  | _ => inl TypeError
  end.

(** The keyword arguments a call takes from a mapping [v] (the double-star
    form): [TypeError] unless [v] is a dict. *)
Definition keywords (v : json) : error + list (string * json) :=
  match v with
  | JDict entries => inr entries
  | _ => inl TypeError
  end.

Definition is_none (v : json) : bool :=
  match v with JNull => true | _ => false end.

Section Readers.

(** The constructors defined outside the sources, each returning or
    raising: [TextWord] and [GroundwaterInformation] on keyword arguments,
    [fitz.Rect(x)] and [Coordinate.from_json(x)]; and the values [uuid.uuid4()] takes, in
    the order they are drawn. *)
Variable Word Rect : Type.
Variable TextWord : list (string * json) -> error + Word.
Variable fitz_Rect : json -> error + Rect.
Variable Coordinate_from_json : json -> error + Metadata.Coordinate.
Variable new_GroundwaterInformation :
  list (string * json) -> error + Metadata.GroundwaterInformation.
Variable uuid4 : nat -> N.

(** Modelled from the spec: [TextLine] and [TextBlock] of
    [stratigraphy.lines.line] and [stratigraphy.text.textblock]: a line
    holds its words, a block its lines. *)
Record TextLine : Type := mkTextLine { words : list Word }.
Record TextBlock : Type := mkTextBlock { lines : list TextLine }.

(** Modelled from the spec: [DepthColumnEntry] of
    [stratigraphy.depthcolumn.depthcolumnentry] and [BoundaryInterval] of
    [stratigraphy.util.interval], holding what they are built from. *)
Record DepthColumnEntry : Type := mkDepthColumnEntry {
  value : json;
  rect : Rect;
  page_number : json
}.
Record BoundaryInterval : Type := mkBoundaryInterval {
  start : option DepthColumnEntry;
  end_ : option DepthColumnEntry
}.

(** [class LayerPrediction] *)
Record LayerPrediction : Type := mkLayerPrediction {
  material_description : TextBlock;
  depth_interval : option BoundaryInterval;
  material_is_correct : option bool;
  depth_interval_is_correct : option bool;
  id : N
}.

(** [class FilePredictions], as [__init__] sets it. *)
Record FilePredictions : Type := mkFilePredictions {
  layers : list LayerPrediction;
  depths_materials_columns_pairs : list json;
  file_name : string;
  language : json;
  metadata : Metadata.BoreholeMetaData;
  metadata_is_correct : gmap string (option bool);
  page_sizes : list json
}.

(** [_create_textblock_object] *)
Definition _create_textblock_object (lines : json) : error + TextBlock :=
  items ← iterate lines;
  text_lines ← mapM (fun line =>
                       kw ← keywords line;
                       word ← TextWord kw;
                       mret (mkTextLine [word])) items;
  mret (mkTextBlock text_lines).

(** [_create_textblock_object(layer["material_description"]["lines"])] *)
Definition material_of (layer : json) : error + TextBlock :=
  description ← getitem layer "material_description";
  lines ← getitem description "lines";
  _create_textblock_object lines.

(** [DepthColumnEntry(value=data["value"], rect=fitz.Rect(data["rect"]),
    page_number=data["page"])] *)
Definition entry_of (data : json) : error + DepthColumnEntry :=
  value ← getitem data "value";
  corners ← getitem data "rect";
  rect ← fitz_Rect corners;
  page ← getitem data "page";
  mret (mkDepthColumnEntry value rect page).

(** One turn of the loop of [LayerPrediction.from_json]; [k] counts the
    layers built before. *)
Definition from_json_layer (k : nat) (layer : json) : error + LayerPrediction :=
  material_prediction ← material_of layer;
  present ← contains layer "depth_interval";
  with_interval ←
    (if present : bool then
       found ← getitem layer "depth_interval"; mret (negb (is_none found))
     else mret false);
  if with_interval : bool then
    depth_interval ← get_ layer "depth_interval" (JDict []);
    start_data ← get_ depth_interval "start" JNull;
    end_data ← get_ depth_interval "end" JNull;
    start ← (if is_none start_data then mret None
             else entry ← entry_of start_data; mret (Some entry));
    end_ ← (if is_none end_data then mret None
            else entry ← entry_of end_data; mret (Some entry));
    let depth_interval_prediction := mkBoundaryInterval start end_ in
    mret (mkLayerPrediction material_prediction (Some depth_interval_prediction)
            None None (uuid4 k))
  else
    mret (mkLayerPrediction material_prediction None None None (uuid4 k)).

Fixpoint from_json_loop (k : nat) (items : list json) : error + list LayerPrediction :=
  match items with
  | [] => mret []
  | layer :: rest =>
      layer_predictions ← from_json_layer k layer;
      others ← from_json_loop (S k) rest;
      mret (layer_predictions :: others)
  end.

(** [LayerPrediction.from_json] *)
Definition from_json (json_layer_list : json) : error + list LayerPrediction :=
  items ← iterate json_layer_list;
  from_json_loop 0 items.

(** [layer["depth_interval"][which][field]], as [create_from_json] reads
    each field of an entry. *)
Definition read_field (layer : json) (which field : string) : error + json :=
  interval ← getitem layer "depth_interval";
  data ← getitem interval which;
  getitem data field.

(** The [start] and the [end] of [create_from_json]: the conditional is
    decided on [layer["depth_interval"][which]]. *)
Definition entry_at (layer : json) (which : string) : error + option DepthColumnEntry :=
  interval ← getitem layer "depth_interval";
  data ← getitem interval which;
  if is_none data then mret None
  else
    value ← read_field layer which "value";
    corners ← read_field layer which "rect";
    rect ← fitz_Rect corners;
    page ← read_field layer which "page";
    mret (Some (mkDepthColumnEntry value rect page)).

(** One turn of the [for layer in predictions_for_file["layers"]] loop of
    [create_from_json]. *)
Definition create_layer (k : nat) (layer : json) : error + LayerPrediction :=
  material_prediction ← material_of layer;
  present ← contains layer "depth_interval";
  if present : bool then
    start ← entry_at layer "start";
    end_ ← entry_at layer "end";
    let depth_interval_prediction := mkBoundaryInterval start end_ in
    mret (mkLayerPrediction material_prediction (Some depth_interval_prediction)
            None None (uuid4 k))
  else
    mret (mkLayerPrediction material_prediction None None None (uuid4 k)).

Fixpoint create_layers (k : nat) (items : list json) : error + list LayerPrediction :=
  match items with
  | [] => mret []
  | layer :: rest =>
      layer_predictions ← create_layer k layer;
      others ← create_layers (S k) rest;
      mret (layer_predictions :: others)
  end.

(** [FilePredictions.create_from_json].  A local that is read before any
    branch has bound it raises [UnboundLocalError]. *)
Definition create_from_json (predictions_for_file : json) (file_name : string)
  : error + FilePredictions :=
  file_language ← getitem predictions_for_file "language";
  metadata ← getitem predictions_for_file "metadata";
  has_coordinates ← contains metadata "coordinates";
  coordinates ←
    (if has_coordinates : bool then
       found ← getitem metadata "coordinates";
       if is_none found then mret None
       else
         found ← getitem metadata "coordinates";
         coordinate ← Coordinate_from_json found;
         mret (Some coordinate)
     else mret None);
  has_groundwater ← contains metadata "groundwater_information";
  bound ←
    (if has_groundwater : bool then
       found ← getitem metadata "groundwater_information";
       if is_none found then mret (Some None)
       else
         found ← getitem metadata "groundwater_information";
         kw ← keywords found;
         groundwater ← new_GroundwaterInformation kw;
         mret (Some (Some groundwater))
     else mret None);
  groundwater_information ←
    match bound with
    | Some groundwater_information => mret groundwater_information
    | None => inl UnboundLocalError
    end;
  let file_metadata := Metadata.mkBoreholeMetaData coordinates groundwater_information in
  layers_json ← getitem predictions_for_file "layers";
  items ← iterate layers_json;
  page_layer_predictions_list ← create_layers 0 items;
  has_pairs ← contains predictions_for_file "depths_materials_column_pairs";
  depths_materials_columns_pairs_list ←
    (if has_pairs : bool then
       pairs ← getitem predictions_for_file "depths_materials_column_pairs";
       iterate pairs
     else mret []);
  dimensions ← getitem predictions_for_file "page_dimensions";
  pages_dimensions_list ← iterate dimensions;
  mret (mkFilePredictions page_layer_predictions_list depths_materials_columns_pairs_list
          file_name file_language file_metadata ∅ pages_dimensions_list).

End Readers.

(** Constructors for the examples: a word is its keyword arguments, a
    rectangle its JSON value, coordinates and groundwater are fixed, and the
    ids are the numbers of the layers. *)
Definition plain_word (kw : list (string * json)) : error + list (string * json) := inr kw.
Definition plain_rect (x : json) : error + json := inr x.
Definition fixed_coordinate (x : json) : error + Metadata.Coordinate :=
  inr Metadata.sample_coordinate.
Definition fixed_groundwater (kw : list (string * json))
  : error + Metadata.GroundwaterInformation := inr Metadata.reading_a.
Definition counted (k : nat) : N := N.of_nat k.

(** A layer with text "sand" and a [null] depth interval, and a file whose
    metadata have no ["groundwater_information"] key. *)
Definition sand_lines : json :=
  JDict [("lines", JList [JDict [("text", JString "sand")]])].
Definition null_interval_layer : json :=
  JDict [("material_description", sand_lines); ("depth_interval", JNull)].
Definition no_groundwater_file : json :=
  JDict [("language", JString "de");
         ("metadata", JDict [("coordinates", JNull)]);
         ("layers", JList []);
         ("page_dimensions", JList [])].

End Ingestion.

(** * Properties *)

(** ** Numeric helpers *)

Lemma Qltb_lt (a b : Q) : Qltb a b = true <-> (a < b)%Q.
Proof.
  unfold Qltb. rewrite negb_true_iff. split.
  - intros H. apply Qnot_le_lt. intros Hle.
    apply Qle_bool_iff in Hle. congruence.
  - intros H. destruct (Qle_bool b a) eqn:E; [|reflexivity].
    apply Qle_bool_iff in E. exfalso. apply (Qlt_not_le _ _ H E).
Qed.

Lemma Qltb_ge (a b : Q) : Qltb a b = false <-> (b <= a)%Q.
Proof.
  unfold Qltb. rewrite negb_false_iff. apply Qle_bool_iff.
Qed.

Lemma foldl_add_shift (xs : list Z) (a : Z) :
  foldl Z.add a xs = a + foldl Z.add 0 xs.
Proof.
  revert a. induction xs as [|x xs IH]; intros a; simpl.
  - lia.
  - rewrite (IH (a + x)), (IH (0 + x)). lia.
Qed.

Lemma py_sum_cons (x : Z) (xs : list Z) : py_sum (x :: xs) = x + py_sum xs.
Proof. unfold py_sum. simpl. rewrite foldl_add_shift. lia. Qed.

Lemma py_sum_nonneg (xs : list Z) : Forall (fun x => 0 <= x) xs -> 0 <= py_sum xs.
Proof.
  induction 1 as [|x xs Hx _ IH]; [unfold py_sum; simpl; lia|].
  rewrite py_sum_cons. lia.
Qed.


(** ** Metrics *)

Section MetricsFacts.
Import Evaluation.

Lemma precision_pos (m : Metrics) :
  0 < tp m + fp m -> precision m = (inject_Z (tp m) / inject_Z (tp m + fp m))%Q.
Proof. intros H. unfold precision. apply Z.ltb_lt in H. by rewrite H. Qed.

Lemma precision_zero (m : Metrics) : tp m + fp m <= 0 -> precision m = 0%Q.
Proof. intros H. unfold precision. apply Z.ltb_ge in H. by rewrite H. Qed.

Lemma recall_pos (m : Metrics) :
  0 < tp m + fn m -> recall m = (inject_Z (tp m) / inject_Z (tp m + fn m))%Q.
Proof. intros H. unfold recall. apply Z.ltb_lt in H. by rewrite H. Qed.

Lemma recall_zero (m : Metrics) : tp m + fn m <= 0 -> recall m = 0%Q.
Proof. intros H. unfold recall. apply Z.ltb_ge in H. by rewrite H. Qed.

Lemma ratio_nonneg (a b : Z) : 0 <= a -> 0 < b -> (0 <= inject_Z a / inject_Z b)%Q.
Proof.
  intros Ha Hb. apply Qle_shift_div_l.
  - change 0%Q with (inject_Z 0). by rewrite <- Zlt_Qlt.
  - rewrite Qmult_0_l. change 0%Q with (inject_Z 0). by rewrite <- Zle_Qle.
Qed.

Lemma precision_nonneg (m : Metrics) : is_count m -> (0 <= precision m)%Q.
Proof.
  intros (Ht & Hp & Hn). unfold precision.
  destruct (0 <? tp m + fp m) eqn:E; [|apply Qle_refl].
  apply Z.ltb_lt in E. by apply ratio_nonneg.
Qed.

Lemma recall_nonneg (m : Metrics) : is_count m -> (0 <= recall m)%Q.
Proof.
  intros (Ht & Hp & Hn). unfold recall.
  destruct (0 <? tp m + fn m) eqn:E; [|apply Qle_refl].
  apply Z.ltb_lt in E. by apply ratio_nonneg.
Qed.

Lemma f1_zero (m : Metrics) :
  is_count m -> (precision m + recall m == 0)%Q -> f1 m = 0%Q.
Proof.
  intros _ H. unfold f1. cbv zeta.
  destruct (Qltb 0 (precision m + recall m)) eqn:E; [|reflexivity].
  apply Qltb_lt in E. rewrite H in E. by apply Qlt_irrefl in E.
Qed.

Lemma f1_pos (m : Metrics) :
  is_count m -> ~ (precision m + recall m == 0)%Q ->
  f1 m = (2 * precision m * recall m / (precision m + recall m))%Q.
Proof.
  intros Hc H. unfold f1. cbv zeta.
  destruct (Qltb 0 (precision m + recall m)) eqn:E; [reflexivity|].
  apply Qltb_ge in E. exfalso. apply H.
  pose proof (precision_nonneg m Hc). pose proof (recall_nonneg m Hc).
  lra.
Qed.

Lemma from_metric_list_cons (m : Metrics) (l : list Metrics) :
  from_metric_list (m :: l) = metrics_add m (from_metric_list l).
Proof.
  unfold from_metric_list, metrics_add. simpl.
  by rewrite !py_sum_cons.
Qed.

Lemma from_metric_list_elementwise (l : list Metrics) :
  from_metric_list l = elementwise_sum l.
Proof.
  induction l as [|m l IH]; [reflexivity|].
  rewrite from_metric_list_cons, IH. reflexivity.
Qed.

Lemma from_metric_list_is_count (l : list Metrics) :
  Forall is_count l -> is_count (from_metric_list l).
Proof.
  intros H. unfold is_count, from_metric_list. simpl.
  repeat split; apply py_sum_nonneg; apply Forall_map;
    (eapply Forall_impl; [exact H|]); intros m (? & ? & ?); simpl; done.
Qed.

End MetricsFacts.

Section MetricsClaim.
Import Evaluation.

(** C3.  For counters [tp], [fp], [fn] (Python ints that count, hence not
    negative): precision is [tp/(tp+fp)], and [0] when [tp+fp = 0]; recall is
    [tp/(tp+fn)], and [0] when [tp+fn = 0]; F1 is [2PR/(P+R)], and [0] when
    [P+R = 0].  [from_metric_list] returns the element-wise sum of the
    counters, so its scores are those formulas at the summed counters and not
    a mean of the members' scores (the sample list separates the two).
    [Metrics(0,0,0)] scores 0 three times, [Metrics(3,1,1)] scores 0.75 three
    times, and the sample list sums to [Metrics(3,1,0)]. *)
Theorem metrics_scores_and_sum (m : Metrics) (l : list Metrics) :
  is_count m ->
  (* precision *)
  (tp m + fp m = 0 -> precision m = 0%Q) /\
  (tp m + fp m <> 0 -> precision m = (inject_Z (tp m) / inject_Z (tp m + fp m))%Q) /\
  (* recall *)
  (tp m + fn m = 0 -> recall m = 0%Q) /\
  (tp m + fn m <> 0 -> recall m = (inject_Z (tp m) / inject_Z (tp m + fn m))%Q) /\
  (* F1 *)
  ((precision m + recall m == 0)%Q -> f1 m = 0%Q) /\
  (~ (precision m + recall m == 0)%Q ->
     f1 m = (2 * precision m * recall m / (precision m + recall m))%Q) /\
  (* the sum *)
  from_metric_list l = elementwise_sum l /\
  tp (from_metric_list l) = foldr Z.add 0 (map tp l) /\
  fp (from_metric_list l) = foldr Z.add 0 (map fp l) /\
  fn (from_metric_list l) = foldr Z.add 0 (map fn l) /\
  (Forall is_count l -> is_count (from_metric_list l)) /\
  ~ (f1 (from_metric_list sample_metrics) == mean (map f1 sample_metrics))%Q /\
  (* the samples *)
  (precision (mkMetrics 0 0 0) == 0 /\ recall (mkMetrics 0 0 0) == 0 /\
   f1 (mkMetrics 0 0 0) == 0)%Q /\
  (precision (mkMetrics 3 1 1) == 3 # 4 /\ recall (mkMetrics 3 1 1) == 3 # 4 /\
   f1 (mkMetrics 3 1 1) == 3 # 4)%Q /\
  from_metric_list sample_metrics = mkMetrics 3 1 0.
Proof.
  intros Hc. pose proof Hc as (Ht & Hp & Hn).
  split; [intros H; apply precision_zero; lia|].
  split; [intros H; apply precision_pos; lia|].
  split; [intros H; apply recall_zero; lia|].
  split; [intros H; apply recall_pos; lia|].
  split; [by apply f1_zero|].
  split; [by apply f1_pos|].
  split; [apply from_metric_list_elementwise|].
  assert (Hsum : forall xs, py_sum xs = foldr Z.add 0 xs).
  { induction xs as [|x xs IH]; [reflexivity|].
    rewrite py_sum_cons, IH. reflexivity. }
  split; [apply Hsum|]. split; [apply Hsum|]. split; [apply Hsum|].
  split; [apply from_metric_list_is_count|].
  split; [vm_compute; discriminate|].
  repeat split; reflexivity.
Qed.

Lemma metrics_scores_and_sum_witness :
  is_count (mkMetrics 3 1 1) /\
  f1 (mkMetrics 3 1 1) =
    (2 * precision (mkMetrics 3 1 1) * recall (mkMetrics 3 1 1)
       / (precision (mkMetrics 3 1 1) + recall (mkMetrics 3 1 1)))%Q.
Proof.
  assert (Hc : is_count (mkMetrics 3 1 1)) by (unfold is_count; simpl; lia).
  split; [exact Hc|].
  apply (metrics_scores_and_sum (mkMetrics 3 1 1) sample_metrics Hc).
  vm_compute. discriminate.
Defined.

End MetricsClaim.

(** ** Document-level table *)

Section TableFacts.
Import Evaluation.

Lemma file_frame (b : FileBoreholeMetadataMetrics) :
  file_get_document_level_metrics b = mkDataFrame table_columns [file_row b].
Proof. reflexivity. Qed.

Lemma union_columns_from (acc : list string) (bs : list FileBoreholeMetadataMetrics) :
  acc = table_columns ->
  foldl (fun acc f => acc ++ filter (fun c => c ∉ acc) (remove_dups (columns f)))
        acc (map file_get_document_level_metrics bs) = table_columns.
Proof.
  intros ->. induction bs as [|b bs IH]; [reflexivity|].
  simpl. exact IH.
Qed.

Lemma union_columns_files (bs : list FileBoreholeMetadataMetrics) :
  bs <> [] -> union_columns (map file_get_document_level_metrics bs) = table_columns.
Proof.
  destruct bs as [|b bs]; [done|]. intros _.
  unfold union_columns. simpl. by apply union_columns_from.
Qed.

Lemma concat_file_rows (bs : list FileBoreholeMetadataMetrics) :
  concat (map (fun f => map (reindex_row table_columns f) (rows f))
              (map file_get_document_level_metrics bs)) = map file_row bs.
Proof.
  induction bs as [|b bs IH]; [reflexivity|].
  simpl. f_equal. exact IH.
Qed.

Lemma document_level_table (o : OverallBoreholeMetadataMetrics) :
  borehole_metadata_metrics o <> [] ->
  get_document_level_metrics o =
    Some (mkDataFrame table_columns (map file_row (borehole_metadata_metrics o))).
Proof.
  intros Hne. unfold get_document_level_metrics, pd_concat. cbv zeta.
  destruct (map file_get_document_level_metrics (borehole_metadata_metrics o)) eqn:E.
  - destruct (borehole_metadata_metrics o); [done|discriminate].
  - rewrite <- E. rewrite union_columns_files by done.
    by rewrite concat_file_rows.
Qed.

(** C6 as stated does not hold: the table of one file carries the labels
    [document_name], [elevation], [coordinate], not [elevation_f1] and
    [coordinate_f1]; and with no file appended there is no table at all
    ([pd.concat] of an empty list raises). *)
Lemma stated_table_fails :
  ~ stated_table (overall_append overall_init file_a) /\
  ~ stated_table overall_init.
Proof.
  split.
  - intros (df & Hdf & _ & Hcols & _).
    rewrite document_level_table in Hdf by done.
    injection Hdf as <-. simpl in Hcols.
    assert (Hin : "elevation_f1" ∈ table_columns).
    { rewrite Hcols. unfold stated_columns. set_solver. }
    unfold table_columns in Hin.
    repeat (apply elem_of_cons in Hin as [Hin|Hin]; [discriminate|]).
    by apply elem_of_nil in Hin.
  - intros (df & Hdf & _). discriminate.
Qed.

(** C6, amended.  With at least one per-file metrics appended,
    [get_document_level_metrics] returns a table of exactly [n] rows, the
    [i]-th row holding the [i]-th appended file's name, elevation F1 and
    coordinate F1, under the labels [document_name], [elevation],
    [coordinate]. *)
Theorem document_level_metrics_table (o : OverallBoreholeMetadataMetrics) :
  borehole_metadata_metrics o <> [] ->
  exists df, get_document_level_metrics o = Some df /\
    columns df = ["document_name"; "elevation"; "coordinate"] /\
    length (rows df) = length (borehole_metadata_metrics o) /\
    rows df = map file_row (borehole_metadata_metrics o) /\
    forall i (b : FileBoreholeMetadataMetrics), borehole_metadata_metrics o !! i = Some b ->
      rows df !! i =
        Some [CStr (filename b); CNum (f1 (elevation_metrics b));
              CNum (f1 (coordinates_metrics b))].
Proof.
  intros Hne. eexists. split; [by apply document_level_table|]. simpl.
  split; [reflexivity|]. split; [by rewrite length_map|]. split; [reflexivity|].
  intros i b Hb. by rewrite list_lookup_fmap, Hb.
Qed.

Lemma document_level_metrics_table_witness :
  borehole_metadata_metrics (overall_append (overall_append overall_init file_a) file_b) <> [] /\
  exists df,
    get_document_level_metrics (overall_append (overall_append overall_init file_a) file_b)
      = Some df /\
    rows df = [file_row file_a; file_row file_b].
Proof.
  assert (Hne : borehole_metadata_metrics
                  (overall_append (overall_append overall_init file_a) file_b) <> [])
    by (simpl; discriminate).
  split; [exact Hne|].
  destruct (document_level_metrics_table _ Hne) as (df & Hdf & _ & _ & Hrows & _).
  exists df. split; [exact Hdf|]. exact Hrows.
Defined.

End TableFacts.

(** ** Metadata evaluation *)

Lemma isclose_spec (a b tol : Q) :
  (0 <= tol)%Q ->
  isclose a b tol = true <->
  (Qabs (b - a) <= tol \/ Qabs (b - a) <= Qabs (rel_tol * b)
   \/ Qabs (b - a) <= Qabs (rel_tol * a))%Q.
Proof.
  intros Htol. unfold isclose. cbv zeta.
  rewrite !orb_true_iff, !Qle_bool_iff, Qeq_bool_iff. split.
  - intros [Heq|[[H|H]|H]]; [left|right; left|right; right|left]; try done.
    assert (Hz : (b - a == 0)%Q) by (rewrite Heq; ring).
    rewrite Hz. done.
  - intros [H|[H|H]]; right; [right|left; left|left; right]; done.
Qed.

Lemma Qabs_rel_tol_small (x : Q) :
  (Qabs x <= 2000000000)%Q -> (Qabs (rel_tol * x) <= 2)%Q.
Proof.
  intros H. rewrite Qabs_Qmult.
  change (Qabs rel_tol) with (1 # 1000000000)%Q.
  apply Qle_trans with ((1 # 1000000000) * 2000000000)%Q; [|by vm_compute].
  apply Qmult_le_l; [reflexivity|done].
Qed.

Lemma isclose_bounded (a b : Q) :
  (Qabs a <= 2000000000)%Q -> (Qabs b <= 2000000000)%Q ->
  isclose a b 2 = true <-> (Qabs (a - b) <= 2)%Q.
Proof.
  intros Ha Hb. rewrite isclose_spec by done.
  assert (Hsym : (Qabs (b - a) == Qabs (a - b))%Q).
  { rewrite <- Qabs_opp. apply Qabs_wd. ring. }
  rewrite !Hsym. split; [|tauto].
  intros [H|[H|H]]; [done| |].
  - eapply Qle_trans; [exact H|]. by apply Qabs_rel_tol_small.
  - eapply Qle_trans; [exact H|]. by apply Qabs_rel_tol_small.
Qed.

Section MetadataFacts.
Import Metadata.

Variable info_correct : GroundwaterInformation -> GroundwaterInformation -> bool.
Variable depth_correct : GroundwaterInformation -> option Q -> bool.
Variable elevation_correct : GroundwaterInformation -> option Q -> bool.
Variable date_correct : GroundwaterInformation -> option string -> bool.

Local Abbreviation evaluate_metadata' :=
  (evaluate_metadata info_correct depth_correct elevation_correct date_correct).
Local Abbreviation evaluate_groundwater' :=
  (evaluate_groundwater info_correct depth_correct elevation_correct date_correct).

Lemma evaluate_coordinates_store metadata gt st :
  evaluate_coordinates metadata gt st =
    Returned tt (mkEvalStore (<["coordinates" := coordinates_flag metadata gt]>
                                (metadata_is_correct st)) (warnings st)).
Proof.
  unfold evaluate_coordinates, coordinates_flag.
  destruct (coordinates metadata) as [c|]; [|reflexivity].
  destruct (gt ≫= gt_coordinates) as [[E N]|]; [|reflexivity].
  destruct (ground_truth_in_frame _ E N) as [ge gn]. simpl.
  destruct (isclose _ ge 2 && isclose _ gn 2); reflexivity.
Qed.

Lemma evaluate_groundwater_other file_name metadata gt st key :
  key <> "groundwater_information" -> key <> "groundwater_information_depth" ->
  key <> "groundwater_information_elevation" -> key <> "groundwater_information_date" ->
  metadata_is_correct (store_of (evaluate_groundwater' file_name metadata gt st)) !! key
  = metadata_is_correct st !! key.
Proof.
  intros H1 H2 H3 H4. unfold evaluate_groundwater.
  destruct (groundwater_information metadata) as [gw|];
    [destruct (gt ≫= gt_groundwater) as [[|first rest]|]|];
    try (destruct (1 <? length (first :: rest))%nat);
    cbn; rewrite ?lookup_insert_ne by done; reflexivity.
Qed.

Lemma evaluate_metadata_coordinates file_name metadata gt st :
  metadata_is_correct
    (store_of (evaluate_metadata' file_name (Some metadata) gt st)) !! "coordinates"
  = Some (coordinates_flag metadata gt).
Proof.
  unfold evaluate_metadata, bind. rewrite evaluate_coordinates_store.
  match goal with
  | |- metadata_is_correct (store_of ?o) !! _ = _ =>
      replace o with (evaluate_groundwater' file_name metadata gt
        (mkEvalStore (<["coordinates" := coordinates_flag metadata gt]>
                        (metadata_is_correct st)) (warnings st)))
  end.
  - rewrite evaluate_groundwater_other by done. simpl. apply lookup_insert_eq.
  - destruct (evaluate_groundwater' _ _ _ _); reflexivity.
Qed.

Lemma ground_truth_in_frame_cases (pe E N : Q) :
  ((2000000 < pe /\ E < 2000000)%Q ->
     ground_truth_in_frame pe E N
     = (inject_Z (py_int E) + 2000000, inject_Z (py_int N) + 1000000)%Q) /\
  ((pe < 2000000 /\ 2000000 < E)%Q ->
     ground_truth_in_frame pe E N
     = (inject_Z (py_int E) - 2000000, inject_Z (py_int N) - 1000000)%Q) /\
  (~ (2000000 < pe /\ E < 2000000)%Q -> ~ (pe < 2000000 /\ 2000000 < E)%Q ->
     ground_truth_in_frame pe E N = (inject_Z (py_int E), inject_Z (py_int N))).
Proof.
  unfold ground_truth_in_frame. repeat split.
  - intros [H1 H2]. apply Qltb_lt in H1, H2. by rewrite H1, H2.
  - intros [H1 H2].
    assert (Hn : Qltb 2000000 pe = false) by (apply Qltb_ge; lra).
    apply Qltb_lt in H1, H2. by rewrite Hn, H1, H2.
  - intros Hn1 Hn2.
    destruct (Qltb 2000000 pe && Qltb E 2000000) eqn:E1.
    { apply andb_true_iff in E1 as [H1 H2]. apply Qltb_lt in H1, H2. tauto. }
    destruct (Qltb pe 2000000 && Qltb 2000000 E) eqn:E2; [|reflexivity].
    apply andb_true_iff in E2 as [H1 H2]. apply Qltb_lt in H1, H2. tauto.
Qed.

(** C2, amended.  With coordinates on both sides, the ground truth is
    shifted by (+2,000,000, +1,000,000) when predicted east > 2,000,000 and
    ground-truth east < 2,000,000, by (-2,000,000, -1,000,000) in the reverse
    case, and not at all otherwise (its values truncated to integers first);
    the flag is [True] iff on both axes the truncated prediction and the
    reconciled ground truth are close as [math.isclose(abs_tol=2)] has it
    (within 2, or within 1e-9 of the magnitude of either value), and [False]
    otherwise.  Whenever the compared values have magnitude at most
    2,000,000,000 this is: [True] iff both axes agree within absolute
    tolerance 2.  The sample (2,600,000 / 1,200,000) against
    (600,000 / 200,000) is correct. *)
Theorem coordinates_reconciled_then_compared
    (file_name : string) (metadata : BoreholeMetaData) (gt : GroundTruthMetadata)
    (c : Coordinate) (E N : Q) (st : EvalStore) :
  coordinates metadata = Some c -> gt_coordinates gt = Some (E, N) ->
  let pe := coordinate_value (east c) in
  let pn := coordinate_value (north c) in
  let g := ground_truth_in_frame pe E N in
  let flag :=
    metadata_is_correct
      (store_of (evaluate_metadata' file_name (Some metadata) (Some gt) st)) !! "coordinates" in
  ((2000000 < pe /\ E < 2000000)%Q ->
     g = (inject_Z (py_int E) + 2000000, inject_Z (py_int N) + 1000000)%Q) /\
  ((pe < 2000000 /\ 2000000 < E)%Q ->
     g = (inject_Z (py_int E) - 2000000, inject_Z (py_int N) - 1000000)%Q) /\
  (~ (2000000 < pe /\ E < 2000000)%Q -> ~ (pe < 2000000 /\ 2000000 < E)%Q ->
     g = (inject_Z (py_int E), inject_Z (py_int N))) /\
  (flag = Some (Some true) \/ flag = Some (Some false)) /\
  (flag = Some (Some true) <->
     close_abs_two (inject_Z (py_int pe)) (fst g) /\
     close_abs_two (inject_Z (py_int pn)) (snd g)) /\
  ((Qabs (inject_Z (py_int pe)) <= 2000000000 /\ Qabs (fst g) <= 2000000000 /\
    Qabs (inject_Z (py_int pn)) <= 2000000000 /\ Qabs (snd g) <= 2000000000)%Q ->
     (flag = Some (Some true) <->
        within_two (inject_Z (py_int pe)) (fst g) /\
        within_two (inject_Z (py_int pn)) (snd g)) /\
     (flag = Some (Some false) <->
        ~ (within_two (inject_Z (py_int pe)) (fst g) /\
           within_two (inject_Z (py_int pn)) (snd g)))) /\
  metadata_is_correct
    (store_of (evaluate_metadata' file_name (Some sample_prediction)
                 (Some sample_ground_truth) st)) !! "coordinates" = Some (Some true).
Proof.
  intros Hc Hg pe pn g flag.
  assert (Hflag : flag = Some (Some
            (isclose (inject_Z (py_int pe)) (fst g) 2
             && isclose (inject_Z (py_int pn)) (snd g) 2))).
  { unfold flag. rewrite evaluate_metadata_coordinates.
    unfold coordinates_flag. simpl. by rewrite Hc, Hg. }
  destruct (ground_truth_in_frame_cases pe E N) as (F1 & F2 & F3).
  split; [exact F1|]. split; [exact F2|]. split; [exact F3|].
  split; [rewrite Hflag; destruct (_ && _); auto|].
  split.
  { rewrite Hflag. unfold close_abs_two.
    rewrite <- !isclose_spec by done. rewrite <- andb_true_iff.
    split; [by intros [= ->]|by intros ->]. }
  split.
  { intros (B1 & B2 & B3 & B4). rewrite Hflag. unfold within_two.
    pose proof (isclose_bounded _ _ B1 B2) as I1.
    pose proof (isclose_bounded _ _ B3 B4) as I2.
    rewrite <- I1, <- I2.
    destruct (isclose (inject_Z (py_int pe)) (fst g) 2);
      destruct (isclose (inject_Z (py_int pn)) (snd g) 2); simpl;
      intuition congruence. }
  rewrite evaluate_metadata_coordinates. reflexivity.
Qed.

(** What the code keeps of the null rule.  With [self.metadata] present:
    when the coordinates attribute is [None], or the ground truth is [None]
    or has no (or a null) ["coordinates"], the coordinates flag is recorded
    as [None]; when the groundwater attribute is [None], or the ground truth
    is [None] or has no (or a null) ["groundwater"], the call returns and the
    four groundwater flags are recorded as [None].  [None] is not
    [False]. *)
Theorem undetermined_metadata_is_null
    (file_name : string) (metadata : BoreholeMetaData)
    (gt : option GroundTruthMetadata) (st : EvalStore) :
  let o := evaluate_metadata' file_name (Some metadata) gt st in
  (coordinates metadata = None \/ gt ≫= gt_coordinates = None ->
     metadata_is_correct (store_of o) !! "coordinates" = Some None) /\
  (groundwater_information metadata = None \/ gt ≫= gt_groundwater = None ->
     returns o /\
     metadata_is_correct (store_of o) !! "groundwater_information" = Some None /\
     metadata_is_correct (store_of o) !! "groundwater_information_depth" = Some None /\
     metadata_is_correct (store_of o) !! "groundwater_information_elevation" = Some None /\
     metadata_is_correct (store_of o) !! "groundwater_information_date" = Some None) /\
  Some (@None bool) <> Some (Some false).
Proof.
  intros o. split; [|split; [|done]].
  - intros H. unfold o. rewrite evaluate_metadata_coordinates. f_equal.
    unfold coordinates_flag. destruct H as [-> | ->]; [done|].
    by destruct (coordinates metadata).
  - intros H. unfold o, evaluate_metadata, bind.
    rewrite evaluate_coordinates_store. unfold evaluate_groundwater.
    assert (Hgw : match groundwater_information metadata, gt ≫= gt_groundwater with
                  | Some _, Some _ => False
                  | _, _ => True
                  end).
    { destruct H as [-> | ->]; [done|]. by destruct (groundwater_information metadata). }
    destruct (groundwater_information metadata) as [gw|];
      [destruct (gt ≫= gt_groundwater) as [l|]; [done|]|];
      cbn; repeat split; by simplify_map_eq.
Qed.

(** C9.  With groundwater data on both sides and more than one ground-truth
    entry, [evaluate_metadata] returns (it does not raise), logs the warning
    once, and computes the four flags against the first entry. *)
Theorem multiple_groundwater_uses_first
    (file_name : string) (metadata : BoreholeMetaData) (gt : GroundTruthMetadata)
    (extracted : GroundwaterInformation) (entries : list GroundwaterInformation)
    (first : GroundwaterInformation) (st : EvalStore) :
  groundwater_information metadata = Some extracted ->
  gt_groundwater gt = Some entries ->
  (1 < length entries)%nat ->
  entries !! 0%nat = Some first ->
  let o := evaluate_metadata' file_name (Some metadata) (Some gt) st in
  returns o /\
  warnings (store_of o) = warnings st ++ [multiple_groundwater_warning file_name] /\
  metadata_is_correct (store_of o) !! "groundwater_information"
    = Some (Some (info_correct first extracted)) /\
  metadata_is_correct (store_of o) !! "groundwater_information_depth"
    = Some (Some (depth_correct first (depth extracted))) /\
  metadata_is_correct (store_of o) !! "groundwater_information_elevation"
    = Some (Some (elevation_correct first (elevation extracted))) /\
  metadata_is_correct (store_of o) !! "groundwater_information_date"
    = Some (Some (date_correct first (date extracted))).
Proof.
  intros Hgw Hgt Hlen Hfirst o. unfold o, evaluate_metadata, bind.
  rewrite evaluate_coordinates_store. unfold evaluate_groundwater. simpl.
  rewrite Hgw, Hgt.
  destruct entries as [|e1 [|e2 rest]]; simpl in Hlen; try lia.
  injection Hfirst as ->.
  cbn. repeat split; by simplify_map_eq.
Qed.

End MetadataFacts.

Section MetadataExamples.
Import Metadata.

Lemma coordinates_reconciled_then_compared_witness :
  coordinates sample_prediction = Some sample_coordinate /\
  gt_coordinates sample_ground_truth = Some (600000, 200000)%Q /\
  metadata_is_correct
    (store_of (evaluate_metadata_by_equality "a.pdf" (Some sample_prediction)
                 (Some sample_ground_truth) empty_store)) !! "coordinates"
  = Some (Some true).
Proof.
  split; [reflexivity|]. split; [reflexivity|].
  apply (coordinates_reconciled_then_compared same_information same_depth same_elevation same_day
           "a.pdf" sample_prediction sample_ground_truth sample_coordinate
           600000 200000 empty_store eq_refl eq_refl).
Defined.

(** C2 as stated does not hold: predicted east 8,000,000,000 against
    ground-truth east 8,000,000,005 (north equal, no shift applies) differ by
    5, and [math.isclose] accepts them through its default relative
    tolerance, so the flag is [True]. *)
Lemma stated_coordinates_rule_fails :
  ~ stated_coordinates_rule far_coordinate 8000000005 1200000
      (metadata_is_correct
         (store_of (evaluate_metadata_by_equality "a.pdf" (Some far_prediction)
                      (Some far_ground_truth) empty_store)) !! "coordinates").
Proof.
  intros [_ H].
  assert (Hflag : metadata_is_correct
            (store_of (evaluate_metadata_by_equality "a.pdf" (Some far_prediction)
                         (Some far_ground_truth) empty_store)) !! "coordinates"
          = Some (Some true)) by (by vm_compute).
  rewrite Hflag in H.
  assert (Hfar : Some (Some true) = Some (Some false)); [|discriminate].
  apply H. intros [H1 _]. vm_compute in H1. by apply H1.
Qed.

Lemma undetermined_metadata_is_null_witness :
  coordinates (mkBoreholeMetaData None None) = None /\
  metadata_is_correct
    (store_of (evaluate_metadata_by_equality "a.pdf" (Some (mkBoreholeMetaData None None))
                 None empty_store))
    !! "coordinates" = Some None.
Proof.
  split; [reflexivity|].
  apply (undetermined_metadata_is_null same_information same_depth same_elevation same_day
           "a.pdf" (mkBoreholeMetaData None None) None empty_store).
  left. reflexivity.
Defined.

(** C8 at inputs the code fails on.  A [FilePredictions] built without
    metadata has [self.metadata = None], the default of [__init__]: the
    prediction lacks coordinates and groundwater data, and [evaluate_metadata]
    raises [AttributeError] at its first read of [self.metadata.coordinates];
    no key is recorded, where the claim has the flags recorded as null.  And
    for a prediction with groundwater data against a ground truth whose
    groundwater list is empty, it raises [IndexError] once the coordinates
    flag is recorded: the four groundwater keys are not. *)
Theorem absent_metadata_raises :
  evaluate_metadata_by_equality "a.pdf" None (Some sample_ground_truth) empty_store
  = Raised AttributeError empty_store /\
  metadata_is_correct empty_store !! "coordinates" = None /\
  exists st,
    evaluate_metadata_by_equality "a.pdf" (Some wet_prediction)
      (Some (mkGroundTruthMetadata None (Some []))) empty_store
    = Raised IndexError st /\
    metadata_is_correct st !! "coordinates" = Some None /\
    metadata_is_correct st !! "groundwater_information" = None /\
    metadata_is_correct st !! "groundwater_information_depth" = None /\
    metadata_is_correct st !! "groundwater_information_elevation" = None /\
    metadata_is_correct st !! "groundwater_information_date" = None.
Proof.
  split; [reflexivity|]. split; [reflexivity|].
  exists (store_of (evaluate_metadata_by_equality "a.pdf" (Some wet_prediction)
                      (Some (mkGroundTruthMetadata None (Some []))) empty_store)).
  repeat split; vm_compute; reflexivity.
Qed.

Lemma multiple_groundwater_uses_first_witness :
  groundwater_information wet_prediction = Some reading_a /\
  gt_groundwater wet_ground_truth = Some [reading_a; reading_b] /\
  (1 < length [reading_a; reading_b])%nat /\
  [reading_a; reading_b] !! 0%nat = Some reading_a /\
  returns (evaluate_metadata_by_equality "a.pdf" (Some wet_prediction)
             (Some wet_ground_truth) empty_store).
Proof.
  split; [reflexivity|]. split; [reflexivity|]. split; [simpl; lia|].
  split; [reflexivity|].
  apply (multiple_groundwater_uses_first same_information same_depth same_elevation same_day
           "a.pdf" wet_prediction wet_ground_truth reading_a [reading_a; reading_b]
           reading_a empty_store eq_refl eq_refl); [simpl; lia|reflexivity].
Defined.

End MetadataExamples.

(** ** Layer matching *)

Lemma remove_first_perm {A} `{EqDecision A} (x : A) (xs : list A) :
  x ∈ xs -> exists xs', remove_first x xs = Some xs' /\ xs ≡ₚ x :: xs'.
Proof.
  induction xs as [|y ys IH]; intros Hin; [by apply elem_of_nil in Hin|].
  simpl. destruct (decide (y = x)) as [->|Hne].
  - by exists ys.
  - apply elem_of_cons in Hin as [Heq|Hin]; [congruence|].
    destruct (IH Hin) as (ys' & -> & Hp). exists (y :: ys'). split; [done|].
    rewrite Hp. apply Permutation_swap.
Qed.

Lemma remove_first_Some_perm {A} `{EqDecision A} (x : A) (xs xs' : list A) :
  remove_first x xs = Some xs' -> xs ≡ₚ x :: xs'.
Proof.
  revert xs'. induction xs as [|y ys IH]; intros xs'; [done|].
  simpl. destruct (decide (y = x)) as [->|Hne].
  - by intros [= ->].
  - destruct (remove_first x ys) as [ys'|]; [|done]. intros [= <-].
    rewrite (IH ys' eq_refl). apply Permutation_swap.
Qed.

Lemma list_remove_elem {A} `{EqDecision A} (x : A) (xs : list A) :
  x ∈ xs -> exists xs', list_remove x xs = Returned tt xs' /\ remove_first x xs = Some xs'.
Proof.
  intros Hin. destruct (remove_first_perm x xs Hin) as (xs' & Hr & _).
  exists xs'. unfold list_remove. by rewrite Hr.
Qed.

Lemma foldl_max_spec {A} (key : A -> Q) (rest : list A) (x : A) :
  let m := foldl (fun best y => if Qltb (key best) (key y) then y else best) x rest in
  m ∈ x :: rest /\ forall y, y ∈ x :: rest -> (key y <= key m)%Q.
Proof.
  revert x. induction rest as [|z rest IH]; intros x; simpl.
  - split; [by apply elem_of_cons; left|].
    intros y Hy. apply list_elem_of_singleton in Hy as ->. apply Qle_refl.
  - destruct (Qltb (key x) (key z)) eqn:E.
    + destruct (IH z) as [Hin Hmax]. split.
      * apply elem_of_cons. by right.
      * intros y Hy. apply elem_of_cons in Hy as [->|Hy]; [|by apply Hmax].
        apply Qltb_lt in E. apply Qle_trans with (key z); [by apply Qlt_le_weak|].
        apply Hmax. apply elem_of_cons. by left.
    + destruct (IH x) as [Hin Hmax]. split.
      * apply elem_of_cons in Hin as [->|Hin]; [apply elem_of_cons; by left|].
        apply elem_of_cons. right. apply elem_of_cons. by right.
      * intros y Hy. apply elem_of_cons in Hy as [->|Hy];
          [apply Hmax; apply elem_of_cons; by left|].
        apply elem_of_cons in Hy as [->|Hy].
        -- apply Qltb_ge in E. apply Qle_trans with (key x); [done|].
           apply Hmax. apply elem_of_cons. by left.
        -- apply Hmax. apply elem_of_cons. by right.
Qed.

Lemma py_max_spec {S A} (key : A -> Q) (xs : list A) (s : S) :
  xs <> [] ->
  exists m, py_max key xs s = Returned m s /\ m ∈ xs /\
            forall y, y ∈ xs -> (key y <= key m)%Q.
Proof.
  destruct xs as [|x rest]; [done|]. intros _. simpl.
  eexists. split; [reflexivity|]. apply foldl_max_spec.
Qed.

Lemma elem_of_filter_bool {A} (f : A -> bool) (l : list A) (x : A) :
  x ∈ List.filter f l <-> x ∈ l /\ f x = true.
Proof. rewrite !list_elem_of_In. apply filter_In. Qed.

Section MatchingFacts.
Import Matching.

Variable parse_text : string -> string.
Variable ratio : string -> string -> Q.

Local Abbreviation find' := (_find_matching_layer parse_text ratio).
Local Abbreviation is_candidate' := (is_candidate parse_text ratio).
Local Abbreviation candidates' := (candidates parse_text ratio).
Local Abbreviation faults' := (faults parse_text ratio).

Lemma exact_depth_match_inv (layer : LayerPrediction) (g : GroundTruthLayer)
    (s e : option DepthColumnEntry) :
  depth_interval layer = Some (mkBoundaryInterval s e) ->
  exact_depth_match layer g <->
  (gt_start g = Some 0%Qc /\ s = None /\ exists e', e = Some e' /\ gt_end g = Some (value e'))
  \/ (exists s' e', s = Some s' /\ e = Some e' /\
        gt_start g = Some (value s') /\ gt_end g = Some (value e')).
Proof.
  intros Hdi. unfold exact_depth_match. rewrite Hdi. split.
  - intros (i & [= <-] & H). exact H.
  - intros H. eexists. split; [reflexivity|]. exact H.
Qed.

Lemma no_interval_no_exact (layer : LayerPrediction) (g : GroundTruthLayer) :
  depth_interval layer = None -> ~ exact_depth_match layer g.
Proof. intros Hdi (i & Hi & _). congruence. Qed.

Lemma open_interval_inv (layer : LayerPrediction) (s e : option DepthColumnEntry) :
  depth_interval layer = Some (mkBoundaryInterval s e) ->
  open_interval layer <-> s = None /\ e = None.
Proof.
  intros Hdi. unfold open_interval. rewrite Hdi. split.
  - intros (i & [= <-] & H). exact H.
  - intros H. eexists. split; [reflexivity|]. exact H.
Qed.

Lemma loop_outcome_skip layer g rest pool o :
  ~ exact_depth_match layer g ->
  ~ (open_interval layer /\ gt_start g = Some 0%Qc) ->
  loop_outcome layer rest pool o -> loop_outcome layer (g :: rest) pool o.
Proof.
  intros Hne Hno. destruct o as [[m|] pool'|e pool']; simpl.
  - intros ((l1 & l2 & -> & Hl1) & Hex & Hrm). split; [|done].
    exists (g :: l1), l2. split; [done|].
    intros g' Hg'. apply elem_of_cons in Hg' as [->|Hg']; [done|by apply Hl1].
  - intros (-> & Hall & Hnf). split; [done|]. split.
    + intros g' Hg'. apply elem_of_cons in Hg' as [->|Hg']; [done|by apply Hall].
    + intros (Hop & g' & Hg' & Hz). apply elem_of_cons in Hg' as [->|Hg'].
      * by apply Hno.
      * apply Hnf. split; [done|]. by exists g'.
  - intros (-> & -> & Hop & g' & Hg' & Hz). repeat split; try done.
    exists g'. split; [|done]. apply elem_of_cons. by right.
Qed.

Lemma loop_outcome_hit layer g rest pool :
  g ∈ pool -> exact_depth_match layer g ->
  loop_outcome layer (g :: rest) pool
    ((list_remove g ;;; ret (Some g)) pool).
Proof.
  intros Hin Hex. destruct (list_remove_elem g pool Hin) as (pool' & Hr & Hrm).
  unfold bind. rewrite Hr. simpl. split; [|done].
  exists [], rest. split; [done|]. intros g' Hg'. by apply elem_of_nil in Hg'.
Qed.

Lemma first_exact_match_outcome layer cands pool :
  (forall g, g ∈ cands -> g ∈ pool) ->
  loop_outcome layer cands pool (first_exact_match layer cands pool).
Proof.
  intros Hsub. induction cands as [|g rest IH].
  - simpl. split; [done|]. split.
    + intros g Hg. by apply elem_of_nil in Hg.
    + intros (_ & g & Hg & _). by apply elem_of_nil in Hg.
  - assert (Hg : g ∈ pool) by (apply Hsub, elem_of_cons; by left).
    assert (IH' : loop_outcome layer rest pool (first_exact_match layer rest pool)).
    { apply IH. intros g' Hg'. apply Hsub, elem_of_cons. by right. }
    clear IH. simpl.
    destruct (depth_interval layer) as [[s e]|] eqn:Hdi.
    + pose proof (exact_depth_match_inv layer g s e Hdi) as Hex.
      pose proof (open_interval_inv layer s e Hdi) as Hop.
      simpl. unfold equals_number.
      destruct s as [s'|], e as [e'|]; simpl.
      * rewrite andb_false_r. unfold bind at 1. simpl.
        destruct (bool_decide (gt_start g = Some (value s'))) eqn:E1; simpl;
          [destruct (bool_decide (gt_end g = Some (value e'))) eqn:E2; simpl|].
        -- apply bool_decide_eq_true in E1, E2.
           apply loop_outcome_hit; [done|]. apply Hex. right. by exists s', e'.
        -- apply bool_decide_eq_false in E2.
           apply loop_outcome_skip; [| |done].
           ++ rewrite Hex. intros [(_ & ? & _)|(s0 & e0 & _ & [= <-] & _ & ?)]; done.
           ++ rewrite Hop. intros [[? _] _]; done.
        -- apply bool_decide_eq_false in E1.
           apply loop_outcome_skip; [| |done].
           ++ rewrite Hex. intros [(_ & ? & _)|(s0 & e0 & [= <-] & _ & ? & _)]; done.
           ++ rewrite Hop. intros [[? _] _]; done.
      * rewrite andb_false_r. unfold bind at 1. simpl.
        apply loop_outcome_skip; [| |done].
        -- rewrite Hex. intros [(_ & ? & _)|(s0 & e0 & _ & ? & _)]; done.
        -- rewrite Hop. intros [[? _] _]; done.
      * rewrite andb_true_r. unfold bind at 1.
        destruct (bool_decide (gt_start g = Some (Q2Qc 0))) eqn:E1; simpl;
          [destruct (bool_decide (gt_end g = Some (value e'))) eqn:E2; simpl|].
        -- apply bool_decide_eq_true in E1, E2.
           apply loop_outcome_hit; [done|]. apply Hex. left.
           split; [done|]. split; [done|]. by exists e'.
        -- apply bool_decide_eq_false in E2.
           apply loop_outcome_skip; [| |done].
           ++ rewrite Hex. intros [(_ & _ & e0 & [= <-] & ?)|(s0 & e0 & ? & _)]; done.
           ++ rewrite Hop. intros [[_ ?] _]; done.
        -- apply bool_decide_eq_false in E1.
           apply loop_outcome_skip; [| |done].
           ++ rewrite Hex. intros [(? & _)|(s0 & e0 & ? & _)]; done.
           ++ intros [_ ?]; done.
      * rewrite andb_true_r. unfold bind at 1.
        destruct (bool_decide (gt_start g = Some (Q2Qc 0))) eqn:E1; simpl.
        -- apply bool_decide_eq_true in E1. unfold raise. simpl.
           split; [done|]. split; [done|]. split; [by apply Hop|].
           exists g. split; [apply elem_of_cons; by left|done].
        -- apply bool_decide_eq_false in E1.
           apply loop_outcome_skip; [| |done].
           ++ rewrite Hex. intros [(? & _)|(s0 & e0 & ? & _)]; done.
           ++ intros [_ ?]; done.
    + apply loop_outcome_skip; [| |done].
      * by apply no_interval_no_exact.
      * intros [(i & Hi & _) _]. congruence.
Qed.


Lemma candidates_elem (layer : LayerPrediction) (pool : list GroundTruthLayer)
    (g : GroundTruthLayer) :
  g ∈ candidates' layer pool <-> g ∈ pool /\ is_candidate' layer g.
Proof.
  unfold candidates, is_candidate. rewrite elem_of_filter_bool, Qltb_lt. done.
Qed.

Lemma faults_candidates (layer : LayerPrediction) (pool : list GroundTruthLayer) :
  faults' layer pool <->
  open_interval layer /\ exists g, g ∈ candidates' layer pool /\ gt_start g = Some 0%Qc.
Proof.
  unfold faults. split; intros (Hop & g & H); (split; [done|]); exists g.
  - destruct H as (? & ? & ?). split; [|done]. by apply candidates_elem.
  - destruct H as (Hc & ?). apply candidates_elem in Hc as [? ?]. done.
Qed.

Lemma find_matching_layer_outcome (layer : LayerPrediction) (pool : list GroundTruthLayer) :
  find_outcome parse_text ratio layer pool (find' layer pool).
Proof.
  unfold _find_matching_layer. cbv zeta. unfold bind at 1, get.
  fold (candidates' layer pool).
  destruct (candidates' layer pool) as [|c cs] eqn:Hc; [by simpl|].
  rewrite <- Hc.
  assert (Hsub : forall g, g ∈ candidates' layer pool -> g ∈ pool).
  { intros g Hg. by apply candidates_elem in Hg as [? _]. }
  pose proof (first_exact_match_outcome layer _ pool Hsub) as Hloop.
  unfold bind at 1.
  destruct (first_exact_match layer (candidates' layer pool) pool)
    as [[m|] pool'|e pool']; simpl in Hloop |- *.
  - destruct Hloop as ((l1 & l2 & Hsplit & Hl1) & Hex & Hrm).
    split; [|split; [done|split; [by exists l1, l2|done]]].
    rewrite Hsplit. apply elem_of_app. right. apply elem_of_cons. by left.
  - destruct Hloop as (-> & Hall & Hnf).
    destruct (py_max_spec (S := list GroundTruthLayer)
                (fun x => ratio (parse_text (material_description layer))
                            (gt_material_description x))
                (candidates' layer pool) pool) as (m & Hmax & Hin & Hbest).
    { rewrite Hc. done. }
    unfold bind at 1. rewrite Hmax.
    destruct (list_remove_elem m pool (Hsub m Hin)) as (pool' & Hr & Hrm).
    unfold bind. rewrite Hr. simpl.
    split; [done|]. split; [by rewrite faults_candidates|]. done.
  - destruct Hloop as (-> & -> & Hop & Hg).
    split; [done|]. split; [done|]. by apply faults_candidates.
Qed.

Lemma end_present_no_fault (layer : LayerPrediction) (pool : list GroundTruthLayer) :
  end_present layer -> ~ faults' layer pool.
Proof.
  intros Hend ((i & Hi & Hs & He) & _). by apply (Hend i Hi Hs).
Qed.

Lemma not_end_present_open (layer : LayerPrediction) :
  ~ end_present layer -> open_interval layer.
Proof.
  intros Hn. unfold open_interval.
  destruct (depth_interval layer) as [[s e]|] eqn:Hdi.
  - destruct s as [s'|], e as [e'|].
    + exfalso. apply Hn. intros i Hi. rewrite Hdi in Hi. injection Hi as <-. done.
    + exfalso. apply Hn. intros i Hi. rewrite Hdi in Hi. injection Hi as <-. done.
    + exfalso. apply Hn. intros i Hi. rewrite Hdi in Hi. injection Hi as <-. done.
    + by eexists.
  - exfalso. apply Hn. intros i Hi. congruence.
Qed.

Lemma open_interval_no_exact (layer : LayerPrediction) (g : GroundTruthLayer) :
  open_interval layer -> ~ exact_depth_match layer g.
Proof.
  intros (i & Hi & Hs & He) (i' & Hi' & H). rewrite Hi in Hi'. injection Hi' as <-.
  destruct H as [(_ & _ & e & He' & _)|(s & e & Hs' & _)]; congruence.
Qed.

Lemma find_raises_iff (layer : LayerPrediction) (pool : list GroundTruthLayer) :
  find' layer pool = Raised AttributeError pool <-> faults' layer pool.
Proof.
  pose proof (find_matching_layer_outcome layer pool) as H. split.
  - intros Hr. rewrite Hr in H. by destruct H as (_ & _ & ?).
  - intros Hf. destruct (find' layer pool) as [[[m|] [[|]|]] pool'|e pool']; simpl in H;
      try done.
    + destruct H as (_ & Hex & _). destruct Hf as [Hop _].
      by apply open_interval_no_exact with (g := m) in Hop.
    + by destruct H as (_ & Hnf & _).
    + destruct H as [Hnil _]. apply faults_candidates in Hf as (_ & g & Hg & _).
      rewrite Hnil in Hg. by apply elem_of_nil in Hg.
    + by destruct H as (-> & -> & _).
Qed.

Lemma find_returns_iff (layer : LayerPrediction) (pool : list GroundTruthLayer) :
  returns (find' layer pool) <-> ~ faults' layer pool.
Proof.
  split.
  - intros Hr Hf. apply find_raises_iff in Hf. rewrite Hf in Hr. done.
  - intros Hnf. pose proof (find_matching_layer_outcome layer pool) as H.
    destruct (find' layer pool) as [r pool'|e pool']; [done|].
    simpl in H. by destruct H as (_ & _ & ?).
Qed.

Lemma evaluate_loop_returned (layers : list LayerPrediction) :
  forall pool layers' pool',
    evaluate_loop parse_text ratio layers pool = Returned layers' pool' ->
    evaluated parse_text ratio pool layers layers' pool'.
Proof.
  induction layers as [|layer rest IH]; intros pool layers' pool'; simpl.
  - intros [= <- <-]. constructor.
  - unfold bind at 1.
    pose proof (find_matching_layer_outcome layer pool) as H.
    destruct (find' layer pool) as [[m d] pool1|e pool1]; [|done].
    unfold bind at 1.
    destruct (evaluate_loop parse_text ratio rest pool1) as [rest' pool2|e pool2] eqn:Hrest;
      [|done].
    intros [= <- <-]. apply evaluated_cons with (pool1 := pool1); [|by apply IH].
    unfold layer_as_stated.
    destruct m as [m|], d as [[|]|]; simpl in H; try done.
    + right; left. exists m. destruct H as (? & ? & ? & ?). done.
    + right; right. destruct H as (Hall & _ & Hin & Hbest & Hrm).
      split; [|split; [done|by exists m]].
      intros Hnil. rewrite Hnil in Hin. by apply elem_of_nil in Hin.
    + left. by destruct H as [? ->].
Qed.

Lemma evaluate_loop_total (layers : list LayerPrediction) :
  Forall end_present layers ->
  forall pool, returns (evaluate_loop parse_text ratio layers pool).
Proof.
  induction 1 as [|layer rest Hend _ IH]; intros pool; simpl; [done|].
  unfold bind at 1.
  pose proof (proj2 (find_returns_iff layer pool) (end_present_no_fault layer pool Hend)) as Hr.
  destruct (find' layer pool) as [[m d] pool1|e pool1]; [|done].
  unfold bind at 1. specialize (IH pool1).
  destruct (evaluate_loop parse_text ratio rest pool1); done.
Qed.

Lemma evaluate_loop_fault (pre : list LayerPrediction) :
  forall pool pre' pool1 layer post,
    evaluate_loop parse_text ratio pre pool = Returned pre' pool1 ->
    faults' layer pool1 ->
    evaluate_loop parse_text ratio (pre ++ layer :: post) pool = Raised AttributeError pool1.
Proof.
  induction pre as [|l pre IH]; intros pool pre' pool1 layer post; simpl.
  - intros [= <- <-] Hf. apply find_raises_iff in Hf. unfold bind at 1. by rewrite Hf.
  - unfold bind at 1 3.
    destruct (find' l pool) as [[m d] pool0|e pool0]; [|done].
    unfold bind at 1 2.
    destruct (evaluate_loop parse_text ratio pre pool0) as [pre0 pool2|e pool2] eqn:Hpre;
      [|done].
    intros [= <- <-] Hf. by rewrite (IH _ _ _ _ post Hpre Hf).
Qed.

Lemma layer_as_stated_consumes pool layer layer' pool' :
  layer_as_stated parse_text ratio pool layer layer' pool' ->
  (material_is_correct layer' = Some false /\ pool' = pool)
  \/ (material_is_correct layer' = Some true /\ exists m, m ∈ pool /\ pool ≡ₚ m :: pool').
Proof.
  intros [(_ & -> & ->)|[(m & Hin & _ & _ & -> & Hrm)|(_ & _ & m & Hin & _ & -> & Hrm)]].
  - by left.
  - right. split; [done|]. exists m. split; [by apply candidates_elem in Hin as [? _]|].
    by apply remove_first_Some_perm.
  - right. split; [done|]. exists m. split; [by apply candidates_elem in Hin as [? _]|].
    by apply remove_first_Some_perm.
Qed.

Lemma evaluated_consumes pool layers layers' pool' :
  evaluated parse_text ratio pool layers layers' pool' ->
  length layers' = length layers /\
  exists used, pool ≡ₚ used ++ pool' /\ length used = length (matched layers').
Proof.
  induction 1 as [pool|pool layer layer' pool1 rest rest' pool2 Hstep _ (Hlen & used & Hp & Hl)].
  - split; [done|]. by exists [].
  - split; [simpl; by rewrite Hlen|].
    apply layer_as_stated_consumes in Hstep as [(Hm & ->)|(Hm & m & _ & Hpm)].
    + exists used. split; [done|]. unfold matched. simpl. rewrite Hm. done.
    + exists (m :: used). split.
      * rewrite Hpm, Hp. done.
      * unfold matched. simpl. rewrite Hm. simpl. f_equal. exact Hl.
Qed.

(** Every run of [evaluate_layers] that returns evaluated each layer as
    stated, on the pool its predecessors left, and consumed one ground-truth
    entry per matched layer; with [end_present] on every layer the run
    returns. *)
Lemma evaluate_layers_as_stated (layers : list LayerPrediction)
    (ground_truth : list GroundTruthLayer) :
  (forall layers' pool',
     evaluate_layers parse_text ratio layers ground_truth = Returned layers' pool' ->
     evaluated parse_text ratio ground_truth layers layers' pool' /\
     length layers' = length layers /\
     exists used, ground_truth ≡ₚ used ++ pool' /\ length used = length (matched layers')) /\
  (Forall end_present layers ->
     returns (evaluate_layers parse_text ratio layers ground_truth)).
Proof.
  split.
  - intros layers' pool' Hr. apply evaluate_loop_returned in Hr.
    split; [done|]. by apply evaluated_consumes.
  - intros H. by apply evaluate_loop_total.
Qed.

(** C10.  When the interval of a layer is present with start and end both
    absent and some candidate (ratio above 0.9) starts at 0,
    [_find_matching_layer] raises [AttributeError] and so does
    [evaluate_layers], whatever was evaluated before; it raises in no other
    case.  A layer whose present interval with absent start has its end
    never raises, so with this on every layer [evaluate_layers] returns;
    a layer without it raises on any pool holding a candidate that starts
    at 0. *)
Theorem absent_end_raises (layer : LayerPrediction) (pool : list GroundTruthLayer) :
  (faults' layer pool -> find' layer pool = Raised AttributeError pool) /\
  (faults' layer pool ->
     forall pre pre' ground_truth post,
       evaluate_layers parse_text ratio pre ground_truth = Returned pre' pool ->
       evaluate_layers parse_text ratio (pre ++ layer :: post) ground_truth
       = Raised AttributeError pool) /\
  (returns (find' layer pool) <-> ~ faults' layer pool) /\
  (end_present layer -> returns (find' layer pool)) /\
  (forall layers ground_truth,
     Forall end_present layers ->
     returns (evaluate_layers parse_text ratio layers ground_truth)) /\
  (~ end_present layer ->
     forall g, g ∈ pool -> is_candidate' layer g -> gt_start g = Some 0%Qc ->
       find' layer pool = Raised AttributeError pool).
Proof.
  split; [by apply find_raises_iff|].
  split; [intros Hf pre pre' gt post Hpre; by apply evaluate_loop_fault with (pre' := pre')|].
  split; [apply find_returns_iff|].
  split; [intros Hend; apply find_returns_iff; by apply end_present_no_fault|].
  split; [intros layers gt H; by apply evaluate_loop_total|].
  intros Hn g Hg Hc Hz. apply find_raises_iff. split; [by apply not_end_present_open|].
  by exists g.
Qed.

End MatchingFacts.

Section MatchingExamples.
Import Matching.

Example ratio_same : (levenshtein_ratio "sand" "sand" == 1)%Q.
Proof. reflexivity. Qed.

Example ratio_close : (levenshtein_ratio "sand" "sandy" == 8 # 9)%Q.
Proof. reflexivity. Qed.

Example top_layer_exact :
  evaluate_layers plain_text levenshtein_ratio [top_layer] [sand_2_5; sand_0_2]
  = Returned [with_flags top_layer (Some true) (Some true)] [sand_2_5].
Proof. vm_compute. reflexivity. Qed.

(** Two layers that both match the one entry: the second finds the pool
    empty. *)
Example entry_consumed_once :
  evaluate_layers plain_text levenshtein_ratio [top_layer; bare_layer] [sand_0_2]
  = Returned [with_flags top_layer (Some true) (Some true);
              with_flags bare_layer (Some false) None] [].
Proof. vm_compute. reflexivity. Qed.

(** No exact depth match: the candidate of highest ratio is taken, though it
    comes second, and the interval counts as incorrect. *)
Example best_ratio_taken :
  evaluate_layers plain_text levenshtein_ratio [sandy_1_3] [sandys_5_9; sandy_2_5]
  = Returned [with_flags sandy_1_3 (Some true) (Some false)] [sandys_5_9].
Proof. vm_compute. reflexivity. Qed.

Lemma open_layer_faults : faults plain_text levenshtein_ratio open_layer [sand_0_2].
Proof.
  split.
  - exists (mkBoundaryInterval None None). done.
  - exists sand_0_2. split; [apply elem_of_cons; by left|].
    split; [|reflexivity]. unfold is_candidate. vm_compute. reflexivity.
Defined.

Lemma absent_end_raises_witness :
  faults plain_text levenshtein_ratio open_layer [sand_0_2] /\
  _find_matching_layer plain_text levenshtein_ratio open_layer [sand_0_2]
  = Raised AttributeError [sand_0_2].
Proof.
  split; [exact open_layer_faults|].
  apply (absent_end_raises plain_text levenshtein_ratio open_layer [sand_0_2]).
  exact open_layer_faults.
Defined.

(** C1 at the input the code fails on.  The layer "sand" carries an
    interval with start and end both absent; the pool holds the ground-truth
    entry "sand" from 0 to 2.  The entry is the one candidate and, as the claim
    defines it, no exact depth match, so the claim has it removed with
    material correct and interval incorrect.  The code raises
    [AttributeError] instead, in [_find_matching_layer] and so in
    [evaluate_layers], and leaves the pool as it was. *)
Theorem open_interval_layer_raises :
  candidates plain_text levenshtein_ratio open_layer [sand_0_2] = [sand_0_2] /\
  ~ exact_depth_match open_layer sand_0_2 /\
  _find_matching_layer plain_text levenshtein_ratio open_layer [sand_0_2]
    = Raised AttributeError [sand_0_2] /\
  evaluate_layers plain_text levenshtein_ratio [open_layer] [sand_0_2]
    = Raised AttributeError [sand_0_2] /\
  ~ (exists layer' pool',
       evaluate_layers plain_text levenshtein_ratio [open_layer] [sand_0_2]
         = Returned [layer'] pool' /\
       layer_as_stated plain_text levenshtein_ratio [sand_0_2] open_layer layer' pool').
Proof.
  split; [by vm_compute|].
  split.
  { intros (i & [= <-] & [(_ & _ & e & He & _)|(s & e & Hs & _)]); done. }
  split; [by vm_compute|].
  assert (Hr : evaluate_layers plain_text levenshtein_ratio [open_layer] [sand_0_2]
               = Raised AttributeError [sand_0_2]) by (by vm_compute).
  split; [exact Hr|].
  intros (layer' & pool' & Hret & _). rewrite Hr in Hret. discriminate.
Qed.

End MatchingExamples.

(** ** Duplicate layers *)

Lemma insert_by_perm {A} (key : A -> Q) (x : A) (xs : list A) :
  insert_by key x xs ≡ₚ x :: xs.
Proof.
  induction xs as [|y ys IH]; simpl; [done|].
  destruct (Qltb (key y) (key x)); [|done].
  rewrite IH. apply Permutation_swap.
Qed.

Lemma sorted_cons {A} (key : A -> Q) (x : A) (xs : list A) :
  sorted key (x :: xs) = insert_by key x (sorted key xs).
Proof. reflexivity. Qed.

Lemma sorted_perm {A} (key : A -> Q) (xs : list A) : sorted key xs ≡ₚ xs.
Proof.
  induction xs as [|x xs IH]; [done|].
  by rewrite sorted_cons, insert_by_perm, IH.
Qed.




Section DetectorFacts.
Import Duplicates.

Variable match_template : Z * Z * Z * Z -> option Q.
Variable previous_page current_page : Page.

Local Abbreviation is_duplicate' := (is_duplicate match_template previous_page current_page).
Local Abbreviation low_run_at' := (low_run_at match_template previous_page current_page).
Local Abbreviation first_low_run' := (first_low_run match_template previous_page current_page).
Local Abbreviation scanned' := (scanned match_template previous_page current_page).
Local Abbreviation boundary' := (boundary match_template previous_page current_page).
Local Abbreviation scan_invariant' :=
  (scan_invariant match_template previous_page current_page).
Local Abbreviation scan' := (scan match_template previous_page current_page).
Local Abbreviation remove_duplicate_layers' :=
  (remove_duplicate_layers match_template previous_page current_page).

Lemma invariant_boundary (L : list Layer) (o b c : nat) :
  scan_invariant' L o b c -> boundary' L o b.
Proof.
  intros (_ & _ & [(-> & _ & Hlow)|(Hb & Hx & _ & Hlow)]); [by left|by right].
Qed.

Lemma invariant_run (L : list Layer) (o b : nat) :
  (o <= length L)%nat -> scan_invariant' L o b 3 ->
  exists k, first_low_run' L k /\ o = (k + 3)%nat.
Proof.
  intros Hlen (_ & Hfirst & Hb).
  assert (Hk : (3 <= o)%nat /\
               forall j x, (o - 3 <= j < o)%nat -> L !! j = Some x -> ~ is_duplicate' x).
  { destruct Hb as [(_ & Hc & Hlow)|(Hb & _ & Hc & Hlow)].
    - split; [lia|]. intros j x Hj. apply Hlow. lia.
    - split; [lia|]. intros j x Hj. apply Hlow. lia. }
  destruct Hk as [Ho Hlow]. exists (o - 3)%nat. split; [|lia]. split.
  - destruct (lookup_lt_is_Some_2 L (o - 3)) as [a Ha]; [lia|].
    destruct (lookup_lt_is_Some_2 L (o - 3 + 1)) as [b' Hb']; [lia|].
    destruct (lookup_lt_is_Some_2 L (o - 3 + 2)) as [c' Hc']; [lia|].
    exists a, b', c'. repeat split; try done.
    + apply (Hlow (o - 3)%nat); [lia|done].
    + apply (Hlow (o - 3 + 1)%nat); [lia|done].
    + apply (Hlow (o - 3 + 2)%nat); [lia|done].
  - intros j Hj Hrun. destruct (Hfirst j) as [_ ?]; [lia|done|lia].
Qed.

Lemma low_run_at_bound (L : list Layer) (k : nat) :
  low_run_at' L k -> (k + 3 <= length L)%nat.
Proof.
  intros (a & b & c & _ & _ & Hc & _). apply lookup_lt_Some in Hc. lia.
Qed.

Lemma invariant_stop (L : list Layer) (o b : nat) :
  (o <= length L)%nat -> scan_invariant' L o b 3 ->
  exists n, scanned' L n /\ boundary' L n b.
Proof.
  intros Hlen Hinv. exists o. split; [|by apply invariant_boundary with (c := 3%nat)].
  left. destruct (invariant_run L o b Hlen Hinv) as (k & Hk & ->). by exists k.
Qed.

Lemma invariant_end (L : list Layer) (b c : nat) :
  scan_invariant' L (length L) b c ->
  exists n, scanned' L n /\ boundary' L n b.
Proof.
  intros Hinv. destruct (decide (c = 3%nat)) as [->|Hc].
  - by apply invariant_stop with (o := length L).
  - exists (length L). split; [|by apply invariant_boundary with (c := c)].
    right. split; [|done]. intros k Hrun.
    destruct Hinv as (_ & Hfirst & _).
    destruct (Hfirst k) as [? _]; [by apply low_run_at_bound|done|done].
Qed.

Lemma invariant_high (L : list Layer) (o b c : nat) (x : Layer) :
  L !! o = Some x -> is_duplicate' x -> (c < 3)%nat ->
  scan_invariant' L o b c -> scan_invariant' L (S o) o 0.
Proof.
  intros Hx Hdup Hc (_ & Hfirst & _). split; [lia|]. split.
  - intros j Hj Hrun.
    destruct (decide (j + 3 <= o)%nat) as [Hle|Hgt].
    + destruct (Hfirst j Hle Hrun) as [? _]. lia.
    + destruct Hrun as (a' & b' & c' & _ & _ & Hc' & _ & _ & Hlow).
      replace (j + 2)%nat with o in Hc' by lia. congruence.
  - right. split; [lia|]. split; [by exists x|]. split; [lia|]. intros j y Hj. lia.
Qed.

Lemma invariant_low (L : list Layer) (o b c : nat) (x : Layer) :
  L !! o = Some x -> ~ is_duplicate' x -> (c < 3)%nat ->
  scan_invariant' L o b c -> scan_invariant' L (S o) b (c + 1).
Proof.
  intros Hx Hlow Hc (_ & Hfirst & Hb). split; [lia|]. split.
  - intros j Hj Hrun.
    destruct (decide (j + 3 <= o)%nat) as [Hle|Hgt].
    { destruct (Hfirst j Hle Hrun) as [? _]. lia. }
    split; [|lia].
    destruct Hb as [(_ & Hco & _)|(Hbo & (y & Hy & Hdup) & Hco & _)]; [lia|].
    destruct Hrun as (a' & b' & c' & Ha' & Hb' & _ & Hla & Hlb & _).
    assert (b <> j) by (intros ->; congruence).
    assert (b <> (j + 1)%nat) by (intros ->; congruence).
    lia.
  - destruct Hb as [(-> & Hco & Hall)|(Hbo & Hy & Hco & Hall)].
    + left. split; [done|]. split; [lia|]. intros j y Hj Hjy.
      destruct (decide (j = o)) as [->|Hne]; [congruence|]. apply (Hall j); [lia|done].
    + right. split; [lia|]. split; [done|]. split; [lia|]. intros j y Hj Hjy.
      destruct (decide (j = o)) as [->|Hne]; [congruence|]. apply (Hall j); [lia|done].
Qed.

Lemma scan_cons (i : nat) (x : Layer) (rest : list (nat * Layer)) (b c : nat) :
  scan' ((i, x) :: rest) b c
  = if (3 <=? c)%nat then b
    else if Qltb (62 # 100) (img_template_probablility_match match_template
                               previous_page current_page x)
         then scan' rest i 0 else scan' rest b (c + 1).
Proof. reflexivity. Qed.

Lemma scan_spec (suf : list Layer) :
  forall (L pre : list Layer) (o b c : nat),
    L = pre ++ suf -> o = length pre -> scan_invariant' L o b c ->
    exists n, scanned' L n /\ boundary' L n (scan' (imap (fun i => pair (o + i)%nat) suf) b c).
Proof.
  induction suf as [|x rest IH]; intros L pre o b c HL Ho Hinv.
  - simpl. rewrite app_nil_r in HL. subst. by apply invariant_end with (c := c).
  - assert (Hlen : (o < length L)%nat).
    { subst. rewrite length_app. simpl. lia. }
    assert (Hx : L !! o = Some x).
    { subst. by rewrite list_lookup_middle. }
    rewrite imap_cons, scan_cons.
    destruct (3 <=? c)%nat eqn:E3.
    { apply Nat.leb_le in E3. destruct Hinv as (Hle & Hinv').
      assert (c = 3%nat) as -> by lia.
      apply invariant_stop with (o := o); [lia|done]. }
    apply Nat.leb_gt in E3.
    assert (Hext : forall b' c',
      scan' (imap ((fun i => pair (o + i)%nat) ∘ S) rest) b' c'
      = scan' (imap (fun i => pair (S o + i)%nat) rest) b' c').
    { intros b' c'. f_equal. apply imap_ext. intros i y _. simpl. f_equal. lia. }
    rewrite !Hext.
    assert (HL' : L = (pre ++ [x]) ++ rest) by (by rewrite <- app_assoc).
    assert (Ho' : S o = length (pre ++ [x])) by (rewrite length_app; simpl; lia).
    destruct (Qltb (62 # 100) (img_template_probablility_match match_template
                                 previous_page current_page x)) eqn:Ed.
    + apply Qltb_lt in Ed. rewrite Nat.add_0_r.
      apply (IH L (pre ++ [x]) (S o) o 0%nat HL' Ho').
      by apply invariant_high with (b := b) (c := c) (x := x).
    + apply Qltb_ge in Ed.
      apply (IH L (pre ++ [x]) (S o) b (c + 1)%nat HL' Ho').
      apply invariant_low with (x := x); try done.
      unfold is_duplicate. by apply Qle_not_lt.
Qed.

Lemma scan_enumerate (L : list Layer) :
  exists n, scanned' L n /\ boundary' L n (scan' (enumerate L) 0 0).
Proof.
  apply (scan_spec L L [] 0%nat 0%nat 0%nat); [done|done|].
  split; [lia|]. split; [intros j Hj; lia|].
  left. split; [done|]. split; [done|]. intros j x Hj. lia.
Qed.

Lemma first_low_run_unique (L : list Layer) (k k' : nat) :
  first_low_run' L k -> first_low_run' L k' -> k = k'.
Proof.
  intros [Hr Hf] [Hr' Hf'].
  destruct (lt_eq_lt_dec k k') as [[Hlt| ->]|Hgt]; [|done|].
  - by destruct (Hf' k Hlt).
  - by destruct (Hf k' Hgt).
Qed.

Lemma boundary_before_run (L : list Layer) (k b : nat) :
  first_low_run' L k -> boundary' L (k + 3) b -> b = Nat.pred k.
Proof.
  intros [Hrun Hfirst] Hb.
  pose proof Hrun as (x0 & x1 & x2 & H0 & H1 & H2 & L0 & L1 & L2).
  assert (Hprev : forall y, (0 < k)%nat -> L !! (k - 1)%nat = Some y -> is_duplicate' y).
  { intros y Hk Hy.
    destruct (Qlt_le_dec (62 # 100) (img_template_probablility_match match_template
                                       previous_page current_page y)) as [Hd|Hd]; [done|].
    exfalso. apply (Hfirst (k - 1)%nat); [lia|].
    exists y, x0, x1. replace (k - 1 + 1)%nat with k by lia.
    replace (k - 1 + 2)%nat with (k + 1)%nat by lia.
    repeat split; try done. unfold is_duplicate. by apply Qle_not_lt. }
  destruct Hb as [(-> & Hall)|(Hlt & (y & Hy & Hdup) & Hall)].
  - destruct k as [|k']; [done|]. exfalso.
    destruct (lookup_lt_is_Some_2 L k') as [y Hy].
    { apply lookup_lt_Some in H0. lia. }
    apply (Hall k' y); [lia|done|]. apply Hprev; [lia|].
    by replace (S k' - 1)%nat with k' by lia.
  - assert (b <> k) by (intros ->; congruence).
    assert (b <> (k + 1)%nat) by (intros ->; congruence).
    assert (b <> (k + 2)%nat) by (intros ->; congruence).
    destruct (decide (b = Nat.pred k)) as [|Hne]; [done|]. exfalso.
    destruct (lookup_lt_is_Some_2 L (k - 1)) as [z Hz].
    { apply lookup_lt_Some in H0. lia. }
    apply (Hall (k - 1)%nat z); [lia|done|]. apply Hprev; [lia|done].
Qed.






End DetectorFacts.

Section DetectorExamples.
Import Duplicates.


End DetectorExamples.

(** ** The line index *)

Section QuadTreeFacts.
Import QuadTree.

Implicit Types (s : LinesQuadTree) (k key : string) (l line : Line) (p : Z * Z).

Lemma collect_lookup (h acc : gmap string Line) key nk k l :
  (forall k l, acc !! k = Some l -> h !! k = Some l) ->
  collect h key acc nk !! k = Some l <->
  (k = nk /\ k <> key /\ h !! k = Some l) \/ acc !! k = Some l.
Proof.
  intros Hacc. unfold collect.
  destruct (h !! nk) as [n|] eqn:Hn.
  - destruct (decide (nk <> key)) as [Hne|He].
    + destruct (decide (k = nk)) as [->|Hk].
      * rewrite lookup_insert_eq. split.
        -- intros [= ->]. by left.
        -- intros [(_ & _ & H)|H]; [congruence|]. apply Hacc in H. congruence.
      * rewrite lookup_insert_ne by done. split; [by right|].
        intros [(? & _)|H]; done.
    + split; [by right|]. intros [(-> & ? & _)|H]; done.
  - split; [by right|]. intros [(-> & _ & ?)|H]; [congruence|done].
Qed.

Lemma collect_keys_lookup (h : gmap string Line) key (ks : list string) :
  forall (acc : gmap string Line) k l,
    (forall k l, acc !! k = Some l -> h !! k = Some l) ->
    foldl (collect h key) acc ks !! k = Some l <->
    (k ∈ ks /\ k <> key /\ h !! k = Some l) \/ acc !! k = Some l.
Proof.
  induction ks as [|nk ks IH]; intros acc k l Hacc; simpl.
  - split; [by right|]. intros [(H & _)|H]; [by apply elem_of_nil in H|done].
  - rewrite IH.
    + rewrite collect_lookup by done. rewrite elem_of_cons. tauto.
    + intros k' l' H. apply collect_lookup in H; [|done].
      destruct H as [(_ & _ & ?)|?]; [done|by apply Hacc].
Qed.

Lemma collect_points_lookup (h : gmap string Line) key
    (pts : list (Z * Z * gset string)) :
  forall (acc : gmap string Line) k l,
    (forall k l, acc !! k = Some l -> h !! k = Some l) ->
    foldl (fun acc point => foldl (collect h key) acc (elements point.2)) acc pts !! k = Some l <->
    ((exists point, point ∈ pts /\ k ∈ point.2) /\ k <> key /\ h !! k = Some l)
    \/ acc !! k = Some l.
Proof.
  induction pts as [|pt pts IH]; intros acc k l Hacc; simpl.
  - split; [by right|]. intros [((pt & H & _) & _)|H]; [by apply elem_of_nil in H|done].
  - rewrite IH.
    + rewrite collect_keys_lookup by done. rewrite elem_of_elements. split.
      * intros [((pt' & Hin & Hk) & ? & ?)|[(? & ? & ?)|?]].
        -- left. split; [|done]. exists pt'. split; [|done]. apply elem_of_cons. by right.
        -- left. split; [|done]. exists pt. split; [|done]. apply elem_of_cons. by left.
        -- by right.
      * intros [((pt' & Hin & Hk) & ? & ?)|?]; [|by right; right].
        apply elem_of_cons in Hin as [->|Hin]; [by right; left|].
        left. split; [|done]. by exists pt'.
    + intros k' l' H. apply collect_keys_lookup in H; [|done].
      destruct H as [(_ & _ & ?)|?]; [done|by apply Hacc].
Qed.

Lemma within_bb_elem (t : QTree) (bb : BoundingBox) p (data : gset string) :
  (p, data) ∈ within_bb t bb <-> points t !! p = Some data /\ bb_contains bb p = true.
Proof.
  unfold within_bb. rewrite elem_of_filter_bool, elem_of_map_to_list. done.
Qed.

Lemma neighbouring_lines_unknown s key tol :
  hashmap s !! key = None -> neighbouring_lines s key tol = EmptyList.
Proof. intros H. unfold neighbouring_lines. by rewrite H. Qed.

Lemma neighbouring_lines_lookup s key line tol :
  hashmap s !! key = Some line ->
  exists d, neighbouring_lines s key tol = Lines d /\
    forall k l, d !! k = Some l <->
      k <> key /\ hashmap s !! k = Some l /\
      exists p, registered s p k /\ bb_contains (search_box line tol) p = true.
Proof.
  intros Hkey. unfold neighbouring_lines. rewrite Hkey. cbv zeta.
  eexists. split; [reflexivity|]. intros k l.
  rewrite collect_points_lookup by (intros ? ?; by rewrite lookup_empty).
  rewrite lookup_empty. split.
  - intros [((pt & Hin & Hk) & Hne & Hl)|?]; [|done].
    destruct pt as [p data]. apply within_bb_elem in Hin as [Hp Hbb].
    split; [done|]. split; [done|]. exists p. split; [|done]. by exists data.
  - intros (Hne & Hl & p & (data & Hp & Hk) & Hbb). left.
    split; [|done]. exists (p, data). split; [|done]. by apply within_bb_elem.
Qed.

Lemma find_lookup s p :
  points_in_bounds s -> qtree_find (qtree s) p = points (qtree s) !! p.
Proof.
  intros Hb. unfold qtree_find.
  destruct (bb_contains (bounding_box (qtree s)) p) eqn:E; [done|].
  destruct (points (qtree s) !! p) as [data|] eqn:Hp; [|done].
  apply Hb in Hp. congruence.
Qed.

Lemma registered_set_data s c (data : gset string) p k :
  registered (set_data s c data) p k <->
  (p = c /\ k ∈ data) \/ (p <> c /\ registered s p k).
Proof.
  unfold registered, set_data. simpl.
  destruct (decide (p = c)) as [->|Hne].
  - rewrite lookup_insert_eq. split.
    + intros (d & [= <-] & Hk). by left.
    + intros [[_ Hk]|[? _]]; [|done]. by exists data.
  - rewrite lookup_insert_ne by done. split; [by right|].
    intros [[? _]|[_ H]]; done.
Qed.

Lemma set_data_in_bounds s c (data : gset string) :
  points_in_bounds s -> bb_contains (bounding_box (qtree s)) c = true ->
  points_in_bounds (set_data s c data).
Proof.
  intros Hb Hc p d. unfold set_data. simpl.
  destruct (decide (p = c)) as [->|Hne].
  - by rewrite lookup_insert_eq.
  - rewrite lookup_insert_ne by done. apply Hb.
Qed.

(** What [_qtree_insert] does. *)
Lemma qtree_insert_outcome (point : Point) key s :
  points_in_bounds s ->
  match _qtree_insert point key s with
  | Returned _ s' =>
      bb_contains (bounding_box (qtree s)) (rounded point) = true /\
      hashmap s' = hashmap s /\
      bounding_box (qtree s') = bounding_box (qtree s) /\
      points_in_bounds s' /\
      forall p k, registered s' p k <-> registered s p k \/ (p = rounded point /\ k = key)
  | Raised e s' =>
      e = ValueError /\ s' = s /\
      bb_contains (bounding_box (qtree s)) (rounded point) = false
  end.
Proof.
  intros Hb. unfold _qtree_insert. cbv zeta. rewrite find_lookup by done.
  destruct (points (qtree s) !! rounded point) as [data|] eqn:Hp.
  - pose proof (Hb _ _ Hp) as Hin.
    split; [done|]. split; [done|]. split; [done|].
    split; [by apply set_data_in_bounds|].
    intros p k. rewrite registered_set_data. unfold registered. split.
    + intros [[-> Hk]|[Hne H]]; [|by left].
      apply elem_of_union in Hk as [Hk|Hk].
      * left. by exists data.
      * right. split; [done|]. by apply elem_of_singleton in Hk.
    + intros [(d & Hd & Hk)|[-> ->]].
      * destruct (decide (p = rounded point)) as [->|Hne].
        -- left. split; [done|]. rewrite Hp in Hd. injection Hd as <-. set_solver.
        -- right. split; [done|]. by exists d.
      * left. split; [done|]. set_solver.
  - unfold qtree_insert.
    destruct (bb_contains (bounding_box (qtree s)) (rounded point)) eqn:E; [|done].
    split; [done|]. split; [done|]. split; [done|]. split.
    + intros p d. simpl. destruct (decide (p = rounded point)) as [->|Hne].
      * by rewrite lookup_insert_eq.
      * rewrite lookup_insert_ne by done. apply Hb.
    + intros p k.
      change (mkLinesQuadTree _ (hashmap s)) with (set_data s (rounded point) {[key]}).
      rewrite registered_set_data. split.
      * intros [[-> Hk]|[_ H]]; [|by left]. right. split; [done|].
        by apply elem_of_singleton in Hk.
      * intros [(d & Hd & Hk)|[-> ->]].
        -- right. split; [|by exists d]. intros ->. congruence.
        -- left. split; [done|]. set_solver.
Qed.

(** What [_qtree_delete] does. *)
Lemma qtree_delete_outcome (point : Point) key s :
  points_in_bounds s ->
  match _qtree_delete point key s with
  | Returned _ s' =>
      hashmap s' = hashmap s /\
      bounding_box (qtree s') = bounding_box (qtree s) /\
      points_in_bounds s' /\
      (forall p k, registered s' p k <->
                   registered s p k /\ ~ (p = rounded point /\ k = key)) /\
      (forall p, points (qtree s') !! p = None <-> points (qtree s) !! p = None) /\
      (registered s (rounded point) key \/ points (qtree s) !! rounded point = None)
  | Raised e s' =>
      e = KeyError /\ s' = s /\ ~ registered s (rounded point) key /\
      points (qtree s) !! rounded point <> None
  end.
Proof.
  intros Hb. unfold _qtree_delete. cbv zeta. rewrite find_lookup by done.
  destruct (points (qtree s) !! rounded point) as [data|] eqn:Hp.
  - destruct (decide (key ∈ data)) as [Hin|Hnin].
    + split; [done|]. split; [done|].
      split; [apply set_data_in_bounds; [done|by apply (Hb _ _ Hp)]|].
      split; [|split; [|left; by exists data]].
      2:{ intros p. simpl. destruct (decide (p = rounded point)) as [->|Hne].
          - rewrite lookup_insert_eq, Hp. done.
          - by rewrite lookup_insert_ne. }
      intros p k. rewrite registered_set_data. unfold registered. split.
      * intros [[-> Hk]|[Hne H]].
        -- apply elem_of_difference in Hk as [Hk Hne]. split; [by exists data|].
           intros [_ ->]. apply Hne. by apply elem_of_singleton.
        -- split; [done|]. intros [? _]. done.
      * intros [(d & Hd & Hk) Hn].
        destruct (decide (p = rounded point)) as [->|Hne].
        -- left. split; [done|]. rewrite Hp in Hd. injection Hd as <-.
           apply elem_of_difference. split; [done|]. intros Hs.
           apply elem_of_singleton in Hs. by apply Hn.
        -- right. split; [done|]. by exists d.
    + split; [done|]. split; [done|]. split; [|done].
      intros (d & Hd & Hk). congruence.
  - split; [done|]. split; [done|]. split; [done|]. split; [|split; [done|by right]].
    intros p k. split; [|by intros [? _]].
    intros H. split; [done|]. intros [-> _]. destruct H as (d & Hd & _). congruence.
Qed.

Lemma add_outcome line key s :
  points_in_bounds s ->
  match add line key s with
  | Returned k s' =>
      k = key /\ hashmap s' = <[key := line]> (hashmap s) /\
      bounding_box (qtree s') = bounding_box (qtree s) /\
      points_in_bounds s' /\
      bb_contains (bounding_box (qtree s)) (rounded (start line)) = true /\
      bb_contains (bounding_box (qtree s)) (rounded (end_ line)) = true /\
      forall p k', registered s' p k' <->
        registered s p k' \/ (k' = key /\ (p = rounded (start line) \/ p = rounded (end_ line)))
  | Raised e s' =>
      e = ValueError /\
      (bb_contains (bounding_box (qtree s)) (rounded (start line)) = false \/
       bb_contains (bounding_box (qtree s)) (rounded (end_ line)) = false)
  end.
Proof.
  intros Hb. unfold add, bind, modify. cbv beta iota.
  set (s0 := mkLinesQuadTree (qtree s) (<[key := line]> (hashmap s))).
  assert (Hb0 : points_in_bounds s0) by done.
  pose proof (qtree_insert_outcome (start line) key s0 Hb0) as H1.
  destruct (_qtree_insert (start line) key s0) as [[] s1|e s1].
  - destruct H1 as (Hin1 & Hh1 & Hbb1 & Hb1 & Hr1).
    pose proof (qtree_insert_outcome (end_ line) key s1 Hb1) as H2.
    destruct (_qtree_insert (end_ line) key s1) as [[] s2|e s2].
    + destruct H2 as (Hin2 & Hh2 & Hbb2 & Hb2 & Hr2). unfold ret.
      split; [done|]. split; [by rewrite Hh2, Hh1|].
      split; [by rewrite Hbb2, Hbb1|]. split; [done|]. split; [done|].
      split; [by rewrite Hbb1 in Hin2|].
      intros p k'. rewrite Hr2, Hr1. unfold registered. simpl. tauto.
    + destruct H2 as (-> & _ & Hout). split; [done|]. right. by rewrite Hbb1 in Hout.
  - destruct H1 as (-> & _ & Hout). split; [done|]. by left.
Qed.

Lemma remove_unknown key s : hashmap s !! key = None -> remove key s = Returned tt s.
Proof. intros H. unfold remove, bind, get. by rewrite H. Qed.

Lemma remove_outcome line key s :
  points_in_bounds s -> hashmap s !! key = Some line ->
  match remove key s with
  | Returned _ s' =>
      hashmap s' = delete key (hashmap s) /\
      bounding_box (qtree s') = bounding_box (qtree s) /\
      points_in_bounds s' /\
      (forall p k, registered s' p k <->
         registered s p k /\
         ~ (k = key /\ (p = rounded (start line) \/ p = rounded (end_ line)))) /\
      (registered s (rounded (start line)) key ->
       rounded (start line) <> rounded (end_ line))
  | Raised e s' =>
      e = KeyError /\ hashmap s' = hashmap s /\
      (registered s (rounded (start line)) key ->
       registered s (rounded (end_ line)) key ->
       rounded (start line) = rounded (end_ line))
  end.
Proof.
  intros Hb Hk. unfold remove, bind, get. rewrite Hk.
  pose proof (qtree_delete_outcome (start line) key s Hb) as H1.
  destruct (_qtree_delete (start line) key s) as [[] s1|e s1].
  - destruct H1 as (Hh1 & Hbb1 & Hb1 & Hr1 & Hd1 & Hw1).
    pose proof (qtree_delete_outcome (end_ line) key s1 Hb1) as H2.
    destruct (_qtree_delete (end_ line) key s1) as [[] s2|e s2].
    + destruct H2 as (Hh2 & Hbb2 & Hb2 & Hr2 & Hd2 & Hw2). unfold modify. simpl.
      split; [by rewrite Hh2, Hh1|]. split; [by rewrite Hbb2, Hbb1|].
      split; [done|]. split.
      * intros p k. unfold registered in *. simpl. rewrite Hr2, Hr1. tauto.
      * intros Hreg Heq. rewrite <- Heq in Hw2. destruct Hw2 as [Hw2|Hw2].
        -- apply Hr1 in Hw2 as [_ Hn]. by apply Hn.
        -- apply Hd1 in Hw2. destruct Hreg as (d & Hd & _). congruence.
    + destruct H2 as (-> & -> & Hn & _). split; [done|]. split; [done|].
      intros Hs He. destruct (decide (rounded (start line) = rounded (end_ line)))
        as [|Hne]; [done|].
      exfalso. apply Hn. apply Hr1. split; [done|]. intros [? _]. by apply Hne.
  - destruct H1 as (-> & -> & Hn & _). split; [done|]. split; [done|].
    intros Hs. done.
Qed.

Lemma init_invariant width height : index_invariant (init width height).
Proof.
  split; [|split].
  - intros k l H. simpl in H. by rewrite lookup_empty in H.
  - intros p k (d & H & _). simpl in H. by rewrite lookup_empty in H.
  - intros p d H. simpl in H. by rewrite lookup_empty in H.
Qed.

Lemma add_invariant line key s k' s' :
  index_invariant s -> hashmap s !! key = None ->
  add line key s = Returned k' s' -> index_invariant s'.
Proof.
  intros (I1 & I2 & I3) Hfresh Hadd.
  pose proof (add_outcome line key s I3) as H. rewrite Hadd in H.
  destruct H as (_ & Hh & _ & Hb & _ & _ & Hr).
  split; [|split; [|done]].
  - intros k l. rewrite Hh. destruct (decide (k = key)) as [->|Hne].
    + rewrite lookup_insert_eq. intros [= <-]. split; apply Hr; right; auto.
    + rewrite lookup_insert_ne by done. intros Hl.
      destruct (I1 k l Hl). split; apply Hr; by left.
  - intros p k Hreg. apply Hr in Hreg as [Hreg|[-> Hp]].
    + destruct (I2 p k Hreg) as (l & Hl & Hp). exists l. split; [|done].
      rewrite Hh, lookup_insert_ne; [done|]. intros ->. congruence.
    + exists line. split; [|done]. by rewrite Hh, lookup_insert_eq.
Qed.

Lemma remove_invariant key s s' :
  index_invariant s -> remove key s = Returned tt s' -> index_invariant s'.
Proof.
  intros (I1 & I2 & I3) Hrem.
  destruct (hashmap s !! key) as [line|] eqn:Hk.
  - pose proof (remove_outcome line key s I3 Hk) as H. rewrite Hrem in H.
    destruct H as (Hh & _ & Hb & Hr & _).
    split; [|split; [|done]].
    + intros k l. rewrite Hh. destruct (decide (k = key)) as [->|Hne].
      * by rewrite lookup_delete_eq.
      * rewrite lookup_delete_ne by done. intros Hl.
        destruct (I1 k l Hl). split; apply Hr; (split; [done|]); by intros [? _].
    + intros p k Hreg. apply Hr in Hreg as [Hreg Hn].
      destruct (I2 p k Hreg) as (l & Hl & Hp). exists l. split; [|done].
      rewrite Hh, lookup_delete_ne; [done|]. intros ->.
      apply Hn. split; [done|]. congruence.
  - rewrite remove_unknown in Hrem by done. by injection Hrem as <-.
Qed.

Lemma reachable_invariant s : reachable s -> index_invariant s.
Proof.
  induction 1 as [w h|s line key s' _ IH Hfresh Hadd|s key s' _ IH Hrem].
  - apply init_invariant.
  - by apply add_invariant with (line := line) (key := key) (s := s) (k' := key).
  - by apply remove_invariant with (key := key) (s := s).
Qed.

Lemma neighbouring_lines_rounded s key line tol :
  index_invariant s -> hashmap s !! key = Some line ->
  exists d, neighbouring_lines s key tol = Lines d /\
    d !! key = None /\
    forall k l, d !! k = Some l <->
      k <> key /\ hashmap s !! k = Some l /\
      (rounded_in_search_box line tol (start l) \/ rounded_in_search_box line tol (end_ l)).
Proof.
  intros (I1 & I2 & _) Hkey.
  destruct (neighbouring_lines_lookup s key line tol Hkey) as (d & Hd & Hiff).
  exists d. split; [done|]. split.
  - destruct (d !! key) as [l|] eqn:E; [|done]. apply Hiff in E as [? _]. done.
  - intros k l. rewrite Hiff. unfold rounded_in_search_box. split.
    + intros (Hne & Hl & p & Hreg & Hbb). split; [done|]. split; [done|].
      destruct (I2 p k Hreg) as (l' & Hl' & [-> | ->]);
        rewrite Hl in Hl'; injection Hl' as <-; auto.
    + intros (Hne & Hl & Hbb). split; [done|]. split; [done|].
      destruct (I1 k l Hl) as [Hs He].
      destruct Hbb as [Hbb|Hbb]; [by exists (rounded (start l))|by exists (rounded (end_ l))].
Qed.

Lemma neighbouring_lines_by_hashmap s t key tol :
  index_invariant s -> index_invariant t -> hashmap s = hashmap t ->
  neighbouring_lines s key tol = neighbouring_lines t key tol.
Proof.
  intros Is It Hh.
  destruct (hashmap s !! key) as [line|] eqn:Hk.
  - destruct (neighbouring_lines_rounded s key line tol Is Hk) as (d & -> & _ & Hd).
    rewrite Hh in Hk.
    destruct (neighbouring_lines_rounded t key line tol It Hk) as (d' & -> & _ & Hd').
    f_equal. apply map_eq. intros k. apply option_eq. intros l.
    rewrite Hd, Hd', Hh. done.
  - rewrite !neighbouring_lines_unknown; [done| |done]. by rewrite <- Hh.
Qed.

Lemma py_round_integer (q : Q) (a : Z) : (q == inject_Z a)%Q -> py_round q = a.
Proof.
  intros Hq. unfold py_round. cbv zeta.
  assert (Hf : Qfloor q = a) by (by rewrite Hq, Qfloor_Z).
  rewrite Hf.
  assert (Hr : Qltb (q - inject_Z a) (1 # 2) = true).
  { apply Qltb_lt. rewrite Hq. unfold Qminus. rewrite Qplus_opp_r. reflexivity. }
  by rewrite Hr.
Qed.

Lemma integral_in_search_box line tol (p : Point) :
  integral p -> rounded_in_search_box line tol p <-> in_search_box line tol p.
Proof.
  intros (a & b & Ha & Hb). unfold rounded_in_search_box, in_search_box, rounded, bb_contains.
  rewrite (py_round_integer _ _ Ha), (py_round_integer _ _ Hb). cbv zeta. simpl.
  rewrite !andb_true_iff, !Qle_bool_iff, <- Ha, <- Hb. tauto.
Qed.

Lemma run_app (cs cs' : list call) s :
  run (cs ++ cs') s = (run cs ;;; run cs') s.
Proof.
  revert s. induction cs as [|[line k|k] cs IH]; intros s; simpl.
  - reflexivity.
  - unfold bind. destruct (add line k s) as [? s1|e s1]; [apply IH|done].
  - unfold bind. destruct (remove k s) as [? s1|e s1]; [apply IH|done].
Qed.

Lemma same_but_run (k : string) (cs : list call) :
  forall s t s',
    same_but k s t -> NoDup (added_keys cs) ->
    (forall k', k' ∈ added_keys cs -> hashmap s !! k' = None) ->
    run cs s = Returned tt s' ->
    exists t', run (without k cs) t = Returned tt t' /\ same_but k s' t'.
Proof.
  induction cs as [|[line k'|k'] cs IH]; intros s t s' Hsim Hnd Hfresh Hrun.
  - simpl in Hrun. injection Hrun as <-. by exists t.
  - simpl in Hrun, Hnd, Hfresh. unfold bind in Hrun.
    apply NoDup_cons in Hnd as [Hnin Hnd].
    destruct Hsim as (Is & It & Hh & Hbb).
    assert (Hk' : hashmap s !! k' = None) by (apply Hfresh, elem_of_cons; by left).
    pose proof (add_outcome line k' s (proj2 (proj2 Is))) as Ha.
    destruct (add line k' s) as [r sa|e sa] eqn:Hadd; [|done].
    destruct Ha as (-> & Hha & Hbba & _ & Hin1 & Hin2 & _).
    assert (Isa : index_invariant sa) by (by apply (add_invariant line k' s k' sa)).
    assert (Hfresh' : forall k0, k0 ∈ added_keys cs -> hashmap sa !! k0 = None).
    { intros k0 Hk0. rewrite Hha, lookup_insert_ne.
      - apply Hfresh, elem_of_cons. by right.
      - intros ->. done. }
    unfold without. simpl. destruct (decide (k' = k)) as [->|Hne].
    + rewrite bool_decide_eq_false_2 by (intros H; by apply H).
      apply (IH sa t s'); try done.
      split; [done|]. split; [done|]. split; [|by rewrite Hbba].
      by rewrite Hha, delete_insert_eq.
    + rewrite bool_decide_eq_true_2 by done. simpl. unfold bind.
      pose proof (add_outcome line k' t (proj2 (proj2 It))) as Hb.
      destruct (add line k' t) as [r ta|e ta] eqn:Haddt.
      * destruct Hb as (-> & Hhb & Hbbb & _).
        apply (IH sa ta s'); try done.
        split; [done|]. split.
        { apply (add_invariant line k' t k' ta); [done| |done].
          rewrite Hh, lookup_delete_ne; [done|]. by intros ->. }
        split; [|by rewrite Hbbb, Hbba].
        rewrite Hhb, Hha, Hh. rewrite delete_insert_ne; [done|]. by intros ->.
      * destruct Hb as (_ & [Ho|Ho]); rewrite Hbb in Ho; congruence.
  - simpl in Hrun, Hnd, Hfresh. unfold bind in Hrun.
    destruct Hsim as (Is & It & Hh & Hbb).
    destruct (remove k' s) as [[] sr|e sr] eqn:Hrem; [|done].
    assert (Isr : index_invariant sr) by (by apply (remove_invariant k' s sr)).
    assert (Hhr : hashmap sr = delete k' (hashmap s) /\
                  bounding_box (qtree sr) = bounding_box (qtree s)).
    { destruct (hashmap s !! k') as [line|] eqn:Hk'.
      - pose proof (remove_outcome line k' s (proj2 (proj2 Is)) Hk') as Ho.
        rewrite Hrem in Ho. by destruct Ho as (? & ? & _).
      - rewrite remove_unknown in Hrem by done. injection Hrem as <-.
        by rewrite delete_id. }
    destruct Hhr as [Hhr Hbbr].
    assert (Hfresh' : forall k0, k0 ∈ added_keys cs -> hashmap sr !! k0 = None).
    { intros k0 Hk0. rewrite Hhr. apply lookup_delete_None. right. by apply Hfresh. }
    unfold without. simpl. destruct (decide (k' = k)) as [->|Hne].
    + rewrite bool_decide_eq_false_2 by (intros H; by apply H).
      apply (IH sr t s'); try done.
      split; [done|]. split; [done|]. split; [|by rewrite Hbbr].
      by rewrite Hhr, delete_delete_eq.
    + rewrite bool_decide_eq_true_2 by done. simpl. unfold bind.
      assert (Hex : exists tr, remove k' t = Returned tt tr /\
                               hashmap tr = delete k' (hashmap t) /\
                               bounding_box (qtree tr) = bounding_box (qtree t)).
      { destruct (hashmap s !! k') as [line|] eqn:Hk'.
        - assert (Hkt : hashmap t !! k' = Some line).
          { rewrite Hh, lookup_delete_ne; [done|]. by intros ->. }
          pose proof (remove_outcome line k' s (proj2 (proj2 Is)) Hk') as Hs.
          rewrite Hrem in Hs. destruct Hs as (_ & _ & _ & _ & Hdistinct).
          pose proof (remove_outcome line k' t (proj2 (proj2 It)) Hkt) as Ht.
          destruct (remove k' t) as [[] tr|e tr].
          + exists tr. by destruct Ht as (? & ? & _).
          + exfalso. destruct Ht as (_ & _ & Hsame).
            destruct (proj1 Is k' line Hk') as [Hrs _].
            destruct (proj1 It k' line Hkt) as [Hts Hte].
            by apply (Hdistinct Hrs), Hsame.
        - assert (Hkt : hashmap t !! k' = None).
          { rewrite Hh. apply lookup_delete_None. by right. }
          exists t. rewrite remove_unknown by done. by rewrite delete_id. }
      destruct Hex as (tr & Hremt & Hht & Hbbt). rewrite Hremt.
      apply (IH sr tr s'); try done.
      split; [done|]. split; [by apply (remove_invariant k' t tr)|].
      split; [|by rewrite Hbbt, Hbbr].
      by rewrite Hht, Hhr, Hh, delete_delete.
Qed.

(** After a [remove(k)] that returns, every query answers as on the index
    built by the same calls without those on [k]; the keys are fresh at
    each [add], as [uuid4] has them. *)
Lemma remove_as_never_inserted (k : string) (cs : list call) (width height : Q) s1 :
  NoDup (added_keys cs) ->
  run (cs ++ [Remove k]) (init width height) = Returned tt s1 ->
  exists s2, run (without k cs) (init width height) = Returned tt s2 /\
    forall key tol, neighbouring_lines s1 key tol = neighbouring_lines s2 key tol.
Proof.
  intros Hnd Hrun. rewrite run_app in Hrun. unfold bind in Hrun.
  destruct (run cs (init width height)) as [[] s|e s] eqn:Hcs; [|done].
  destruct (same_but_run k cs (init width height) (init width height) s) as (t & Ht & Hsim);
    try done.
  { split; [apply init_invariant|]. split; [apply init_invariant|]. split; [|done].
    simpl. by rewrite delete_empty. }
  exists t. split; [done|]. intros key tol.
  simpl in Hrun. unfold bind in Hrun.
  destruct (remove k s) as [[] sr|e sr] eqn:Hrem; [|done].
  injection Hrun as <-.
  destruct Hsim as (Is & It & Hh & _).
  apply neighbouring_lines_by_hashmap; [by apply (remove_invariant k s sr)|done|].
  rewrite Hh. destruct (hashmap s !! k) as [line|] eqn:Hk.
  - pose proof (remove_outcome line k s (proj2 (proj2 Is)) Hk) as Ho.
    rewrite Hrem in Ho. by destruct Ho as (? & _).
  - rewrite remove_unknown in Hrem by done. injection Hrem as <-. by rewrite delete_id.
Qed.

Lemma remove_returns_iff s key line :
  index_invariant s -> hashmap s !! key = Some line ->
  returns (remove key s) <-> rounded (start line) <> rounded (end_ line).
Proof.
  intros (I1 & _ & I3) Hk. destruct (I1 key line Hk) as [Hs He].
  pose proof (remove_outcome line key s I3 Hk) as Ho.
  destruct (remove key s) as [[] s'|e s']; simpl.
  - destruct Ho as (_ & _ & _ & _ & Hd). split; [intros _; by apply Hd|done].
  - destruct Ho as (_ & _ & Hsame). split; [done|]. intros Hne. by apply Hne, Hsame.
Qed.

(** C5, amended.  For every line whose key is live in an index and every
    tolerance, [neighbouring_lines] returns a dict that never holds the
    queried key and holds exactly the other live keys (with their lines)
    that the region index holds at a point within the box of the queried
    line's endpoints grown by the tolerance.  On an index built by
    [__init__] and [add] and [remove] calls that all returned, the points
    holding a key are the endpoints of its line rounded to the nearest
    integer, so the dict holds exactly the other live lines of which a
    rounded endpoint lies in the box; for lines with integer coordinates
    these are exactly the lines with an endpoint in that box. *)
Theorem neighbours_by_rounded_endpoints s key line tol :
  hashmap s !! key = Some line ->
  exists d, neighbouring_lines s key tol = Lines d /\
    d !! key = None /\
    (forall k l, d !! k = Some l <->
       k <> key /\ hashmap s !! k = Some l /\
       exists p, registered s p k /\ bb_contains (search_box line tol) p = true) /\
    (reachable s ->
     (forall k l, d !! k = Some l <->
        k <> key /\ hashmap s !! k = Some l /\
        (rounded_in_search_box line tol (start l) \/
         rounded_in_search_box line tol (end_ l))) /\
     ((forall k l, hashmap s !! k = Some l -> integral (start l) /\ integral (end_ l)) ->
      stated_neighbours s key tol)).
Proof.
  intros Hkey.
  destruct (neighbouring_lines_lookup s key line tol Hkey) as (d & Hd & Hstored).
  exists d. split; [done|]. split.
  { destruct (d !! key) as [l|] eqn:E; [|done]. apply Hstored in E as [? _]. done. }
  split; [done|].
  intros Hreach. apply reachable_invariant in Hreach.
  destruct (neighbouring_lines_rounded s key line tol Hreach Hkey)
    as (d' & Hd' & Hself & Hiff).
  rewrite Hd in Hd'. injection Hd' as <-.
  split; [done|].
  intros Hint. exists line, d. split; [done|]. split; [done|]. split; [done|].
  intros k l. rewrite Hiff. split.
  - intros (Hne & Hl & Hbox). split; [done|]. split; [done|].
    destruct (Hint k l Hl) as [Hs He].
    by rewrite <- (integral_in_search_box line tol _ Hs),
               <- (integral_in_search_box line tol _ He).
  - intros (Hne & Hl & Hbox). split; [done|]. split; [done|].
    destruct (Hint k l Hl) as [Hs He].
    by rewrite (integral_in_search_box line tol _ Hs),
               (integral_in_search_box line tol _ He).
Qed.

End QuadTreeFacts.

Section QuadTreeExamples.
Import QuadTree.

Lemma page_ab_reachable : reachable page_ab.
Proof.
  apply reachable_add with (s := page_a) (line := near_line) (line_key := "b").
  - apply reachable_add with (s := page) (line := base_line) (line_key := "a").
    + apply reachable_init.
    + reflexivity.
    + vm_compute. reflexivity.
  - vm_compute. reflexivity.
  - vm_compute. reflexivity.
Defined.

Lemma neighbours_by_rounded_endpoints_witness :
  (hashmap page_ab !! "a" = Some base_line /\ reachable page_ab) /\
  exists d, neighbouring_lines page_ab "a" (3 # 10) = Lines d /\ d !! "a" = None /\
    forall k l, d !! k = Some l <->
      k <> "a" /\ hashmap page_ab !! k = Some l /\
      (rounded_in_search_box base_line (3 # 10) (start l) \/
       rounded_in_search_box base_line (3 # 10) (end_ l)).
Proof.
  assert (Hk : hashmap page_ab !! "a" = Some base_line) by (vm_compute; reflexivity).
  split; [split; [exact Hk|exact page_ab_reachable]|].
  destruct (neighbours_by_rounded_endpoints page_ab "a" base_line (3 # 10) Hk)
    as (d & Hd & Hself & _ & Hreach).
  exists d. split; [exact Hd|]. split; [exact Hself|].
  exact (proj1 (Hreach page_ab_reachable)).
Defined.

(** C5 as stated does not hold.  On a 100 x 100 page the line "a" runs from
    (0, 0) to (10, 0) and the line "b" from (10.4, 0) to (50, 50).  With
    tolerance 0.3 the box of "a" reaches to x = 10.3, so no endpoint of "b"
    lies in it; the index holds (10.4, 0) as (10, 0), which does, and "b" is
    returned. *)
Lemma stated_neighbours_fails : ~ stated_neighbours page_ab "a" (3 # 10).
Proof.
  intros (line & d & Hline & Hd & _ & Hiff).
  assert (Hl : line = base_line).
  { assert (H : hashmap page_ab !! "a" = Some base_line) by (vm_compute; reflexivity).
    congruence. }
  subst line.
  assert (Hb : d !! "b" = Some near_line).
  { assert (H : neighbouring_lines page_ab "a" (3 # 10) = Lines {["b" := near_line]})
      by (vm_compute; reflexivity).
    rewrite H in Hd. injection Hd as <-. vm_compute. reflexivity. }
  apply Hiff in Hb as (_ & _ & [Hin|Hin]).
  - destruct Hin as (_ & Hx & _). vm_compute in Hx. by apply Hx.
  - destruct Hin as (_ & Hx & _). vm_compute in Hx. by apply Hx.
Qed.

(** C7 at the input the code fails on.  The line from (10.2, 5.4) to
    (10.4, 5.3) is added under key "c"; both endpoints are registered at
    the point (10, 5).  [remove("c")] takes the key out of the set of that
    point for the start and raises [KeyError] for the end, before the key
    leaves the hashmap: a query on "c" then answers with a dict, where the
    index on which "c" was never inserted answers with the empty list. *)
Theorem short_line_remove_raises :
  add short_line "c" page = Returned "c" page_c /\
  hashmap page_c !! "c" = Some short_line /\
  rounded (start short_line) = rounded (end_ short_line) /\
  exists s', remove "c" page_c = Raised KeyError s' /\
    hashmap s' !! "c" = Some short_line /\
    neighbouring_lines s' "c" 5 = Lines ∅ /\
    neighbouring_lines page "c" 5 = EmptyList.
Proof.
  split; [vm_compute; reflexivity|]. split; [vm_compute; reflexivity|].
  split; [vm_compute; reflexivity|].
  exists (store_of (remove "c" page_c)).
  split; [vm_compute; reflexivity|]. split; [vm_compute; reflexivity|].
  split; vm_compute; reflexivity.
Qed.

End QuadTreeExamples.

(** * Further properties of the code *)

(** ** Metrics: bounds, closed form, composition *)

Section MetricsMore.
Import Evaluation.

Lemma ratio_le_one (a b : Z) : 0 <= a -> a <= b -> 0 < b -> (inject_Z a / inject_Z b <= 1)%Q.
Proof.
  intros Ha Hab Hb. apply Qle_shift_div_r.
  - change 0%Q with (inject_Z 0). by rewrite <- Zlt_Qlt.
  - rewrite Qmult_1_l. by rewrite <- Zle_Qle.
Qed.

Lemma precision_le_one (m : Metrics) : is_count m -> (precision m <= 1)%Q.
Proof.
  intros (Ht & Hp & Hn). unfold precision.
  destruct (0 <? tp m + fp m) eqn:E; [|done].
  apply Z.ltb_lt in E. apply ratio_le_one; lia.
Qed.

Lemma recall_le_one (m : Metrics) : is_count m -> (recall m <= 1)%Q.
Proof.
  intros (Ht & Hp & Hn). unfold recall.
  destruct (0 <? tp m + fn m) eqn:E; [|done].
  apply Z.ltb_lt in E. apply ratio_le_one; lia.
Qed.

Lemma harmonic_bounds (p r : Q) :
  (0 <= p <= 1)%Q -> (0 <= r <= 1)%Q -> (0 < p + r)%Q ->
  (0 <= 2 * p * r / (p + r) <= 1)%Q.
Proof.
  intros [Hp0 Hp1] [Hr0 Hr1] Hs. split.
  - apply Qle_shift_div_l; [done|]. rewrite Qmult_0_l. nra.
  - apply Qle_shift_div_r; [done|]. rewrite Qmult_1_l. nra.
Qed.

(** X1.  For counters that count, precision, recall and F1 all lie between
    0 and 1. *)
Theorem scores_between_zero_and_one (m : Metrics) :
  is_count m ->
  (0 <= precision m <= 1)%Q /\ (0 <= recall m <= 1)%Q /\ (0 <= f1 m <= 1)%Q.
Proof.
  intros Hc.
  assert (HP : (0 <= precision m <= 1)%Q)
    by (split; [by apply precision_nonneg|by apply precision_le_one]).
  assert (HR : (0 <= recall m <= 1)%Q)
    by (split; [by apply recall_nonneg|by apply recall_le_one]).
  split; [done|]. split; [done|].
  unfold f1. cbv zeta.
  destruct (Qltb 0 (precision m + recall m)) eqn:E; [|done].
  apply Qltb_lt in E. by apply harmonic_bounds.
Qed.

Lemma scores_between_zero_and_one_witness :
  is_count (mkMetrics 3 1 1) /\ (0 <= f1 (mkMetrics 3 1 1) <= 1)%Q.
Proof.
  assert (Hc : is_count (mkMetrics 3 1 1)) by (unfold is_count; simpl; lia).
  split; [exact Hc|].
  apply (scores_between_zero_and_one (mkMetrics 3 1 1) Hc).
Defined.

Lemma ratio_pos (a b : Z) : 0 < a -> 0 < b -> (0 < inject_Z a / inject_Z b)%Q.
Proof.
  intros Ha Hb. apply Qlt_shift_div_l.
  - change 0%Q with (inject_Z 0). by rewrite <- Zlt_Qlt.
  - rewrite Qmult_0_l. change 0%Q with (inject_Z 0). by rewrite <- Zlt_Qlt.
Qed.

(** X2.  F1 is 0 exactly when there is no true positive, and it is the
    same when the false positives and the false negatives change places
    (precision and recall then change places). *)
Theorem f1_zero_iff_and_symmetric (m : Metrics) :
  is_count m ->
  ((f1 m == 0)%Q <-> tp m = 0) /\
  precision (mkMetrics (tp m) (fn m) (fp m)) = recall m /\
  recall (mkMetrics (tp m) (fn m) (fp m)) = precision m /\
  (f1 (mkMetrics (tp m) (fn m) (fp m)) == f1 m)%Q.
Proof.
  intros (Ht & Hp & Hn).
  assert (HP : (0 <= precision m)%Q) by (by apply precision_nonneg).
  assert (HR : (0 <= recall m)%Q) by (by apply recall_nonneg).
  split; [|split; [reflexivity|split; [reflexivity|]]].
  - split.
    + intros Hz. destruct (decide (tp m = 0)) as [|Hne]; [done|]. exfalso.
      assert (Hpos : 0 < tp m) by lia.
      assert (H1 : (0 < precision m)%Q).
      { rewrite precision_pos by lia. apply ratio_pos; lia. }
      assert (H2 : (0 < recall m)%Q).
      { rewrite recall_pos by lia. apply ratio_pos; lia. }
      unfold f1 in Hz. cbv zeta in Hz.
      assert (E : Qltb 0 (precision m + recall m) = true) by (apply Qltb_lt; lra).
      rewrite E in Hz.
      assert (Hf : (0 < 2 * precision m * recall m / (precision m + recall m))%Q).
      { apply Qlt_shift_div_l; [lra|]. rewrite Qmult_0_l. nra. }
      rewrite Hz in Hf. by apply Qlt_irrefl in Hf.
    + intros H0. rewrite f1_zero; [reflexivity|done|].
      unfold precision, recall. rewrite H0.
      destruct (0 <? 0 + fp m), (0 <? 0 + fn m); reflexivity.
  - unfold f1. cbv zeta.
    change (precision (mkMetrics (tp m) (fn m) (fp m))) with (recall m).
    change (recall (mkMetrics (tp m) (fn m) (fp m))) with (precision m).
    destruct (Qltb 0 (precision m + recall m)) eqn:E.
    + assert (E' : Qltb 0 (recall m + precision m) = true).
      { apply Qltb_lt. apply Qltb_lt in E. lra. }
      rewrite E'. apply Qltb_lt in E. field. lra.
    + assert (E' : Qltb 0 (recall m + precision m) = false).
      { apply Qltb_ge. apply Qltb_ge in E. lra. }
      rewrite E'. reflexivity.
Qed.

Lemma f1_zero_iff_and_symmetric_witness :
  is_count (mkMetrics 3 1 2) /\
  (f1 (mkMetrics 3 2 1) == f1 (mkMetrics 3 1 2))%Q.
Proof.
  assert (Hc : is_count (mkMetrics 3 1 2)) by (unfold is_count; simpl; lia).
  split; [exact Hc|].
  apply (f1_zero_iff_and_symmetric (mkMetrics 3 1 2) Hc).
Defined.

Lemma metrics_add_comm (a b : Metrics) : metrics_add a b = metrics_add b a.
Proof. unfold metrics_add. f_equal; lia. Qed.

Lemma metrics_add_assoc (a b c : Metrics) :
  metrics_add a (metrics_add b c) = metrics_add (metrics_add a b) c.
Proof. unfold metrics_add. simpl. f_equal; lia. Qed.

Lemma from_metric_list_app (l1 l2 : list Metrics) :
  from_metric_list (l1 ++ l2) = metrics_add (from_metric_list l1) (from_metric_list l2).
Proof.
  induction l1 as [|m l1 IH]; simpl.
  - destruct (from_metric_list l2) as [t p n]. unfold metrics_add. simpl.
    change (from_metric_list []) with (mkMetrics 0 0 0). simpl. f_equal; lia.
  - rewrite !from_metric_list_cons, IH. apply metrics_add_assoc.
Qed.

Lemma from_metric_list_perm (l1 l2 : list Metrics) :
  l1 ≡ₚ l2 -> from_metric_list l1 = from_metric_list l2.
Proof.
  induction 1 as [|m l1 l2 _ IH|a b l|l1 l2 l3 _ IH1 _ IH2].
  - done.
  - by rewrite !from_metric_list_cons, IH.
  - rewrite !from_metric_list_cons, !metrics_add_assoc.
    by rewrite (metrics_add_comm b a).
  - by rewrite IH1.
Qed.

(** X3.  [from_metric_list] composes: the metrics of two collections put
    together are the component-wise sum of the metrics of each, and the order
    of the members does not matter. *)
Theorem from_metric_list_composes (l1 l2 : list Metrics) :
  from_metric_list (l1 ++ l2) = metrics_add (from_metric_list l1) (from_metric_list l2) /\
  (l1 ≡ₚ l2 -> from_metric_list l1 = from_metric_list l2).
Proof. split; [apply from_metric_list_app|apply from_metric_list_perm]. Qed.

Lemma from_metric_list_composes_witness :
  [mkMetrics 1 0 0; mkMetrics 2 1 0] ≡ₚ [mkMetrics 2 1 0; mkMetrics 1 0 0] /\
  from_metric_list [mkMetrics 1 0 0; mkMetrics 2 1 0]
  = from_metric_list [mkMetrics 2 1 0; mkMetrics 1 0 0].
Proof.
  assert (Hp : [mkMetrics 1 0 0; mkMetrics 2 1 0] ≡ₚ [mkMetrics 2 1 0; mkMetrics 1 0 0])
    by apply Permutation_swap.
  split; [exact Hp|].
  by apply (from_metric_list_composes [mkMetrics 1 0 0; mkMetrics 2 1 0]
              [mkMetrics 2 1 0; mkMetrics 1 0 0]).
Defined.

(** X4.  The corpus scores of [get_cumulated_metrics] come under six keys,
    computed from the summed counters of all files; they do not depend on the
    order in which the files were appended, and on an empty corpus they are
    all 0, where [get_document_level_metrics] raises. *)
Theorem cumulated_metrics_by_sum (o o' : OverallBoreholeMetadataMetrics) :
  let E := elementwise_sum
             (map (fun b : FileBoreholeMetadataMetrics => elevation_metrics b)
                  (borehole_metadata_metrics o)) in
  let C := elementwise_sum
             (map (fun b : FileBoreholeMetadataMetrics => coordinates_metrics b)
                  (borehole_metadata_metrics o)) in
  get_cumulated_metrics o =
    [ ("elevation_precision", precision E); ("elevation_recall", recall E);
      ("elevation_f1", f1 E);
      ("coordinate_precision", precision C); ("coordinate_recall", recall C);
      ("coordinate_f1", f1 C) ] /\
  (borehole_metadata_metrics o ≡ₚ borehole_metadata_metrics o' ->
   get_cumulated_metrics o = get_cumulated_metrics o') /\
  get_cumulated_metrics overall_init =
    [ ("elevation_precision", 0%Q); ("elevation_recall", 0%Q); ("elevation_f1", 0%Q);
      ("coordinate_precision", 0%Q); ("coordinate_recall", 0%Q); ("coordinate_f1", 0%Q) ] /\
  get_document_level_metrics overall_init = None.
Proof.
  intros E C. split; [|split; [|split; reflexivity]].
  - unfold get_cumulated_metrics. cbv zeta.
    rewrite !from_metric_list_elementwise. reflexivity.
  - intros Hp. unfold get_cumulated_metrics. cbv zeta.
    rewrite (from_metric_list_perm
               (map (fun b : FileBoreholeMetadataMetrics => elevation_metrics b)
                    (borehole_metadata_metrics o))
               (map (fun b : FileBoreholeMetadataMetrics => elevation_metrics b)
                    (borehole_metadata_metrics o'))) by (by apply Permutation_map).
    rewrite (from_metric_list_perm
               (map (fun b : FileBoreholeMetadataMetrics => coordinates_metrics b)
                    (borehole_metadata_metrics o))
               (map (fun b : FileBoreholeMetadataMetrics => coordinates_metrics b)
                    (borehole_metadata_metrics o'))) by (by apply Permutation_map).
    reflexivity.
Qed.

Lemma cumulated_metrics_by_sum_witness :
  borehole_metadata_metrics (mkOverall [file_a; file_b])
    ≡ₚ borehole_metadata_metrics (mkOverall [file_b; file_a]) /\
  get_cumulated_metrics (mkOverall [file_a; file_b])
  = get_cumulated_metrics (mkOverall [file_b; file_a]).
Proof.
  assert (Hp : borehole_metadata_metrics (mkOverall [file_a; file_b])
                 ≡ₚ borehole_metadata_metrics (mkOverall [file_b; file_a]))
    by apply Permutation_swap.
  split; [exact Hp|].
  by apply (cumulated_metrics_by_sum (mkOverall [file_a; file_b]) (mkOverall [file_b; file_a])).
Defined.

End MetricsMore.

(** ** Metadata evaluation: keys written, empty ground truth, frames *)

Lemma floor_unique (x : Q) (z : Z) :
  (inject_Z z <= x)%Q -> (x < inject_Z (z + 1))%Q -> Qfloor x = z.
Proof.
  intros Hle Hlt. apply Z.le_antisymm.
  - assert (H : (inject_Z (Qfloor x) < inject_Z (z + 1))%Q).
    { eapply Qle_lt_trans; [apply Qfloor_le|done]. }
    rewrite <- Zlt_Qlt in H. lia.
  - rewrite <- (Qfloor_Z z). by apply Qfloor_resp_le.
Qed.

Lemma Qfloor_add_Z (q : Q) (k : Z) : Qfloor (q + inject_Z k) = Qfloor q + k.
Proof.
  apply floor_unique.
  - rewrite inject_Z_plus. apply Qplus_le_l. apply Qfloor_le.
  - replace (Qfloor q + k + 1) with ((Qfloor q + 1) + k) by lia.
    rewrite inject_Z_plus. apply Qplus_lt_l. apply Qlt_floor.
Qed.

Lemma py_int_floor (q : Q) : (0 <= q)%Q -> py_int q = Qfloor q.
Proof.
  destruct q as [n d]. unfold Qle, py_int, Qfloor. simpl. intros H.
  apply Z.quot_div_nonneg; lia.
Qed.

Lemma py_int_add_Z (q : Q) (k : Z) :
  (0 <= q)%Q -> 0 <= k -> py_int (q + inject_Z k) = py_int q + k.
Proof.
  intros Hq Hk. rewrite !py_int_floor; [apply Qfloor_add_Z|done|].
  assert (0 <= inject_Z k)%Q by (change 0%Q with (inject_Z 0); by rewrite <- Zle_Qle).
  lra.
Qed.

Lemma isclose_same (a b tol : Q) : (a == b)%Q -> isclose a b tol = true.
Proof. intros H. unfold isclose. apply Qeq_bool_iff in H. by rewrite H. Qed.

Section MetadataMore.
Import Metadata.

Variable info_correct : GroundwaterInformation -> GroundwaterInformation -> bool.
Variable depth_correct : GroundwaterInformation -> option Q -> bool.
Variable elevation_correct : GroundwaterInformation -> option Q -> bool.
Variable date_correct : GroundwaterInformation -> option string -> bool.

Local Abbreviation run_metadata :=
  (evaluate_metadata info_correct depth_correct elevation_correct date_correct).

(** X5.  A call of [evaluate_metadata] that returns has written all five
    keys of [metadata_is_correct] and has left every other entry of the dict
    as it was. *)
Theorem returning_call_writes_five_keys
    (file_name : string) (self_metadata : option BoreholeMetaData)
    (gt : option GroundTruthMetadata) (st st' : EvalStore) :
  run_metadata file_name self_metadata gt st = Returned tt st' ->
  (forall key, key ∈ ["coordinates"; "groundwater_information";
                      "groundwater_information_depth";
                      "groundwater_information_elevation";
                      "groundwater_information_date"] ->
     is_Some (metadata_is_correct st' !! key)) /\
  (forall key, key ∉ ["coordinates"; "groundwater_information";
                      "groundwater_information_depth";
                      "groundwater_information_elevation";
                      "groundwater_information_date"] ->
     metadata_is_correct st' !! key = metadata_is_correct st !! key).
Proof.
  destruct self_metadata as [metadata|]; [|done].
  unfold evaluate_metadata, bind. rewrite evaluate_coordinates_store.
  unfold evaluate_groundwater.
  destruct (groundwater_information metadata) as [gw|];
    [destruct (gt ≫= gt_groundwater) as [[|first rest]|]|];
    try (destruct (1 <? length (first :: rest))%nat); cbn; try done;
    intros [= <-]; simpl; (split; [intros key Hk|intros key Hk]).
  all: try (repeat (apply elem_of_cons in Hk as [->|Hk]; [by simplify_map_eq|]);
            by apply elem_of_nil in Hk).
  all: rewrite !lookup_insert_ne; [done|..];
       intros <-; apply Hk; repeat first [by apply elem_of_cons; left|apply elem_of_cons; right].
Qed.

(** X6.  When the prediction carries groundwater data and the ground truth
    has a groundwater list that is empty, [evaluate_metadata] raises
    [IndexError]: the coordinates flag is already written, no groundwater
    flag is, and nothing is logged. *)
Theorem empty_groundwater_list_raises
    (file_name : string) (metadata : BoreholeMetaData) (gt : GroundTruthMetadata)
    (extracted : GroundwaterInformation) (st : EvalStore) :
  groundwater_information metadata = Some extracted ->
  gt_groundwater gt = Some [] ->
  run_metadata file_name (Some metadata) (Some gt) st
  = Raised IndexError
      (mkEvalStore (<["coordinates" := coordinates_flag metadata (Some gt)]>
                      (metadata_is_correct st)) (warnings st)).
Proof.
  intros Hgw Hgt. unfold evaluate_metadata, bind.
  rewrite evaluate_coordinates_store. unfold evaluate_groundwater. simpl.
  rewrite Hgw, Hgt. reflexivity.
Qed.

(** X7.  A coordinate and its translate into the other reference frame are
    judged equal: with 0 < E < 2,000,000 and N >= 0, the prediction
    (E + 2,000,000 / N + 1,000,000) against the ground truth (E / N), and
    the prediction (E / N) against the ground truth
    (E + 2,000,000 / N + 1,000,000), both set the coordinates flag to
    [True]. *)
Theorem translated_frames_agree
    (file_name : string) (E N : Q) (groundwater : option GroundwaterInformation)
    (gt_water : option (list GroundwaterInformation)) (st : EvalStore) :
  (0 < E)%Q -> (E < 2000000)%Q -> (0 <= N)%Q ->
  let old_frame := mkCoordinate (mkCoordinateEntry E) (mkCoordinateEntry N) in
  let new_frame :=
    mkCoordinate (mkCoordinateEntry (E + 2000000)) (mkCoordinateEntry (N + 1000000)) in
  metadata_is_correct
    (store_of (run_metadata file_name (Some (mkBoreholeMetaData (Some new_frame) groundwater))
                 (Some (mkGroundTruthMetadata (Some (E, N)) gt_water)) st))
    !! "coordinates" = Some (Some true) /\
  metadata_is_correct
    (store_of (run_metadata file_name (Some (mkBoreholeMetaData (Some old_frame) groundwater))
                 (Some (mkGroundTruthMetadata
                          (Some (E + 2000000, N + 1000000)%Q) gt_water)) st))
    !! "coordinates" = Some (Some true).
Proof.
  intros HE0 HE1 HN old_frame new_frame.
  assert (HiE : py_int (E + 2000000) = py_int E + 2000000)
    by (apply (py_int_add_Z E 2000000); [lra|lia]).
  assert (HiN : py_int (N + 1000000) = py_int N + 1000000)
    by (apply (py_int_add_Z N 1000000); [lra|lia]).
  split; rewrite evaluate_metadata_coordinates; unfold coordinates_flag; simpl;
    unfold ground_truth_in_frame.
  - assert (H1 : Qltb 2000000 (E + 2000000) = true) by (apply Qltb_lt; lra).
    assert (H2 : Qltb E 2000000 = true) by (by apply Qltb_lt).
    rewrite H1, H2. simpl. rewrite HiE, HiN, !inject_Z_plus.
    rewrite !isclose_same; reflexivity.
  - assert (H1 : Qltb 2000000 E = false) by (apply Qltb_ge; lra).
    assert (H2 : Qltb E 2000000 = true) by (by apply Qltb_lt).
    assert (H3 : Qltb 2000000 (E + 2000000) = true) by (apply Qltb_lt; lra).
    rewrite H1, H2, H3. simpl. rewrite HiE, HiN, !inject_Z_plus.
    rewrite !isclose_same; [reflexivity|..].
    + change (inject_Z 1000000) with 1000000%Q. ring.
    + change (inject_Z 2000000) with 2000000%Q. ring.
Qed.

End MetadataMore.

Section MetadataMoreExamples.
Import Metadata.

Lemma returning_call_writes_five_keys_witness :
  evaluate_metadata_by_equality "a.pdf" (Some sample_prediction) (Some sample_ground_truth)
    empty_store
  = Returned tt (store_of (evaluate_metadata_by_equality "a.pdf" (Some sample_prediction)
                             (Some sample_ground_truth) empty_store)) /\
  is_Some (metadata_is_correct
             (store_of (evaluate_metadata_by_equality "a.pdf" (Some sample_prediction)
                          (Some sample_ground_truth) empty_store))
           !! "groundwater_information_date").
Proof.
  assert (Hr : evaluate_metadata_by_equality "a.pdf" (Some sample_prediction)
                 (Some sample_ground_truth) empty_store
               = Returned tt (store_of (evaluate_metadata_by_equality "a.pdf"
                                          (Some sample_prediction)
                                          (Some sample_ground_truth) empty_store)))
    by (vm_compute; reflexivity).
  split; [exact Hr|].
  apply (returning_call_writes_five_keys same_information same_depth same_elevation same_day
           "a.pdf" (Some sample_prediction) (Some sample_ground_truth) empty_store _ Hr).
  repeat first [by apply elem_of_cons; left|apply elem_of_cons; right].
Defined.

Lemma empty_groundwater_list_raises_witness :
  groundwater_information wet_prediction = Some reading_a /\
  gt_groundwater (mkGroundTruthMetadata None (Some [])) = Some [] /\
  evaluate_metadata_by_equality "a.pdf" (Some wet_prediction)
    (Some (mkGroundTruthMetadata None (Some []))) empty_store
  = Raised IndexError (mkEvalStore (<["coordinates" := None]> ∅) []).
Proof.
  split; [reflexivity|]. split; [reflexivity|].
  apply (empty_groundwater_list_raises same_information same_depth same_elevation same_day
           "a.pdf" wet_prediction (mkGroundTruthMetadata None (Some [])) reading_a
           empty_store eq_refl eq_refl).
Defined.

Lemma translated_frames_agree_witness :
  (0 < 600000)%Q /\ (600000 < 2000000)%Q /\ (0 <= 200000)%Q /\
  metadata_is_correct
    (store_of (evaluate_metadata_by_equality "a.pdf"
                 (Some (mkBoreholeMetaData
                          (Some (mkCoordinate (mkCoordinateEntry (600000 + 2000000))
                                   (mkCoordinateEntry (200000 + 1000000)))) None))
                 (Some (mkGroundTruthMetadata (Some (600000, 200000)%Q) None)) empty_store))
    !! "coordinates" = Some (Some true).
Proof.
  split; [reflexivity|]. split; [reflexivity|]. split; [discriminate|].
  apply (translated_frames_agree same_information same_depth same_elevation same_day
           "a.pdf" 600000 200000 None None empty_store); [reflexivity|reflexivity|discriminate].
Defined.

End MetadataMoreExamples.

(** ** Layer matching: returning runs, empty pools, counts *)

Section MatchingMore.
Import Matching.

Variable parse_text : string -> string.
Variable ratio : string -> string -> Q.

Local Abbreviation run_layers := (evaluate_layers parse_text ratio).
Local Abbreviation run_loop := (evaluate_loop parse_text ratio).
Local Abbreviation run_find := (_find_matching_layer parse_text ratio).

(** X8.  Every run of [evaluate_layers] that returns has evaluated each
    layer, in order and on the pool its predecessors left, in one of three
    ways: no candidate (ratio above 0.9) in the pool, flags [False]/[None],
    pool unchanged; or the first candidate with an exact depth match removed
    from the pool, flags [True]/[True]; or, no candidate matching exactly,
    a candidate of highest ratio removed, flags [True]/[False].  The entries
    removed and the pool left make up the ground truth again. *)
Theorem returning_evaluation_as_stated
    (layers layers' : list LayerPrediction) (ground_truth pool' : list GroundTruthLayer) :
  run_layers layers ground_truth = Returned layers' pool' ->
  evaluated parse_text ratio ground_truth layers layers' pool' /\
  length layers' = length layers /\
  exists used, ground_truth ≡ₚ used ++ pool' /\ length used = length (matched layers').
Proof.
  intros Hr. by apply (evaluate_layers_as_stated parse_text ratio layers ground_truth).
Qed.

Lemma no_candidate_find (layer : LayerPrediction) (pool : list GroundTruthLayer) :
  (forall g, g ∈ pool -> ~ is_candidate parse_text ratio layer g) ->
  run_find layer pool = Returned (None, None) pool.
Proof.
  intros Hno. unfold _find_matching_layer. cbv zeta. unfold bind at 1, get.
  fold (candidates parse_text ratio layer pool).
  destruct (candidates parse_text ratio layer pool) as [|c cs] eqn:Hc; [done|].
  exfalso. assert (Hin : c ∈ candidates parse_text ratio layer pool)
    by (rewrite Hc; apply elem_of_cons; by left).
  apply candidates_elem in Hin as [Hp Hcand]. by apply (Hno c).
Qed.

(** X9.  When no ground-truth entry is a candidate for any layer (so in
    particular on an empty ground truth), [evaluate_layers] returns, marks
    every layer material incorrect with the interval flag [None], and leaves
    the pool as it was; this holds for every shape of depth interval. *)
Theorem no_candidates_all_incorrect
    (layers : list LayerPrediction) (ground_truth : list GroundTruthLayer) :
  (forall layer g, layer ∈ layers -> g ∈ ground_truth ->
                   ~ is_candidate parse_text ratio layer g) ->
  run_layers layers ground_truth
  = Returned (map (fun layer => with_flags layer (Some false) None) layers) ground_truth.
Proof.
  unfold evaluate_layers. cbv zeta.
  induction layers as [|layer rest IH]; intros Hno; [done|].
  simpl. unfold bind at 1. rewrite no_candidate_find.
  - unfold bind at 1. rewrite IH.
    + reflexivity.
    + intros l g Hl. apply Hno. apply elem_of_cons. by right.
  - intros g Hg. apply Hno; [apply elem_of_cons; by left|done].
Qed.

Lemma layer_as_stated_payload pool layer layer' pool' :
  layer_as_stated parse_text ratio pool layer layer' pool' ->
  material_description layer' = material_description layer /\
  depth_interval layer' = depth_interval layer /\ id layer' = id layer /\
  (depth_interval layer = None -> depth_interval_is_correct layer' <> Some true).
Proof.
  intros [(_ & -> & _)|[(m & _ & Hex & _ & -> & _)|(_ & _ & m & _ & _ & -> & _)]];
    repeat split; try done.
  intros Hnone. by apply no_interval_no_exact with (g := m) in Hnone.
Qed.

Lemma evaluated_payload pool layers layers' pool' :
  evaluated parse_text ratio pool layers layers' pool' ->
  Forall2 (fun layer layer' =>
             material_description layer' = material_description layer /\
             depth_interval layer' = depth_interval layer /\ id layer' = id layer /\
             (depth_interval layer = None -> depth_interval_is_correct layer' <> Some true))
          layers layers'.
Proof.
  induction 1 as [pool|pool layer layer' pool1 rest rest' pool2 Hstep _ IH];
    constructor; [by apply layer_as_stated_payload with (pool := pool) (pool' := pool1)|done].
Qed.

(** X10.  In a run that returns, the layers come back in their order with
    text, interval and id untouched; the number of layers marked material
    correct is the number of ground-truth entries taken from the pool, so it
    exceeds neither the number of layers nor the number of ground-truth
    entries. *)
Theorem matched_layers_counted
    (layers layers' : list LayerPrediction) (ground_truth pool' : list GroundTruthLayer) :
  run_layers layers ground_truth = Returned layers' pool' ->
  Forall2 (fun layer layer' =>
             material_description layer' = material_description layer /\
             depth_interval layer' = depth_interval layer /\ id layer' = id layer)
          layers layers' /\
  (length (matched layers') + length pool' = length ground_truth)%nat /\
  (length (matched layers') <= length layers)%nat /\
  (length (matched layers') <= length ground_truth)%nat.
Proof.
  intros Hr.
  destruct (proj1 (evaluate_layers_as_stated parse_text ratio layers ground_truth) _ _ Hr)
    as (Hev & Hlen & used & Hp & Hu).
  split.
  { eapply Forall2_impl; [by apply evaluated_payload with (pool := ground_truth) (pool' := pool')|].
    intros l l' (? & ? & ? & _). done. }
  assert (Hsum : (length (matched layers') + length pool' = length ground_truth)%nat).
  { rewrite Hp, length_app. lia. }
  split; [done|]. split; [|lia].
  rewrite <- Hlen. unfold matched. apply List.filter_length_le.
Qed.

(** X11.  A layer without depth interval never makes [_find_matching_layer]
    raise, and in a run that returns it is never marked interval-correct:
    at best its material is correct and its interval incorrect. *)
Theorem no_interval_never_exact
    (layer : LayerPrediction) (pool : list GroundTruthLayer)
    (layers layers' : list LayerPrediction) (ground_truth pool' : list GroundTruthLayer) :
  (depth_interval layer = None -> returns (run_find layer pool)) /\
  (run_layers layers ground_truth = Returned layers' pool' ->
   forall l', l' ∈ layers' -> depth_interval l' = None ->
              depth_interval_is_correct l' <> Some true).
Proof.
  split.
  - intros Hnone. apply find_returns_iff. apply end_present_no_fault.
    intros i Hi. congruence.
  - intros Hr l' Hin Hnone.
    destruct (proj1 (evaluate_layers_as_stated parse_text ratio layers ground_truth) _ _ Hr)
      as (Hev & _).
    apply evaluated_payload in Hev.
    apply list_elem_of_lookup in Hin as [i Hi].
    destruct (Forall2_lookup_r _ _ _ _ _ Hev Hi) as (l & Hl & _ & Hd & _ & Hflag).
    apply Hflag. congruence.
Qed.

End MatchingMore.

Section MatchingMoreExamples.
Import Matching.

Lemma returning_evaluation_as_stated_witness :
  evaluate_layers plain_text levenshtein_ratio [top_layer; bare_layer] [sand_0_2]
  = Returned [with_flags top_layer (Some true) (Some true);
              with_flags bare_layer (Some false) None] [] /\
  evaluated plain_text levenshtein_ratio [sand_0_2] [top_layer; bare_layer]
    [with_flags top_layer (Some true) (Some true); with_flags bare_layer (Some false) None] [].
Proof.
  assert (Hr : evaluate_layers plain_text levenshtein_ratio [top_layer; bare_layer] [sand_0_2]
               = Returned [with_flags top_layer (Some true) (Some true);
                           with_flags bare_layer (Some false) None] [])
    by (vm_compute; reflexivity).
  split; [exact Hr|].
  apply (returning_evaluation_as_stated plain_text levenshtein_ratio _ _ _ _ Hr).
Defined.

Lemma no_candidates_all_incorrect_witness :
  (forall layer g, layer ∈ [open_layer; bare_layer] -> g ∈ @nil GroundTruthLayer ->
                   ~ is_candidate plain_text levenshtein_ratio layer g) /\
  evaluate_layers plain_text levenshtein_ratio [open_layer; bare_layer] []
  = Returned [with_flags open_layer (Some false) None;
              with_flags bare_layer (Some false) None] [].
Proof.
  assert (Hno : forall layer g, layer ∈ [open_layer; bare_layer] ->
                                g ∈ @nil GroundTruthLayer ->
                                ~ is_candidate plain_text levenshtein_ratio layer g).
  { intros layer g _ Hg. by apply elem_of_nil in Hg. }
  split; [exact Hno|].
  apply (no_candidates_all_incorrect plain_text levenshtein_ratio
           [open_layer; bare_layer] [] Hno).
Defined.

Lemma matched_layers_counted_witness :
  evaluate_layers plain_text levenshtein_ratio [top_layer; bare_layer] [sand_0_2]
  = Returned [with_flags top_layer (Some true) (Some true);
              with_flags bare_layer (Some false) None] [] /\
  (length (matched [with_flags top_layer (Some true) (Some true);
                    with_flags bare_layer (Some false) None])
   <= length [sand_0_2])%nat.
Proof.
  assert (Hr : evaluate_layers plain_text levenshtein_ratio [top_layer; bare_layer] [sand_0_2]
               = Returned [with_flags top_layer (Some true) (Some true);
                           with_flags bare_layer (Some false) None] [])
    by (vm_compute; reflexivity).
  split; [exact Hr|].
  apply (matched_layers_counted plain_text levenshtein_ratio _ _ _ _ Hr).
Defined.

Lemma no_interval_never_exact_witness :
  depth_interval bare_layer = None /\
  returns (_find_matching_layer plain_text levenshtein_ratio bare_layer [sand_0_2]).
Proof.
  split; [reflexivity|].
  apply (no_interval_never_exact plain_text levenshtein_ratio bare_layer [sand_0_2]
           [] [] [] []).
  reflexivity.
Defined.

End MatchingMoreExamples.

(** ** Duplicate layers: what is always kept, the patch, the early stop *)

Lemma min2_le_l (a b : Q) : (min2 a b <= a)%Q.
Proof.
  unfold min2. destruct (Qltb b a) eqn:E; [|apply Qle_refl].
  apply Qltb_lt in E. by apply Qlt_le_weak.
Qed.

Lemma min2_le_r (a b : Q) : (min2 a b <= b)%Q.
Proof.
  unfold min2. destruct (Qltb b a) eqn:E; [apply Qle_refl|]. by apply Qltb_ge in E.
Qed.

Lemma max2_ge_r (a b : Q) : (b <= max2 a b)%Q.
Proof.
  unfold max2. destruct (Qltb a b) eqn:E; [apply Qle_refl|]. by apply Qltb_ge in E.
Qed.

Lemma py_int_nonneg (q : Q) : (0 <= q)%Q -> 0 <= py_int q.
Proof.
  intros H. rewrite py_int_floor by done.
  rewrite <- (Qfloor_Z 0). by apply Qfloor_resp_le.
Qed.

Lemma py_int_nonpos (q : Q) : (q <= 0)%Q -> py_int q <= 0.
Proof.
  destruct q as [n d]. unfold Qle, py_int. simpl. intros H.
  apply Z.quot_le_upper_bound; lia.
Qed.

Lemma py_int_below (q bound : Q) :
  (q <= bound)%Q -> (0 <= bound)%Q -> (inject_Z (py_int q) <= bound)%Q.
Proof.
  intros Hq Hb. destruct (Qlt_le_dec q 0) as [Hneg|Hpos].
  - apply Qle_trans with 0%Q; [|done].
    change 0%Q with (inject_Z 0). rewrite <- Zle_Qle.
    apply py_int_nonpos. by apply Qlt_le_weak.
  - rewrite py_int_floor by done. apply Qle_trans with q; [apply Qfloor_le|done].
Qed.

Section DetectorMore.
Import Duplicates.

(** X12.  Of a non-empty list of candidates [remove_duplicate_layers] never
    removes all: the result is a non-empty tail of the candidates sorted by
    the top of their rectangle, ends with the same (lowest) candidate as
    that list, and holds no candidate that was not given. *)
Theorem lowest_candidate_always_kept
    (match_template : Z * Z * Z * Z -> option Q) (previous_page current_page : Page)
    (layer_predictions : list Layer) :
  layer_predictions <> [] ->
  let result := remove_duplicate_layers match_template previous_page current_page
                  layer_predictions in
  result <> [] /\
  result `suffix_of` sorted rect_top layer_predictions /\
  last result = last (sorted rect_top layer_predictions) /\
  result ⊆+ layer_predictions.
Proof.
  intros Hne result. unfold result, remove_duplicate_layers. cbv zeta.
  set (L := sorted rect_top layer_predictions).
  set (b := scan match_template previous_page current_page (enumerate L) 0 0).
  assert (HL : (0 < length L)%nat).
  { unfold L. rewrite (sorted_perm rect_top layer_predictions).
    destruct layer_predictions; [done|simpl; lia]. }
  assert (Hb : (b < length L)%nat).
  { destruct (scan_enumerate match_template previous_page current_page L)
      as (n & Hscan & Hbound). fold b in Hbound.
    assert (Hn : (n <= length L)%nat).
    { destruct Hscan as [(k & [Hrun _] & ->)|[_ ->]]; [|done].
      by apply low_run_at_bound in Hrun. }
    destruct Hbound as [[-> _]|[Hlt _]]; [done|lia]. }
  split; [|split; [|split]].
  - intros Hnil. apply (f_equal length) in Hnil. rewrite length_drop in Hnil.
    simpl in Hnil. lia.
  - apply suffix_drop.
  - rewrite !last_lookup, length_drop, lookup_drop. f_equal. lia.
  - unfold L. rewrite <- (sorted_perm rect_top layer_predictions) at 2.
    apply sublist_submseteq, sublist_drop.
Qed.

(** X13.  On pages at least 5 high and a previous page at least 1 wide, the
    patch cut for a layer starts at row 0 or below it, ends no lower than
    [3 * (height - 5)] on either page, and ends no further right than
    [3 * (width - 1)] of the previous page; when the rectangle starts at a
    non-negative [x0] the patch starts at a column between 0 and
    [3 * 0.2 * width] of the current page. *)
Theorem patch_within_both_pages (previous_page current_page : Page) (layer : Layer) :
  (5 <= height previous_page)%Q -> (5 <= height current_page)%Q ->
  (1 <= width previous_page)%Q -> (0 <= width current_page)%Q ->
  let '(y_start, y_end, x_start, x_end) := patch_bounds previous_page current_page layer in
  0 <= y_start /\
  (inject_Z y_end <= 3 * (height previous_page - 5))%Q /\
  (inject_Z y_end <= 3 * (height current_page - 5))%Q /\
  (inject_Z x_end <= 3 * (width previous_page - 1))%Q /\
  (inject_Z x_start <= 3 * (width current_page * (2 # 10)))%Q /\
  (let '(x0, _, _, _) := rect layer in (0 <= x0)%Q -> 0 <= x_start).
Proof.
  intros Hp Hc Hw Hwc. unfold patch_bounds.
  destruct layer as [[[[x0 y0] x1] y1] t]. simpl. unfold scale_factor.
  split; [|split; [|split; [|split; [|split]]]].
  - apply py_int_nonneg.
    pose proof (max2_ge_r y0 0). lra.
  - apply py_int_below; [|lra].
    pose proof (min2_le_l (min2 (y1 + 5) (height previous_page - 5)) (height current_page - 5)).
    pose proof (min2_le_r (y1 + 5) (height previous_page - 5)). lra.
  - apply py_int_below; [|lra].
    pose proof (min2_le_r (min2 (y1 + 5) (height previous_page - 5)) (height current_page - 5)).
    lra.
  - apply py_int_below; [|lra].
    pose proof (min2_le_r (max2 x1 (width current_page * (8 # 10))) (width previous_page - 1)).
    lra.
  - apply py_int_below; [|lra].
    pose proof (min2_le_r x0 (width current_page * (2 # 10))). lra.
  - intros Hx. apply py_int_nonneg.
    assert (0 <= min2 x0 (width current_page * (2 # 10)))%Q; [|lra].
    unfold min2. destruct (Qltb _ _); lra.
Qed.

Lemma low_run_at_agree (mt1 mt2 : Z * Z * Z * Z -> option Q) (previous_page current_page : Page)
    (L : list Layer) (n j : nat) :
  (forall i x, (i < n)%nat -> L !! i = Some x ->
     img_template_probablility_match mt1 previous_page current_page x
     = img_template_probablility_match mt2 previous_page current_page x) ->
  (j + 3 <= n)%nat ->
  low_run_at mt1 previous_page current_page L j ->
  low_run_at mt2 previous_page current_page L j.
Proof.
  intros Hag Hj (a & b & c & Ha & Hb & Hc & La & Lb & Lc).
  exists a, b, c. unfold is_duplicate in *.
  rewrite <- (Hag j a), <- (Hag (j + 1)%nat b), <- (Hag (j + 2)%nat c) by (done || lia).
  done.
Qed.

(** X14.  The scores of the candidates below the first three consecutive
    non-duplicates play no part: two template matchers that give the same
    score to every sorted candidate up to the end of a run of three
    non-duplicates give the same result, whatever they say of the
    candidates further down. *)
Theorem scores_below_first_run_ignored
    (mt1 mt2 : Z * Z * Z * Z -> option Q) (previous_page current_page : Page)
    (layer_predictions : list Layer) (k : nat) :
  let L := sorted rect_top layer_predictions in
  low_run_at mt1 previous_page current_page L k ->
  (forall i x, (i < k + 3)%nat -> L !! i = Some x ->
     img_template_probablility_match mt1 previous_page current_page x
     = img_template_probablility_match mt2 previous_page current_page x) ->
  remove_duplicate_layers mt1 previous_page current_page layer_predictions
  = remove_duplicate_layers mt2 previous_page current_page layer_predictions.
Proof.
  intros L Hrun Hag.
  assert (Hsym : forall i x, (i < k + 3)%nat -> L !! i = Some x ->
     img_template_probablility_match mt2 previous_page current_page x
     = img_template_probablility_match mt1 previous_page current_page x).
  { intros i x Hi Hx. symmetry. by apply (Hag i). }
  unfold remove_duplicate_layers. cbv zeta. fold L. f_equal.
  destruct (scan_enumerate mt1 previous_page current_page L) as (n1 & Hs1 & Hb1).
  destruct (scan_enumerate mt2 previous_page current_page L) as (n2 & Hs2 & Hb2).
  destruct Hs1 as [(k1 & Hk1 & ->)|[Hnone _]]; [|by destruct (Hnone k)].
  assert (Hle : (k1 <= k)%nat).
  { destruct Hk1 as [_ Hfirst]. destruct (decide (k1 <= k)%nat) as [|Hgt]; [done|].
    destruct (Hfirst k); [lia|done]. }
  assert (Hk2 : first_low_run mt2 previous_page current_page L k1).
  { destruct Hk1 as [Hr1 Hfirst]. split.
    - apply (low_run_at_agree mt1 mt2 _ _ L (k + 3) k1); [done|lia|done].
    - intros j Hj Hr2. apply (Hfirst j Hj).
      apply (low_run_at_agree mt2 mt1 _ _ L (k + 3) j); [done|lia|done]. }
  destruct Hs2 as [(k2 & Hk2' & ->)|[Hnone _]].
  - rewrite <- (first_low_run_unique mt2 previous_page current_page L k1 k2 Hk2 Hk2') in Hb2.
    rewrite (boundary_before_run mt1 previous_page current_page L k1 _ Hk1 Hb1).
    by rewrite (boundary_before_run mt2 previous_page current_page L k1 _ Hk2 Hb2).
  - destruct Hk2 as [Hr2 _]. by destruct (Hnone k1).
Qed.

End DetectorMore.

Section DetectorMoreExamples.
Import Duplicates DuplicatesSamples.

Lemma lowest_candidate_always_kept_witness :
  rows4 <> [] /\
  last (remove_duplicate_layers first_row_repeats a4 a4 rows4) = Some (row 100 "gravel").
Proof.
  assert (Hne : rows4 <> []) by done.
  split; [exact Hne|].
  destruct (lowest_candidate_always_kept first_row_repeats a4 a4 rows4 Hne)
    as (_ & _ & Hlast & _).
  rewrite Hlast. by vm_compute.
Defined.

Lemma patch_within_both_pages_witness :
  ((5 <= height a4)%Q /\ (5 <= height a4)%Q /\ (1 <= width a4)%Q /\ (0 <= width a4)%Q) /\
  let '(y_start, y_end, x_start, x_end) := patch_bounds a4 a4 (row 790 "marl") in
  0 <= y_start /\
  (inject_Z y_end <= 3 * (height a4 - 5))%Q /\
  (inject_Z y_end <= 3 * (height a4 - 5))%Q /\
  (inject_Z x_end <= 3 * (width a4 - 1))%Q /\
  (inject_Z x_start <= 3 * (width a4 * (2 # 10)))%Q /\
  (let '(x0, _, _, _) := rect (row 790 "marl") in (0 <= x0)%Q -> 0 <= x_start).
Proof.
  assert (H5 : (5 <= height a4)%Q) by (by vm_compute).
  assert (H1 : (1 <= width a4)%Q) by (by vm_compute).
  assert (H0 : (0 <= width a4)%Q) by (by vm_compute).
  split; [done|].
  apply (patch_within_both_pages a4 a4 (row 790 "marl") H5 H5 H1 H0).
Defined.

Lemma scores_below_first_run_ignored_witness :
  (low_run_at first_row_repeats a4 a4 (sorted rect_top rows5) 1 /\
   forall i x, (i < 1 + 3)%nat -> sorted rect_top rows5 !! i = Some x ->
     img_template_probablility_match first_row_repeats a4 a4 x
     = img_template_probablility_match first_and_fifth_repeat a4 a4 x) /\
  remove_duplicate_layers first_row_repeats a4 a4 rows5
  = remove_duplicate_layers first_and_fifth_repeat a4 a4 rows5.
Proof.
  assert (Hrun : low_run_at first_row_repeats a4 a4 (sorted rect_top rows5) 1).
  { exists (row 40 "clay"), (row 70 "sand"), (row 100 "gravel").
    repeat split; by vm_compute. }
  assert (Hag : forall i x, (i < 1 + 3)%nat -> sorted rect_top rows5 !! i = Some x ->
     img_template_probablility_match first_row_repeats a4 a4 x
     = img_template_probablility_match first_and_fifth_repeat a4 a4 x).
  { intros i x Hi Hx.
    destruct i as [|[|[|[|i]]]]; [..|lia]; vm_compute in Hx; injection Hx as <-;
      by vm_compute. }
  split; [by split|].
  apply (scores_below_first_run_ignored first_row_repeats first_and_fifth_repeat
           a4 a4 rows5 1 Hrun Hag).
Defined.

End DetectorMoreExamples.

(** ** The line index: failed calls, tolerance, rounding margin, round trips *)

Lemma py_round_close (q : Q) :
  (inject_Z (py_round q) - (1 # 2) <= q /\ q <= inject_Z (py_round q) + (1 # 2))%Q.
Proof.
  unfold py_round. cbv zeta.
  pose proof (Qfloor_le q) as Hlo. pose proof (Qlt_floor q) as Hhi.
  rewrite inject_Z_plus in Hhi. change (inject_Z 1) with 1%Q in Hhi.
  destruct (Qltb (q - inject_Z (Qfloor q)) (1 # 2)) eqn:E1.
  { apply Qltb_lt in E1. split; lra. }
  apply Qltb_ge in E1.
  destruct (Qltb (1 # 2) (q - inject_Z (Qfloor q))) eqn:E2.
  { rewrite inject_Z_plus. change (inject_Z 1) with 1%Q. split; lra. }
  apply Qltb_ge in E2.
  destruct (Z.even (Qfloor q)).
  - split; lra.
  - rewrite inject_Z_plus. change (inject_Z 1) with 1%Q. split; lra.
Qed.

Section QuadTreeMore.
Import QuadTree.

Implicit Types (s : LinesQuadTree) (k key : string) (l line : Line) (p : Z * Z).

Lemma bb_contains_spec (bb : BoundingBox) p :
  bb_contains bb p = true <->
  (min_x bb <= inject_Z p.1 /\ inject_Z p.1 <= max_x bb /\
   min_y bb <= inject_Z p.2 /\ inject_Z p.2 <= max_y bb)%Q.
Proof. unfold bb_contains. rewrite !andb_true_iff, !Qle_bool_iff. tauto. Qed.

Lemma search_box_grows line (tol tol' : Q) p :
  (tol <= tol')%Q ->
  bb_contains (search_box line tol) p = true -> bb_contains (search_box line tol') p = true.
Proof.
  intros Htol. rewrite !bb_contains_spec. unfold search_box. simpl. intros (? & ? & ? & ?).
  repeat split; lra.
Qed.

Lemma neighbouring_lines_known s key tol d :
  neighbouring_lines s key tol = Lines d -> exists line, hashmap s !! key = Some line.
Proof.
  intros H. destruct (hashmap s !! key) as [line|] eqn:Hk; [by exists line|].
  by rewrite neighbouring_lines_unknown in H.
Qed.

(** X15.  [remove] of a live key of a reachable index returns when the two
    endpoints of its line round to different points; the key is then gone
    from the hashmap and the index is again reachable.  When they round to
    the same point it raises [KeyError]: the line stays in the hashmap, and
    from then on no query of any key finds it. *)
Theorem remove_live_key s key line :
  reachable s -> hashmap s !! key = Some line ->
  (rounded (start line) <> rounded (end_ line) ->
   exists s', remove key s = Returned tt s' /\ hashmap s' = delete key (hashmap s) /\
              reachable s') /\
  (rounded (start line) = rounded (end_ line) ->
   exists s', remove key s = Raised KeyError s' /\ hashmap s' !! key = Some line /\
     forall other tol d, neighbouring_lines s' other tol = Lines d -> d !! key = None).
Proof.
  intros Hreach Hk. pose proof (reachable_invariant s Hreach) as (I1 & I2 & I3).
  destruct (I1 key line Hk) as [Hs He]. split.
  - intros Hne.
    pose proof (proj2 (remove_returns_iff s key line (conj I1 (conj I2 I3)) Hk) Hne) as Hret.
    pose proof (remove_outcome line key s I3 Hk) as Ho.
    destruct (remove key s) as [[] s'|e s'] eqn:Hrem; [|done].
    exists s'. split; [done|]. split; [by destruct Ho|].
    by apply reachable_remove with (s := s) (line_key := key).
  - intros Heq. unfold remove, bind, get. rewrite Hk.
    pose proof (qtree_delete_outcome (start line) key s I3) as H1.
    destruct (_qtree_delete (start line) key s) as [[] s1|e s1].
    2:{ by destruct H1 as (_ & _ & Hn & _). }
    destruct H1 as (Hh1 & Hbb1 & Hb1 & Hr1 & Hd1 & _).
    pose proof (qtree_delete_outcome (end_ line) key s1 Hb1) as H2.
    destruct (_qtree_delete (end_ line) key s1) as [[] s2|e s2].
    { exfalso. destruct H2 as (_ & _ & _ & _ & _ & [Hreg|Hnone]).
      - apply Hr1 in Hreg as [_ Hn]. by apply Hn.
      - apply Hd1 in Hnone. destruct He as (data & Hdata & _). congruence. }
    destruct H2 as (-> & -> & _). exists s1. split; [done|].
    split; [by rewrite Hh1|].
    intros other tol d Hd.
    destruct (neighbouring_lines_known s1 other tol d Hd) as (line' & Hother).
    destruct (neighbouring_lines_lookup s1 other line' tol Hother) as (d' & Hd' & Hiff).
    rewrite Hd in Hd'. injection Hd' as <-.
    destruct (d !! key) as [l|] eqn:E; [|done]. exfalso.
    apply Hiff in E as (_ & _ & p & Hreg & _).
    apply Hr1 in Hreg as [Hreg Hn]. apply Hn. split; [|done].
    destruct (I2 p key Hreg) as (l' & Hl' & Hp).
    rewrite Hk in Hl'. injection Hl' as <-. destruct Hp as [->| ->]; done.
Qed.

(** X16.  After a [remove(k)] that returns, at the end of a sequence of
    [add] (with fresh keys) and [remove] calls that all return on a new
    index, every query answers as on the index built by the same calls
    without those on [k], which all return as well. *)
Theorem returning_remove_as_never_inserted
    (k : string) (cs : list call) (width height : Q) s1 :
  NoDup (added_keys cs) ->
  run (cs ++ [Remove k]) (init width height) = Returned tt s1 ->
  exists s2, run (without k cs) (init width height) = Returned tt s2 /\
    forall key tol, neighbouring_lines s1 key tol = neighbouring_lines s2 key tol.
Proof. apply remove_as_never_inserted. Qed.

(** X17.  On an index that has the bounds of [__init__] for a page of the
    given width and height, [add] returns exactly when both endpoints round
    to points of [[-500, width + 500] x [-500, height + 500]]; otherwise it
    raises [ValueError] and the line is left in the hashmap under its
    key. *)
Theorem add_returns_iff_in_bounds s line key (width height : Q) :
  reachable s -> bounding_box (qtree s) = bounding_box (qtree (init width height)) ->
  let inside p :=
    (- (500) <= inject_Z p.1 /\ inject_Z p.1 <= width + 500 /\
     - (500) <= inject_Z p.2 /\ inject_Z p.2 <= height + 500)%Q in
  (returns (add line key s) <->
   inside (rounded (start line)) /\ inside (rounded (end_ line))) /\
  (forall e s', add line key s = Raised e s' ->
     e = ValueError /\ hashmap s' = <[key := line]> (hashmap s)).
Proof.
  intros Hreach Hbb inside. pose proof (reachable_invariant s Hreach) as (_ & _ & I3).
  assert (Hin : forall p, bb_contains (bounding_box (qtree s)) p = true <-> inside p).
  { intros p. rewrite Hbb, bb_contains_spec. unfold inside. simpl.
    generalize (inject_Z p.1) (inject_Z p.2). intros a b.
    unfold Qdiv. change (/ 2)%Q with (1 # 2)%Q. split.
    - intros (? & ? & ? & ?). repeat split; lra.
    - intros (? & ? & ? & ?). repeat split; lra. }
  split.
  - pose proof (add_outcome line key s I3) as Ho.
    destruct (add line key s) as [r s'|e s']; simpl.
    + destruct Ho as (_ & _ & _ & _ & H1 & H2 & _). split; [intros _|done].
      split; by apply Hin.
    + destruct Ho as (_ & [Hout|Hout]); (split; [done|]); intros [H1 H2].
      * apply Hin in H1. congruence.
      * apply Hin in H2. congruence.
  - intros e s'. unfold add, bind, modify. cbv beta iota.
    set (s0 := mkLinesQuadTree (qtree s) (<[key := line]> (hashmap s))).
    assert (Hb0 : points_in_bounds s0) by done.
    pose proof (qtree_insert_outcome (start line) key s0 Hb0) as H1.
    destruct (_qtree_insert (start line) key s0) as [[] s1|e1 s1].
    + destruct H1 as (_ & Hh1 & _ & Hb1 & _).
      pose proof (qtree_insert_outcome (end_ line) key s1 Hb1) as H2.
      destruct (_qtree_insert (end_ line) key s1) as [[] s2|e2 s2]; [done|].
      destruct H2 as (-> & -> & _). intros [= <- <-]. by rewrite Hh1.
    + destruct H1 as (-> & -> & _). by intros [= <- <-].
Qed.

Lemma tolerance_monotone s key (tol tol' : Q) (d d' : gmap string Line) :
  (tol <= tol')%Q ->
  neighbouring_lines s key tol = Lines d ->
  neighbouring_lines s key tol' = Lines d' ->
  d ⊆ d'.
Proof.
  intros Htol Hd Hd'.
  destruct (neighbouring_lines_known s key tol d Hd) as (line & Hk).
  destruct (neighbouring_lines_lookup s key line tol Hk) as (d0 & Hd0 & Hiff).
  destruct (neighbouring_lines_lookup s key line tol' Hk) as (d1 & Hd1 & Hiff').
  rewrite Hd in Hd0. injection Hd0 as <-. rewrite Hd' in Hd1. injection Hd1 as <-.
  apply map_subseteq_spec. intros k l Hl.
  apply Hiff in Hl as (Hne & Hh & p & Hreg & Hbox). apply Hiff'.
  split; [done|]. split; [done|]. exists p. split; [done|].
  by apply search_box_grows with (tol := tol).
Qed.

Lemma rounded_box_to_box line (tol : Q) (pnt : Point) :
  rounded_in_search_box line tol pnt -> in_search_box line (tol + (1 # 2)) pnt.
Proof.
  unfold rounded_in_search_box, in_search_box. rewrite bb_contains_spec.
  unfold rounded, search_box. simpl.
  pose proof (py_round_close (x pnt)). pose proof (py_round_close (y pnt)).
  intros (? & ? & ? & ?). repeat split; lra.
Qed.

Lemma box_to_rounded_box line (tol : Q) (pnt : Point) :
  in_search_box line tol pnt -> rounded_in_search_box line (tol + (1 # 2)) pnt.
Proof.
  unfold rounded_in_search_box, in_search_box. rewrite bb_contains_spec.
  unfold rounded, search_box. simpl.
  pose proof (py_round_close (x pnt)). pose proof (py_round_close (y pnt)).
  intros (? & ? & ? & ?). repeat split; lra.
Qed.

(** X18.  The tolerance and the rounding.  On a reachable index, every
    line a query returns has an endpoint in the box of the queried line
    grown by the tolerance plus 0.5; every other live line with an endpoint
    in the box grown by the tolerance minus 0.5 (or less) is returned; and
    a larger tolerance never loses a neighbour: the result is contained in
    the result of the same query with any tolerance at least as large. *)
Theorem neighbours_exact_up_to_half s key line (tol : Q) (d : gmap string Line) :
  reachable s -> hashmap s !! key = Some line ->
  neighbouring_lines s key tol = Lines d ->
  (forall k l, d !! k = Some l ->
     in_search_box line (tol + (1 # 2)) (start l) \/
     in_search_box line (tol + (1 # 2)) (end_ l)) /\
  (forall k l (inner : Q), (inner + (1 # 2) <= tol)%Q ->
     k <> key -> hashmap s !! k = Some l ->
     in_search_box line inner (start l) \/ in_search_box line inner (end_ l) ->
     d !! k = Some l) /\
  (forall (larger : Q) (d' : gmap string Line), (tol <= larger)%Q ->
     neighbouring_lines s key larger = Lines d' -> d ⊆ d').
Proof.
  intros Hreach Hk Hd. apply reachable_invariant in Hreach.
  destruct (neighbouring_lines_rounded s key line tol Hreach Hk) as (d0 & Hd0 & _ & Hiff).
  rewrite Hd in Hd0. injection Hd0 as <-. split; [|split].
  - intros k l Hl. apply Hiff in Hl as (_ & _ & [H|H]); [left|right];
      by apply rounded_box_to_box.
  - intros k l inner Hin Hne Hl Hbox. apply Hiff. split; [done|]. split; [done|].
    destruct Hbox as [H|H]; [left|right];
      apply box_to_rounded_box in H; unfold rounded_in_search_box in *;
      by apply search_box_grows with (tol := (inner + (1 # 2))%Q).
  - intros larger d' Hle Hd'. by apply (tolerance_monotone s key tol larger).
Qed.

(** X19.  An [add] that returns changes the answer to a query of another
    key by the new line at most: the answer afterwards is the answer before,
    with the new line added exactly when one of its rounded endpoints lies
    in the box of the queried line grown by the tolerance. *)
Theorem add_changes_answers_by_new_line s line key s' other query_line (tol : Q)
    (d : gmap string Line) :
  reachable s -> hashmap s !! key = None ->
  add line key s = Returned key s' ->
  hashmap s !! other = Some query_line ->
  neighbouring_lines s other tol = Lines d ->
  neighbouring_lines s' other tol
  = Lines (if bb_contains (search_box query_line tol) (rounded (start line))
              || bb_contains (search_box query_line tol) (rounded (end_ line))
           then <[key := line]> d else d).
Proof.
  intros Hreach Hfresh Hadd Hother Hd.
  pose proof (reachable_invariant s Hreach) as Is.
  assert (Is' : index_invariant s') by (by apply (add_invariant line key s key s')).
  pose proof (add_outcome line key s (proj2 (proj2 Is))) as Ho. rewrite Hadd in Ho.
  destruct Ho as (_ & Hh & _).
  assert (Hne : other <> key) by (intros ->; congruence).
  assert (Hother' : hashmap s' !! other = Some query_line)
    by (by rewrite Hh, lookup_insert_ne).
  destruct (neighbouring_lines_rounded s other query_line tol Is Hother)
    as (d0 & Hd0 & _ & Hiff).
  rewrite Hd in Hd0. injection Hd0 as <-.
  destruct (neighbouring_lines_rounded s' other query_line tol Is' Hother')
    as (d' & -> & _ & Hiff').
  f_equal. apply map_eq. intros k. apply option_eq. intros l.
  rewrite Hiff', Hh. unfold rounded_in_search_box.
  destruct (decide (k = key)) as [->|Hk].
  - rewrite lookup_insert_eq.
    destruct (bb_contains (search_box query_line tol) (rounded (start line))
              || bb_contains (search_box query_line tol) (rounded (end_ line))) eqn:E.
    + rewrite lookup_insert_eq. apply orb_true_iff in E. split.
      * by intros (_ & [= <-] & _).
      * intros [= <-]. split; [done|]. split; [done|]. done.
    + apply orb_false_iff in E as [E1 E2]. split.
      * intros (_ & [= <-] & [H|H]); congruence.
      * intros Hl. apply Hiff in Hl as (_ & Hl & _). congruence.
  - rewrite lookup_insert_ne by done.
    destruct (bb_contains (search_box query_line tol) (rounded (start line))
              || bb_contains (search_box query_line tol) (rounded (end_ line))).
    + rewrite lookup_insert_ne by done. by rewrite Hiff.
    + by rewrite Hiff.
Qed.

(** X20.  On a reachable index, adding a line under a fresh key, with
    endpoints that round to two different points within the bounds, and
    removing it again both return, and leave the hashmap and the answer to
    every query as they were. *)
Theorem add_then_remove_restores s line key :
  reachable s -> hashmap s !! key = None ->
  bb_contains (bounding_box (qtree s)) (rounded (start line)) = true ->
  bb_contains (bounding_box (qtree s)) (rounded (end_ line)) = true ->
  rounded (start line) <> rounded (end_ line) ->
  exists s1 s2, add line key s = Returned key s1 /\ remove key s1 = Returned tt s2 /\
    hashmap s2 = hashmap s /\
    forall k tol, neighbouring_lines s2 k tol = neighbouring_lines s k tol.
Proof.
  intros Hreach Hfresh Hin1 Hin2 Hne.
  pose proof (reachable_invariant s Hreach) as Is.
  pose proof (add_outcome line key s (proj2 (proj2 Is))) as Ho.
  destruct (add line key s) as [r s1|e s1] eqn:Hadd.
  2:{ destruct Ho as (_ & [Hout|Hout]); congruence. }
  destruct Ho as (-> & Hh1 & _).
  assert (Is1 : index_invariant s1) by (by apply (add_invariant line key s key s1)).
  assert (Hk1 : hashmap s1 !! key = Some line) by (by rewrite Hh1, lookup_insert_eq).
  pose proof (proj2 (remove_returns_iff s1 key line Is1 Hk1) Hne) as Hret.
  pose proof (remove_outcome line key s1 (proj2 (proj2 Is1)) Hk1) as Hr.
  destruct (remove key s1) as [[] s2|e s2] eqn:Hrem; [|done].
  destruct Hr as (Hh2 & _).
  assert (Hh : hashmap s2 = hashmap s).
  { rewrite Hh2, Hh1, delete_insert_eq. by apply delete_id. }
  exists s1, s2. split; [done|]. split; [done|]. split; [done|].
  intros k tol. apply neighbouring_lines_by_hashmap; [|done|done].
  by apply (remove_invariant key s1 s2).
Qed.

End QuadTreeMore.

Section QuadTreeMoreExamples.
Import QuadTree.

Lemma remove_live_key_witness :
  (reachable page_ab /\ hashmap page_ab !! "a" = Some base_line /\
   rounded (start base_line) <> rounded (end_ base_line)) /\
  exists s', remove "a" page_ab = Returned tt s' /\
             hashmap s' = delete "a" (hashmap page_ab) /\ reachable s'.
Proof.
  assert (Hk : hashmap page_ab !! "a" = Some base_line) by (vm_compute; reflexivity).
  assert (Hne : rounded (start base_line) <> rounded (end_ base_line)) by (by vm_compute).
  split; [by repeat split; try exact page_ab_reachable|].
  destruct (remove_live_key page_ab "a" base_line page_ab_reachable Hk) as [Hret _].
  exact (Hret Hne).
Defined.

Lemma returning_remove_as_never_inserted_witness :
  (NoDup (added_keys [Add base_line "a"; Add near_line "b"]) /\
   returns (run ([Add base_line "a"; Add near_line "b"] ++ [Remove "a"]) (init 100 100))) /\
  exists s1 s2,
    run ([Add base_line "a"; Add near_line "b"] ++ [Remove "a"]) (init 100 100)
    = Returned tt s1 /\
    run (without "a" [Add base_line "a"; Add near_line "b"]) (init 100 100)
    = Returned tt s2 /\
    forall key tol, neighbouring_lines s1 key tol = neighbouring_lines s2 key tol.
Proof.
  assert (Hnd : NoDup (added_keys [Add base_line "a"; Add near_line "b"])).
  { simpl. apply NoDup_cons. split.
    - intros H. apply list_elem_of_singleton in H. discriminate.
    - apply NoDup_singleton. }
  assert (Hret : returns (run ([Add base_line "a"; Add near_line "b"] ++ [Remove "a"])
                            (init 100 100))) by (vm_compute; exact I).
  split; [by split|].
  destruct (run ([Add base_line "a"; Add near_line "b"] ++ [Remove "a"]) (init 100 100))
    as [[] s1|e s1] eqn:Hrun; [|destruct Hret].
  destruct (returning_remove_as_never_inserted "a" [Add base_line "a"; Add near_line "b"]
              100 100 s1 Hnd Hrun) as (s2 & Hs2 & Hq).
  exists s1, s2. split; [reflexivity|]. split; [exact Hs2|exact Hq].
Defined.

Lemma add_returns_iff_in_bounds_witness :
  (reachable page /\ bounding_box (qtree page) = bounding_box (qtree (init 100 100))) /\
  returns (add base_line "a" page).
Proof.
  assert (Hr : reachable page) by apply reachable_init.
  assert (Hb : bounding_box (qtree page) = bounding_box (qtree (init 100 100)))
    by reflexivity.
  split; [by split|].
  destruct (add_returns_iff_in_bounds page base_line "a" 100 100 Hr Hb) as [Hiff _].
  apply Hiff. vm_compute. repeat split; discriminate.
Defined.

Lemma neighbours_exact_up_to_half_witness :
  (reachable page_ab /\ hashmap page_ab !! "a" = Some base_line) /\
  exists d, neighbouring_lines page_ab "a" (3 # 10) = Lines d /\
    forall k l, d !! k = Some l ->
      in_search_box base_line ((3 # 10) + (1 # 2)) (start l) \/
      in_search_box base_line ((3 # 10) + (1 # 2)) (end_ l).
Proof.
  assert (Hk : hashmap page_ab !! "a" = Some base_line) by (vm_compute; reflexivity).
  split; [split; [exact page_ab_reachable|exact Hk]|].
  destruct (neighbouring_lines_lookup page_ab "a" base_line (3 # 10) Hk) as (d & Hd & _).
  exists d. split; [exact Hd|].
  apply (neighbours_exact_up_to_half page_ab "a" base_line (3 # 10) d
           page_ab_reachable Hk Hd).
Defined.

Lemma add_changes_answers_by_new_line_witness :
  (reachable page_a /\ hashmap page_a !! "b" = None /\
   add near_line "b" page_a = Returned "b" page_ab /\
   hashmap page_a !! "a" = Some base_line /\
   neighbouring_lines page_a "a" (3 # 10) = Lines ∅) /\
  neighbouring_lines page_ab "a" (3 # 10) = Lines (<["b" := near_line]> ∅).
Proof.
  assert (Hr : reachable page_a).
  { apply reachable_add with (s := page) (line := base_line) (line_key := "a").
    - apply reachable_init.
    - reflexivity.
    - vm_compute. reflexivity. }
  assert (Hf : hashmap page_a !! "b" = None) by (vm_compute; reflexivity).
  assert (Ha : add near_line "b" page_a = Returned "b" page_ab) by (vm_compute; reflexivity).
  assert (Hk : hashmap page_a !! "a" = Some base_line) by (vm_compute; reflexivity).
  assert (Hd : neighbouring_lines page_a "a" (3 # 10) = Lines ∅) by (vm_compute; reflexivity).
  split; [by repeat split|].
  apply (add_changes_answers_by_new_line page_a near_line "b" page_ab "a" base_line
           (3 # 10) ∅ Hr Hf Ha Hk Hd).
Defined.

Lemma add_then_remove_restores_witness :
  (reachable page_a /\ hashmap page_a !! "b" = None /\
   bb_contains (bounding_box (qtree page_a)) (rounded (start near_line)) = true /\
   bb_contains (bounding_box (qtree page_a)) (rounded (end_ near_line)) = true /\
   rounded (start near_line) <> rounded (end_ near_line)) /\
  exists s1 s2, add near_line "b" page_a = Returned "b" s1 /\
    remove "b" s1 = Returned tt s2 /\ hashmap s2 = hashmap page_a /\
    forall k tol, neighbouring_lines s2 k tol = neighbouring_lines page_a k tol.
Proof.
  assert (Hr : reachable page_a).
  { apply reachable_add with (s := page) (line := base_line) (line_key := "a").
    - apply reachable_init.
    - reflexivity.
    - vm_compute. reflexivity. }
  assert (Hf : hashmap page_a !! "b" = None) by (vm_compute; reflexivity).
  assert (H1 : bb_contains (bounding_box (qtree page_a)) (rounded (start near_line)) = true)
    by (vm_compute; reflexivity).
  assert (H2 : bb_contains (bounding_box (qtree page_a)) (rounded (end_ near_line)) = true)
    by (vm_compute; reflexivity).
  assert (Hne : rounded (start near_line) <> rounded (end_ near_line)) by (by vm_compute).
  split; [by repeat split|].
  apply (add_then_remove_restores page_a near_line "b" Hr Hf H1 H2 Hne).
Defined.

End QuadTreeMoreExamples.

(** ** Conversion to ground truth and evaluation against it *)

Section ConversionMore.
Import Metadata Matching Conversion.

Variable parse_text : string -> string.
Variable ratio : string -> string -> Q.

Lemma convert_layers_outcome (layers : list LayerPrediction) :
  match convert_layers layers with
  | inl e => e = AttributeError /\ exists layer, layer ∈ layers /\ depth_interval layer = None
  | inr converted =>
      Forall (fun layer => depth_interval layer <> None) layers /\
      Forall2 (fun layer g => convert_layer layer = inr g) layers converted
  end.
Proof.
  induction layers as [|layer rest IH]; simpl; [by split|].
  destruct (convert_layer layer) as [e|g] eqn:Hc.
  - unfold convert_layer in Hc.
    destruct (depth_interval layer) eqn:Hd; [done|]. injection Hc as <-.
    split; [done|]. exists layer. split; [apply elem_of_cons; by left|done].
  - destruct (convert_layers rest) as [e|gs].
    + destruct IH as (-> & l & Hl & Hn). split; [done|].
      exists l. split; [apply elem_of_cons; by right|done].
    + destruct IH as [Hall Hconv]. split.
      * constructor; [|done]. unfold convert_layer in Hc.
        by destruct (depth_interval layer).
      * by constructor.
Qed.

(** X21.  [convert_to_ground_truth] raises [AttributeError] exactly when
    some layer has no depth interval.  Otherwise it returns, under the file
    name, one entry per layer, in order, with the layer's text and the
    values of its start and end ([None] for an absent one); the metadata
    are exported as a dict only when the coordinates are present, and that
    dict never carries the groundwater information. *)
Theorem conversion_outcome
    (file_name : string) (layers : list LayerPrediction) (metadata : option BoreholeMetaData) :
  match convert_to_ground_truth file_name layers metadata with
  | inl e => e = AttributeError /\ exists layer, layer ∈ layers /\ depth_interval layer = None
  | inr (name, file) =>
      name = file_name /\
      Forall (fun layer => depth_interval layer <> None) layers /\
      Forall2 (fun layer g =>
                 gt_material_description g = material_description layer /\
                 exists interval, depth_interval layer = Some interval /\
                   gt_start g = value <$> start interval /\
                   gt_end g = value <$> end_ interval)
              layers (file_layers file) /\
      match file_metadata file with
      | MetadataDict d =>
          gt_groundwater d = None /\
          exists m c, metadata = Some m /\ coordinates m = Some c /\
            gt_coordinates d = Some (coordinate_value (east c), coordinate_value (north c))
      | MetadataObject m =>
          m = metadata /\ (metadata ≫= coordinates) = None
      end
  end.
Proof.
  unfold convert_to_ground_truth.
  pose proof (convert_layers_outcome layers) as Ho.
  destruct (convert_layers layers) as [e|gs]; [done|].
  destruct Ho as [Hall Hconv]. split; [done|]. split; [done|]. split.
  - simpl. eapply Forall2_impl; [exact Hconv|].
    intros layer g Hc. unfold convert_layer in Hc.
    destruct (depth_interval layer) as [interval|]; [|done].
    injection Hc as <-. split; [done|]. by exists interval.
  - simpl. destruct metadata as [m|]; [|done].
    destruct (coordinates m) as [c|] eqn:Hc; [|done].
    split; [done|]. by exists m, c.
Qed.

Lemma own_entry_found (layer : LayerPrediction) (g : GroundTruthLayer)
    (pool : list GroundTruthLayer) :
  complete layer -> convert_layer layer = inr g ->
  (9 # 10 < ratio (parse_text (material_description layer)) (material_description layer))%Q ->
  _find_matching_layer parse_text ratio layer (g :: pool) = Returned (Some g, Some true) pool.
Proof.
  intros (interval & s & e & Hi & Hs & He) Hc Hsim.
  unfold convert_layer in Hc. rewrite Hi, Hs, He in Hc. simpl in Hc. injection Hc as <-.
  apply Qltb_lt in Hsim.
  unfold _find_matching_layer. cbv zeta. unfold bind at 1, get.
  cbn [List.filter gt_material_description]. rewrite Hsim.
  unfold bind at 1. cbn [first_exact_match gt_start gt_end]. rewrite Hi, Hs, He.
  rewrite (bool_decide_eq_false_2 (Some s = None)) by done. rewrite andb_false_r.
  unfold bind at 1, ret at 1. cbv beta iota.
  unfold equals_number. rewrite !bool_decide_eq_true_2 by done. cbn [andb].
  unfold bind, list_remove, ret. cbn [remove_first].
  by rewrite decide_True.
Qed.

(** X22.  Round trip.  When every layer has an interval with both start
    and end, and the parsed text of every layer is similar (ratio above 0.9)
    to the text itself, evaluating the layers against their own conversion
    returns, marks every layer material-correct and interval-correct, and
    uses up the whole ground truth. *)
Theorem own_ground_truth_all_correct
    (layers : list LayerPrediction) (converted : list GroundTruthLayer) :
  Forall complete layers ->
  Forall (fun layer =>
            (9 # 10 < ratio (parse_text (material_description layer))
                            (material_description layer))%Q) layers ->
  convert_layers layers = inr converted ->
  evaluate_layers parse_text ratio layers converted
  = Returned (map (fun layer => with_flags layer (Some true) (Some true)) layers) [].
Proof.
  unfold evaluate_layers. cbv zeta. revert converted.
  induction layers as [|layer rest IH]; intros converted Hcomplete Hsim Hconv.
  - simpl in Hconv. by injection Hconv as <-.
  - apply Forall_cons in Hcomplete as [Hc Hcomplete].
    apply Forall_cons in Hsim as [Hs Hsim].
    simpl in Hconv.
    destruct (convert_layer layer) as [e|g] eqn:Hg; [done|].
    destruct (convert_layers rest) as [e|gs] eqn:Hgs; [done|].
    injection Hconv as <-.
    cbn [evaluate_loop map]. unfold bind at 1.
    rewrite (own_entry_found layer g gs Hc Hg Hs).
    unfold bind at 1. rewrite (IH gs Hcomplete Hsim eq_refl). reflexivity.
Qed.

(** X23.  The conversion is not neutral for a layer without start.  For a
    file of one layer whose interval lacks its start (which the matching
    reads as 0), with a text similar to itself, the conversion exports the
    start as [None], and the evaluation against it marks the layer
    material-correct but interval-incorrect. *)
Theorem absent_start_not_exact_on_own (layer : LayerPrediction) (interval : BoundaryInterval)
    (g : GroundTruthLayer) :
  depth_interval layer = Some interval -> start interval = None ->
  (9 # 10 < ratio (parse_text (material_description layer)) (material_description layer))%Q ->
  convert_layer layer = inr g ->
  gt_start g = None /\
  evaluate_layers parse_text ratio [layer] [g]
  = Returned [with_flags layer (Some true) (Some false)] [].
Proof.
  intros Hi Hs Hsim Hc.
  unfold convert_layer in Hc. rewrite Hi, Hs in Hc. simpl in Hc. injection Hc as <-.
  split; [done|]. apply Qltb_lt in Hsim.
  unfold evaluate_layers. cbv zeta. cbn [evaluate_loop]. unfold bind at 1.
  unfold _find_matching_layer. cbv zeta. unfold bind at 1, get.
  cbn [List.filter gt_material_description]. rewrite Hsim.
  unfold bind at 1. cbn [first_exact_match gt_start gt_end]. rewrite Hi, Hs.
  unfold equals_number at 1. rewrite (bool_decide_eq_false_2 (None = Some 0%Qc)) by done.
  cbn [andb]. unfold bind at 1, ret at 1. cbv beta iota.
  destruct (end_ interval) as [e|]; unfold ret at 1; cbv beta iota;
    unfold bind, py_max, list_remove, ret; cbn [foldl remove_first];
    by rewrite decide_True.
Qed.

End ConversionMore.

Section ConversionMetadata.
Import Metadata Conversion.

Variable info_correct : GroundwaterInformation -> GroundwaterInformation -> bool.
Variable depth_correct : GroundwaterInformation -> option Q -> bool.
Variable elevation_correct : GroundwaterInformation -> option Q -> bool.
Variable date_correct : GroundwaterInformation -> option string -> bool.

Lemma same_frame (pe N : Q) :
  ground_truth_in_frame pe pe N = (inject_Z (py_int pe), inject_Z (py_int N)).
Proof.
  apply ground_truth_in_frame_cases; intros [H1 H2]; lra.
Qed.

(** X24.  Metadata evaluated against their own conversion.  When the
    coordinates are present, the conversion exports them as a dict, and
    [evaluate_metadata] against that dict returns with the coordinates flag
    [True] and the four groundwater flags [None], whatever groundwater
    information the prediction holds. *)
Theorem own_metadata_coordinates_only
    (file_name : string) (layers : list Matching.LayerPrediction)
    (m : BoreholeMetaData) (c : Coordinate) (file : GroundTruthFile) (st : EvalStore) :
  coordinates m = Some c ->
  convert_to_ground_truth file_name layers (Some m) = inr (file_name, file) ->
  exists d st', file_metadata file = MetadataDict d /\
    evaluate_metadata info_correct depth_correct elevation_correct date_correct
      file_name (Some m) (Some d) st = Returned tt st' /\
    metadata_is_correct st' !! "coordinates" = Some (Some true) /\
    forall key, key ∈ ["groundwater_information"; "groundwater_information_depth";
                       "groundwater_information_elevation";
                       "groundwater_information_date"] ->
      metadata_is_correct st' !! key = Some None.
Proof.
  intros Hc Hconv. unfold convert_to_ground_truth in Hconv.
  destruct (convert_layers layers) as [e|gs]; [done|]. rewrite Hc in Hconv.
  injection Hconv as <-. eexists. eexists. split; [reflexivity|].
  unfold evaluate_metadata, bind. rewrite evaluate_coordinates_store.
  unfold evaluate_groundwater.
  replace (Some _ ≫= gt_groundwater) with (@None (list GroundwaterInformation)) by done.
  assert (Hflag : coordinates_flag m
            (Some (mkGroundTruthMetadata
                     (Some (coordinate_value (east c), coordinate_value (north c))) None))
          = Some true).
  { unfold coordinates_flag. rewrite Hc. simpl. rewrite same_frame. simpl.
    by rewrite !isclose_same. }
  rewrite Hflag.
  destruct (groundwater_information m); cbn; (split; [reflexivity|]);
    (split; [by simplify_map_eq|]); intros key Hk;
    repeat (apply elem_of_cons in Hk as [->|Hk]; [by simplify_map_eq|]);
    by apply elem_of_nil in Hk.
Qed.

End ConversionMetadata.

Section ConversionExamples.
Import Metadata Matching Conversion.

Lemma own_ground_truth_all_correct_witness :
  (Forall complete [sand_layer; sandy_layer] /\
   Forall (fun layer =>
             (9 # 10 < levenshtein_ratio (plain_text (material_description layer))
                                         (material_description layer))%Q)
          [sand_layer; sandy_layer] /\
   convert_layers [sand_layer; sandy_layer] = inr [sand_0_2; sandy_2_5]) /\
  evaluate_layers plain_text levenshtein_ratio [sand_layer; sandy_layer] [sand_0_2; sandy_2_5]
  = Returned [with_flags sand_layer (Some true) (Some true);
              with_flags sandy_layer (Some true) (Some true)] [].
Proof.
  assert (Hc : Forall complete [sand_layer; sandy_layer]).
  { repeat constructor; eexists _, _, _; repeat split; reflexivity. }
  assert (Hs : Forall (fun layer =>
             (9 # 10 < levenshtein_ratio (plain_text (material_description layer))
                                         (material_description layer))%Q)
          [sand_layer; sandy_layer]) by (repeat constructor; by vm_compute).
  assert (Hg : convert_layers [sand_layer; sandy_layer] = inr [sand_0_2; sandy_2_5])
    by reflexivity.
  split; [by repeat split|].
  apply (own_ground_truth_all_correct plain_text levenshtein_ratio
           [sand_layer; sandy_layer] [sand_0_2; sandy_2_5] Hc Hs Hg).
Defined.

Lemma absent_start_not_exact_on_own_witness :
  (depth_interval top_layer = Some (mkBoundaryInterval None (entry 2)) /\
   start (mkBoundaryInterval None (entry 2)) = None /\
   (9 # 10 < levenshtein_ratio (plain_text (material_description top_layer))
                               (material_description top_layer))%Q /\
   convert_layer top_layer = inr (mkGroundTruthLayer "sand" None (Some (Q2Qc 2)))) /\
  evaluate_layers plain_text levenshtein_ratio [top_layer]
    [mkGroundTruthLayer "sand" None (Some (Q2Qc 2))]
  = Returned [with_flags top_layer (Some true) (Some false)] [].
Proof.
  assert (Hi : depth_interval top_layer = Some (mkBoundaryInterval None (entry 2)))
    by reflexivity.
  assert (Hs : start (mkBoundaryInterval None (entry 2)) = None) by reflexivity.
  assert (Hsim : (9 # 10 < levenshtein_ratio (plain_text (material_description top_layer))
                                             (material_description top_layer))%Q)
    by (by vm_compute).
  assert (Hc : convert_layer top_layer = inr (mkGroundTruthLayer "sand" None (Some (Q2Qc 2))))
    by reflexivity.
  split; [by repeat split|].
  apply (absent_start_not_exact_on_own plain_text levenshtein_ratio top_layer _ _
           Hi Hs Hsim Hc).
Defined.

Lemma own_metadata_coordinates_only_witness :
  (coordinates sample_prediction = Some sample_coordinate /\
   convert_to_ground_truth "a.pdf" [sand_layer] (Some sample_prediction)
   = inr ("a.pdf", mkGroundTruthFile
                     (MetadataDict (mkGroundTruthMetadata (Some (2600000, 1200000)%Q) None))
                     [sand_0_2])) /\
  exists d st',
    file_metadata (mkGroundTruthFile
                     (MetadataDict (mkGroundTruthMetadata (Some (2600000, 1200000)%Q) None))
                     [sand_0_2]) = MetadataDict d /\
    evaluate_metadata_by_equality "a.pdf" (Some sample_prediction) (Some d) empty_store
    = Returned tt st' /\
    metadata_is_correct st' !! "coordinates" = Some (Some true) /\
    forall key, key ∈ ["groundwater_information"; "groundwater_information_depth";
                       "groundwater_information_elevation";
                       "groundwater_information_date"] ->
      metadata_is_correct st' !! key = Some None.
Proof.
  assert (Hc : coordinates sample_prediction = Some sample_coordinate) by reflexivity.
  assert (Hg : convert_to_ground_truth "a.pdf" [sand_layer] (Some sample_prediction)
   = inr ("a.pdf", mkGroundTruthFile
                     (MetadataDict (mkGroundTruthMetadata (Some (2600000, 1200000)%Q) None))
                     [sand_0_2])) by reflexivity.
  split; [by split|].
  apply (own_metadata_coordinates_only same_information same_depth same_elevation same_day
           "a.pdf" [sand_layer] sample_prediction sample_coordinate _ empty_store Hc Hg).
Defined.

End ConversionExamples.

(** ** The PNG endpoint: names, pages converted, failures *)

Section CreatePngsMore.
Import Stdlib.Strings.Ascii.
Import CreatePngs.

Lemma append_cons (c : Ascii.ascii) (a s : string) : String c a +:+ s = String c (a +:+ s).
Proof. reflexivity. Qed.

Lemma append_nil (s : string) : "" +:+ s = s.
Proof. reflexivity. Qed.

Lemma length_append (a s : string) :
  String.length (a +:+ s) = (String.length a + String.length s)%nat.
Proof. induction a as [|c a IH]; [done|]. rewrite append_cons. simpl. by rewrite IH. Qed.

Lemma prefix_append (a s : string) : String.prefix a (a +:+ s) = true.
Proof.
  induction a as [|c a IH]; [by destruct s|].
  rewrite append_cons. simpl. by destruct (Ascii.ascii_dec c c).
Qed.

Lemma prefix_inv (a s : string) : String.prefix a s = true -> exists t, s = a +:+ t.
Proof.
  revert s. induction a as [|c a IH]; intros s H; [by exists s|].
  destruct s as [|b s]; [done|]. simpl in H.
  destruct (Ascii.ascii_dec c b) as [->|]; [|done].
  destruct (IH s H) as (t & ->). by exists t.
Qed.

Lemma prefix_other_head (c b : Ascii.ascii) (a s : string) :
  c <> b -> String.prefix (String c a) (String b s) = false.
Proof. intros H. simpl. by destruct (Ascii.ascii_dec c b). Qed.

Lemma endswith_append (a suffix : string) : endswith (a +:+ suffix) suffix = true.
Proof.
  induction a as [|c a IH].
  - rewrite append_nil. destruct suffix; cbn [endswith]; by rewrite String.eqb_refl.
  - rewrite append_cons. simpl. rewrite IH. apply orb_true_r.
Qed.

Lemma endswith_append_l (a s suffix : string) :
  endswith s suffix = true -> endswith (a +:+ s) suffix = true.
Proof.
  intros H. induction a as [|c a IH]; [done|].
  rewrite append_cons. simpl. rewrite IH. apply orb_true_r.
Qed.

Lemma replace_from_skip (old new a s : string) :
  replace_from old new (String.length a) (a +:+ s) = replace_from old new 0 s.
Proof. induction a as [|c a IH]; [done|]. rewrite append_cons. simpl. exact IH. Qed.

Lemma replace_head (c : Ascii.ascii) (old new s : string) :
  replace_from (String c old) new 0 (String c old +:+ s)
  = new +:+ replace_from (String c old) new 0 s.
Proof.
  rewrite append_cons. cbn [replace_from].
  rewrite <- append_cons, prefix_append.
  replace (String.length (String c old) - 1)%nat with (String.length old) by (simpl; lia).
  by rewrite replace_from_skip.
Qed.

Lemma replace_other_head (c b : Ascii.ascii) (old new s : string) :
  c <> b ->
  replace_from (String c old) new 0 (String b s)
  = String b (replace_from (String c old) new 0 s).
Proof. intros H. cbn [replace_from]. by rewrite prefix_other_head. Qed.

Lemma prefix_stays (name : string) :
  Forall (fun c => c <> "p"%char) (String.list_ascii_of_string name) ->
  replace_from "pdfs/" "" 0 (name +:+ ".pdf") = name +:+ ".pdf".
Proof.
  induction name as [|c name IH]; intros Hplain; [reflexivity|].
  simpl in Hplain. apply Forall_cons in Hplain as [Hp Hplain].
  rewrite append_cons, replace_other_head by congruence. by rewrite IH.
Qed.

Lemma extension_goes (name : string) :
  Forall (fun c => c <> "."%char) (String.list_ascii_of_string name) ->
  replace_from ".pdf" "" 0 (name +:+ ".pdf") = name.
Proof.
  induction name as [|c name IH]; intros Hplain; [reflexivity|].
  simpl in Hplain. apply Forall_cons in Hplain as [Hp Hplain].
  rewrite append_cons, replace_other_head by congruence. by rewrite IH.
Qed.

(** X25.  A name without the characters [p] and [.] is what the PNG files
    are named after: the path [pdfs/<name>.pdf] passes both checks of the
    endpoint, and the two [replace] calls give back [<name>]. *)
Theorem plain_name_is_kept (name : string) :
  Forall (fun c => c <> "p"%char /\ c <> "."%char) (String.list_ascii_of_string name) ->
  let aws_filename := "pdfs/" +:+ name +:+ ".pdf" in
  endswith aws_filename ".pdf" = true /\
  startswith aws_filename "pdfs/" = true /\
  filename_of aws_filename = name.
Proof.
  intros Hplain aws_filename. unfold aws_filename.
  split; [apply endswith_append_l, endswith_append|].
  split; [apply prefix_append|].
  unfold filename_of, replace. rewrite replace_head, append_nil.
  rewrite prefix_stays, extension_goes; [done|..];
    (eapply Forall_impl; [exact Hplain|]); by intros c [? ?].
Qed.

(** X26.  Two different paths can name the same PNG files.  For a path
    that passes the checks, the path with one more [pdfs/] in front passes
    them too and gives the same file name, hence the same keys for every
    page: every [pdfs/] is taken out, not only the leading one. *)
Theorem repeated_prefix_same_pngs (aws_filename : string) :
  endswith aws_filename ".pdf" = true ->
  startswith aws_filename "pdfs/" = true ->
  let longer := "pdfs/" +:+ aws_filename in
  longer <> aws_filename /\
  endswith longer ".pdf" = true /\ startswith longer "pdfs/" = true /\
  filename_of longer = filename_of aws_filename /\
  forall page_number,
    s3_bucket_png_path (filename_of longer) page_number
    = s3_bucket_png_path (filename_of aws_filename) page_number.
Proof.
  intros Hend Hstart longer.
  assert (Hname : filename_of longer = filename_of aws_filename).
  { unfold longer, filename_of, replace. by rewrite replace_head, append_nil. }
  split.
  { intros H. apply (f_equal String.length) in H. unfold longer in H.
    rewrite length_append in H. simpl in H. lia. }
  split; [by apply endswith_append_l|]. split; [apply prefix_append|].
  split; [done|]. intros n. by rewrite Hname.
Qed.

Variable bucket_name : string.
Variable load_pdf_from_aws : string -> option nat.
Variable raises : list effect -> effect -> bool.

Lemma perform_all_outcome (cs done : list effect) :
  match perform_all raises cs done with
  | (true, done') => done' = done ++ cs
  | (false, done') =>
      exists made c rest, cs = made ++ c :: rest /\ done' = done ++ made /\
                          raises done' c = true
  end.
Proof.
  revert done. induction cs as [|c cs IH]; intros done; simpl.
  - by rewrite app_nil_r.
  - unfold perform. destruct (raises done c) eqn:E.
    + exists [], c, cs. by rewrite app_nil_r.
    + specialize (IH (done ++ [c])).
      destruct (perform_all raises cs (done ++ [c])) as [[] done'].
      * by rewrite IH, <- app_assoc.
      * destruct IH as (made & c' & rest & -> & -> & Hr).
        exists (c :: made), c', rest. rewrite <- app_assoc in *. done.
Qed.

Lemma convert_pages_outcome (filename : string) (page_numbers : list nat)
    (png_urls : list string) (done : list effect) :
  match convert_pages bucket_name raises filename page_numbers png_urls done with
  | (Some png_urls', done') =>
      png_urls' = png_urls ++ map (png_url bucket_name filename) page_numbers /\
      done' = done ++ flat_map (page_calls filename) page_numbers
  | (None, done') =>
      exists before page_number after made c rest,
        page_numbers = before ++ page_number :: after /\
        page_calls filename page_number = made ++ c :: rest /\
        done' = done ++ flat_map (page_calls filename) before ++ made /\
        raises done' c = true
  end.
Proof.
  revert png_urls done. induction page_numbers as [|n rest IH]; intros png_urls done.
  - simpl. by rewrite !app_nil_r.
  - cbn [convert_pages].
    pose proof (perform_all_outcome (page_calls filename n) done) as Hp.
    destruct (perform_all raises (page_calls filename n) done) as [[] done1].
    + subst done1.
      specialize (IH (png_urls ++ [png_url bucket_name filename n])
                     (done ++ page_calls filename n)).
      destruct (convert_pages _ _ _ rest _ _) as [[urls'|] done'].
      * destruct IH as [-> ->]. cbn [map flat_map]. by rewrite <- !app_assoc.
      * destruct IH as (before & p & after & made & c & tail & -> & Hc & -> & Hr).
        exists (n :: before), p, after, made, c, tail.
        cbn [flat_map]. rewrite <- !app_assoc in *. done.
    + destruct Hp as (made & c & tail & Hc & -> & Hr).
      exists [], n, rest, made, c, tail. done.
Qed.

(** X27.  When [create_pngs] answers with a [PNGResponse], the path passed
    the three checks, and the response holds one URL per page of the
    document, in page order, each
    [https://<bucket>.s3.amazonaws.com/pngs/<name>-<page + 1>.png]; the
    calls made are those of the pages in order, so every file saved under
    [/tmp] has been uploaded and removed. *)
Theorem all_pages_converted
    (aws_filename : string) (done done' : list effect) (png_urls : list string) :
  create_pngs bucket_name load_pdf_from_aws raises aws_filename done
  = (PNGResponse png_urls, done') ->
  let filename := filename_of aws_filename in
  (aws_filename <> "" /\ endswith aws_filename ".pdf" = true /\
   startswith aws_filename "pdfs/" = true) /\
  exists page_count, load_pdf_from_aws aws_filename = Some page_count /\
    png_urls = map (png_url bucket_name filename) (seq 0 page_count) /\
    length png_urls = page_count /\
    done' = done ++ flat_map (page_calls filename) (seq 0 page_count) /\
    forall page_number, (page_number < page_count)%nat ->
      exists before after,
        done' = before ++ [save (png_path filename page_number);
                           upload_file_to_s3 (png_path filename page_number)
                             (s3_bucket_png_path filename page_number);
                           os_remove (png_path filename page_number)] ++ after.
Proof.
  intros Hrun filename. unfold create_pngs in Hrun.
  destruct (String.eqb aws_filename "") eqn:E0; [done|].
  destruct (endswith aws_filename ".pdf") eqn:E1; [|done].
  destruct (startswith aws_filename "pdfs/") eqn:E2; [|done].
  cbn [negb] in Hrun. cbv zeta in Hrun. fold filename in Hrun.
  split.
  { split; [|done]. intros ->. done. }
  destruct (load_pdf_from_aws aws_filename) as [page_count|]; [|done].
  exists page_count. split; [done|].
  pose proof (convert_pages_outcome filename (seq 0 page_count) [] done) as Ho.
  destruct (convert_pages _ _ _ _ _ _) as [[urls|] d]; [|done].
  injection Hrun as <- <-. destruct Ho as [-> ->]. rewrite app_nil_l.
  split; [done|]. split; [by rewrite length_map, length_seq|]. split; [done|].
  intros n Hn.
  assert (Hsplit : seq 0 page_count = seq 0 n ++ n :: seq (S n) (page_count - S n)).
  { replace page_count with (n + S (page_count - S n))%nat at 1 by lia.
    by rewrite seq_app. }
  rewrite Hsplit, flat_map_app. cbn [flat_map page_calls].
  exists (done ++ flat_map (page_calls filename) (seq 0 n) ++ [load_page n; get_pixmap n]),
         (flat_map (page_calls filename) (seq (S n) (page_count - S n))).
  rewrite <- !app_assoc. reflexivity.
Qed.

(** X28.  An [HTTPException] of [create_pngs] is a 400 or a 500.  On a 400
    the path is empty or fails a check, and no call has been made.  On a
    500 a call for some page [k] raised: the calls of the pages before [k]
    and those made for [k] before the failing one stay made, so the PNGs
    already uploaded are not taken back. *)
Theorem failure_keeps_earlier_uploads
    (aws_filename : string) (done done' : list effect) (status_code : Z) (detail : string) :
  create_pngs bucket_name load_pdf_from_aws raises aws_filename done
  = (HTTPException status_code detail, done') ->
  let filename := filename_of aws_filename in
  (status_code = 400 /\ done' = done /\
   (aws_filename = "" \/ endswith aws_filename ".pdf" = false \/
    startswith aws_filename "pdfs/" = false)) \/
  (status_code = 500 /\
   exists page_count k made c rest,
     load_pdf_from_aws aws_filename = Some page_count /\ (k < page_count)%nat /\
     page_calls filename k = made ++ c :: rest /\
     done' = done ++ flat_map (page_calls filename) (seq 0 k) ++ made /\
     raises done' c = true).
Proof.
  intros Hrun filename. unfold create_pngs in Hrun.
  destruct (String.eqb aws_filename "") eqn:E0.
  { injection Hrun as <- _ <-. left. split; [done|]. split; [done|].
    left. by apply String.eqb_eq. }
  destruct (endswith aws_filename ".pdf") eqn:E1; cbn [negb] in Hrun.
  2:{ injection Hrun as <- _ <-. left. auto. }
  destruct (startswith aws_filename "pdfs/") eqn:E2; cbn [negb] in Hrun.
  2:{ injection Hrun as <- _ <-. left. auto. }
  cbv zeta in Hrun. fold filename in Hrun.
  destruct (load_pdf_from_aws aws_filename) as [page_count|]; [|done].
  pose proof (convert_pages_outcome filename (seq 0 page_count) [] done) as Ho.
  destruct (convert_pages _ _ _ _ _ _) as [[urls|] d]; [done|].
  injection Hrun as <- _ <-. right. split; [done|].
  destruct Ho as (before & p & after & made & c & rest & Hpages & Hc & -> & Hr).
  assert (Hlen : (length before < page_count)%nat).
  { apply (f_equal length) in Hpages. rewrite length_seq, length_app in Hpages.
    simpl in Hpages. lia. }
  assert (Hbefore : before = seq 0 (length before)).
  { apply (f_equal (take (length before))) in Hpages.
    rewrite take_app_length, take_seq, Nat.min_l in Hpages by lia. done. }
  assert (Hp : p = length before).
  { assert (H : seq 0 page_count !! length before = Some p).
    { rewrite Hpages. by rewrite list_lookup_middle. }
    apply lookup_seq in H as [H _]. lia. }
  subst p. exists page_count, (length before), made, c, rest.
  rewrite <- Hbefore. done.
Qed.

End CreatePngsMore.

Section CreatePngsExamples.
Import Stdlib.Strings.Ascii.
Import CreatePngs.

Lemma plain_name_is_kept_witness :
  Forall (fun c => c <> "p"%char /\ c <> "."%char) (String.list_ascii_of_string "10012") /\
  filename_of ("pdfs/" +:+ "10012" +:+ ".pdf") = "10012".
Proof.
  assert (H : Forall (fun c => c <> "p"%char /\ c <> "."%char)
                (String.list_ascii_of_string "10012")).
  { simpl. repeat constructor; discriminate. }
  split; [exact H|]. apply (plain_name_is_kept "10012" H).
Defined.

Lemma repeated_prefix_same_pngs_witness :
  (endswith "pdfs/10012.pdf" ".pdf" = true /\ startswith "pdfs/10012.pdf" "pdfs/" = true) /\
  filename_of ("pdfs/" +:+ "pdfs/10012.pdf") = filename_of "pdfs/10012.pdf".
Proof.
  assert (H1 : endswith "pdfs/10012.pdf" ".pdf" = true) by reflexivity.
  assert (H2 : startswith "pdfs/10012.pdf" "pdfs/" = true) by reflexivity.
  split; [by split|]. apply (repeated_prefix_same_pngs "pdfs/10012.pdf" H1 H2).
Defined.

Lemma all_pages_converted_witness :
  create_pngs "bucket" two_pages never_raises "pdfs/10012.pdf" []
  = (PNGResponse ["https://bucket.s3.amazonaws.com/pngs/10012-1.png";
                  "https://bucket.s3.amazonaws.com/pngs/10012-2.png"],
     page_calls "10012" 0 ++ page_calls "10012" 1) /\
  exists page_count, two_pages "pdfs/10012.pdf" = Some page_count /\
    length ["https://bucket.s3.amazonaws.com/pngs/10012-1.png";
            "https://bucket.s3.amazonaws.com/pngs/10012-2.png"] = page_count.
Proof.
  assert (Hrun : create_pngs "bucket" two_pages never_raises "pdfs/10012.pdf" []
    = (PNGResponse ["https://bucket.s3.amazonaws.com/pngs/10012-1.png";
                    "https://bucket.s3.amazonaws.com/pngs/10012-2.png"],
       page_calls "10012" 0 ++ page_calls "10012" 1)) by (vm_compute; reflexivity).
  split; [exact Hrun|].
  destruct (all_pages_converted "bucket" two_pages never_raises _ _ _ _ Hrun)
    as (_ & page_count & Hload & _ & Hlen & _).
  exists page_count. split; [exact Hload|exact Hlen].
Defined.

Lemma failure_keeps_earlier_uploads_witness :
  create_pngs "bucket" two_pages second_upload_raises "pdfs/10012.pdf" []
  = (HTTPException 500 "An error occurred while processing the PDF.",
     page_calls "10012" 0 ++ [load_page 1; get_pixmap 1; save "/tmp/10012-2.png"]) /\
  ((500 = 400 /\
    page_calls "10012" 0 ++ [load_page 1; get_pixmap 1; save "/tmp/10012-2.png"] = [] /\
    ("pdfs/10012.pdf" = "" \/ endswith "pdfs/10012.pdf" ".pdf" = false \/
     startswith "pdfs/10012.pdf" "pdfs/" = false)) \/
   (500 = 500 /\
    exists page_count k made c rest,
      two_pages "pdfs/10012.pdf" = Some page_count /\ (k < page_count)%nat /\
      page_calls (filename_of "pdfs/10012.pdf") k = made ++ c :: rest /\
      page_calls "10012" 0 ++ [load_page 1; get_pixmap 1; save "/tmp/10012-2.png"]
      = [] ++ flat_map (page_calls (filename_of "pdfs/10012.pdf")) (seq 0 k) ++ made /\
      second_upload_raises
        (page_calls "10012" 0 ++ [load_page 1; get_pixmap 1; save "/tmp/10012-2.png"]) c
      = true)).
Proof.
  assert (Hrun : create_pngs "bucket" two_pages second_upload_raises "pdfs/10012.pdf" []
    = (HTTPException 500 "An error occurred while processing the PDF.",
       page_calls "10012" 0 ++ [load_page 1; get_pixmap 1; save "/tmp/10012-2.png"]))
    by (vm_compute; reflexivity).
  split; [exact Hrun|].
  apply (failure_keeps_earlier_uploads "bucket" two_pages second_upload_raises _ _ _ _ _ Hrun).
Defined.

End CreatePngsExamples.

(** ** Reading predictions from JSON *)

Section IngestionMore.
Import Ingestion.

Variable Word Rect : Type.
Variable TextWord : list (string * json) -> error + Word.
Variable fitz_Rect : json -> error + Rect.
Variable Coordinate_from_json : json -> error + Metadata.Coordinate.
Variable new_GroundwaterInformation :
  list (string * json) -> error + Metadata.GroundwaterInformation.
Variable uuid4 : nat -> N.

Local Abbreviation from_json_layer' := (from_json_layer Word Rect TextWord fitz_Rect uuid4).
Local Abbreviation create_layer' := (create_layer Word Rect TextWord fitz_Rect uuid4).
Local Abbreviation from_json' := (from_json Word Rect TextWord fitz_Rect uuid4).
Local Abbreviation create_from_json' :=
  (create_from_json Word Rect TextWord fitz_Rect Coordinate_from_json
     new_GroundwaterInformation uuid4).

Lemma bind_inr {A B} (x : error + A) (f : A -> error + B) (b : B) :
  x ≫= f = inr b -> exists a, x = inr a /\ f a = inr b.
Proof. destruct x as [e|a]; [done|]. intros H. by exists a. Qed.

Lemma getitem_dict (v x : json) (key : string) :
  getitem v key = inr x -> exists entries, v = JDict entries /\ lookup_key key entries = Some x.
Proof.
  destruct v as [| | | | |entries]; try done. simpl.
  destruct (lookup_key key entries) as [y|] eqn:E; [|done].
  intros [= <-]. by exists entries.
Qed.

Lemma get_dict (entries : list (string * json)) (key : string) (x default : json) :
  lookup_key key entries = Some x -> get_ (JDict entries) key default = inr x.
Proof. intros H. unfold get_. by rewrite H. Qed.

Lemma entry_at_agrees (layer interval data : json) (which : string) :
  getitem layer "depth_interval" = inr interval -> getitem interval which = inr data ->
  entry_at Rect fitz_Rect layer which
  = (if is_none data then mret None
     else entry ← entry_of Rect fitz_Rect data; mret (Some entry)).
Proof.
  intros Hi Hd. unfold entry_at, read_field, entry_of. rewrite Hi. simpl. rewrite Hd. simpl.
  destruct (is_none data); [done|].
  destruct (getitem data "value") as [e|v]; [done|]. simpl.
  destruct (getitem data "rect") as [e|c]; [done|]. simpl.
  destruct (fitz_Rect c) as [e|r]; [done|]. simpl.
  by destruct (getitem data "page").
Qed.

Lemma create_layer_agrees (k : nat) (layer : json) (l : LayerPrediction Word Rect) :
  create_layer' k layer = inr l -> from_json_layer' k layer = inr l.
Proof.
  unfold create_layer, from_json_layer.
  destruct (material_of Word TextWord layer) as [e|block]; [done|]. simpl.
  destruct (contains layer "depth_interval") as [e|[]]; [done| |done]. simpl.
  intros H.
  destruct (entry_at Rect fitz_Rect layer "start") as [e|s] eqn:Hs; [done|]. simpl in H.
  destruct (entry_at Rect fitz_Rect layer "end") as [e|en] eqn:He; [done|]. simpl in H.
  injection H as <-.
  assert (Hi : exists interval, getitem layer "depth_interval" = inr interval).
  { unfold entry_at in Hs. destruct (getitem layer "depth_interval") as [e|i]; [done|].
    by exists i. }
  destruct Hi as (interval & Hi).
  assert (Hsd : exists data, getitem interval "start" = inr data).
  { unfold entry_at in Hs. rewrite Hi in Hs. simpl in Hs.
    destruct (getitem interval "start") as [e|d]; [done|]. by exists d. }
  assert (Hed : exists data, getitem interval "end" = inr data).
  { unfold entry_at in He. rewrite Hi in He. simpl in He.
    destruct (getitem interval "end") as [e|d]; [done|]. by exists d. }
  destruct Hsd as (sd & Hsd). destruct Hed as (ed & Hed).
  rewrite (entry_at_agrees layer interval sd "start" Hi Hsd) in Hs.
  rewrite (entry_at_agrees layer interval ed "end" Hi Hed) in He.
  destruct (getitem_dict _ _ _ Hi) as (entries & -> & Hl).
  destruct (getitem_dict _ _ _ Hsd) as (fields & -> & Hls).
  apply getitem_dict in Hed as (fields' & [= <-] & Hle).
  rewrite Hi. cbn [mbind error_bind mret error_ret is_none negb].
  rewrite (get_dict _ _ _ _ Hl). cbn [mbind error_bind].
  rewrite (get_dict _ _ _ _ Hls), (get_dict _ _ _ _ Hle). cbn [mbind error_bind].
  rewrite Hs. cbn [mbind error_bind]. rewrite He. reflexivity.
Qed.

Lemma create_layers_agree (items : list json) :
  forall (k : nat) (ls : list (LayerPrediction Word Rect)),
    create_layers Word Rect TextWord fitz_Rect uuid4 k items = inr ls ->
    from_json_loop Word Rect TextWord fitz_Rect uuid4 k items = inr ls.
Proof.
  induction items as [|layer rest IH]; intros k ls H; [done|].
  cbn [create_layers] in H. cbn [from_json_loop].
  apply bind_inr in H as (l & Hl & H). apply bind_inr in H as (others & Ho & H).
  rewrite (create_layer_agrees k layer l Hl). simpl.
  rewrite (IH (S k) others Ho). exact H.
Qed.

(** X29.  [LayerPrediction.from_json] reads every list of layers that
    [create_from_json] reads, with the same result (the ids drawn being the
    same); and it reads more: a layer whose ["depth_interval"] is [null]
    becomes a layer without depth interval, where the loop of
    [create_from_json] raises [TypeError]. *)
Theorem from_json_reads_more :
  (forall predictions_for_file file_name predictions,
     create_from_json' predictions_for_file file_name = inr predictions ->
     exists layers_json, getitem predictions_for_file "layers" = inr layers_json /\
       from_json' layers_json = inr (layers Word Rect predictions)) /\
  (forall k layer block,
     material_of Word TextWord layer = inr block ->
     getitem layer "depth_interval" = inr JNull ->
     from_json_layer' k layer = inr (mkLayerPrediction Word Rect block None None None (uuid4 k)) /\
     create_layer' k layer = inl TypeError).
Proof.
  split.
  - intros p fn fp H. unfold create_from_json in H.
    do 7 (apply bind_inr in H as (? & _ & H)).
    apply bind_inr in H as (layers_json & Hlayers & H).
    apply bind_inr in H as (items & Hitems & H).
    apply bind_inr in H as (ls & Hls & H).
    do 4 (apply bind_inr in H as (? & _ & H)).
    injection H as <-. exists layers_json. split; [done|].
    unfold from_json. rewrite Hitems. simpl. by apply create_layers_agree.
  - intros k layer block Hm Hi.
    destruct (getitem_dict _ _ _ Hi) as (entries & -> & Hl).
    unfold from_json_layer, create_layer, entry_at. rewrite Hm. simpl.
    rewrite Hl. by split.
Qed.

(** X30.  [create_from_json] never returns on a file whose metadata are a
    dict without the key ["groundwater_information"]: when the language
    is there it raises [UnboundLocalError] before any layer is read, unless
    [Coordinate.from_json] raised first. *)
Theorem missing_groundwater_key_raises
    (predictions_for_file file_language : json) (entries : list (string * json))
    (file_name : string) :
  getitem predictions_for_file "language" = inr file_language ->
  getitem predictions_for_file "metadata" = inr (JDict entries) ->
  lookup_key "groundwater_information" entries = None ->
  exists e, create_from_json' predictions_for_file file_name = inl e /\
    (e = UnboundLocalError \/
     exists found, lookup_key "coordinates" entries = Some found /\
                   Coordinate_from_json found = inl e).
Proof.
  intros Hlang Hmeta Hgw. unfold create_from_json. rewrite Hlang, Hmeta. simpl.
  rewrite Hgw.
  rewrite (bool_decide_eq_false_2 (is_Some None)) by (intros [? ?]; done).
  destruct (lookup_key "coordinates" entries) as [found|] eqn:Hc.
  - rewrite bool_decide_eq_true_2 by (by eexists). simpl.
    destruct (is_none found); simpl; [by exists UnboundLocalError; split; [|left]|].
    destruct (Coordinate_from_json found) as [e|c] eqn:E; simpl.
    + exists e. split; [done|]. right. by exists found.
    + exists UnboundLocalError. split; [done|by left].
  - rewrite (bool_decide_eq_false_2 (is_Some None)) by (intros [? ?]; done). simpl.
    exists UnboundLocalError. split; [done|by left].
Qed.

End IngestionMore.

Section IngestionExamples.
Import Ingestion.

Lemma from_json_reads_more_witness :
  (material_of _ plain_word null_interval_layer
   = inr (mkTextBlock _ [mkTextLine _ [[("text", JString "sand")]]]) /\
   getitem null_interval_layer "depth_interval" = inr JNull) /\
  from_json_layer _ _ plain_word plain_rect counted 0 null_interval_layer
  = inr (mkLayerPrediction _ _ (mkTextBlock _ [mkTextLine _ [[("text", JString "sand")]]])
           None None None (counted 0)) /\
  create_layer _ _ plain_word plain_rect counted 0 null_interval_layer = inl TypeError.
Proof.
  assert (Hm : material_of _ plain_word null_interval_layer
               = inr (mkTextBlock _ [mkTextLine _ [[("text", JString "sand")]]]))
    by reflexivity.
  assert (Hi : getitem null_interval_layer "depth_interval" = inr JNull) by reflexivity.
  split; [by split|].
  destruct (from_json_reads_more _ _ plain_word plain_rect fixed_coordinate
              fixed_groundwater counted) as [_ Hmore].
  exact (Hmore 0%nat null_interval_layer _ Hm Hi).
Defined.

Lemma missing_groundwater_key_raises_witness :
  (getitem no_groundwater_file "language" = inr (JString "de") /\
   getitem no_groundwater_file "metadata" = inr (JDict [("coordinates", JNull)]) /\
   lookup_key "groundwater_information" [("coordinates", JNull)] = None) /\
  exists e, create_from_json _ _ plain_word plain_rect fixed_coordinate fixed_groundwater
              counted no_groundwater_file "a.pdf" = inl e /\
    (e = UnboundLocalError \/
     exists found, lookup_key "coordinates" [("coordinates", JNull)] = Some found /\
                   fixed_coordinate found = inl e).
Proof.
  assert (H1 : getitem no_groundwater_file "language" = inr (JString "de")) by reflexivity.
  assert (H2 : getitem no_groundwater_file "metadata" = inr (JDict [("coordinates", JNull)]))
    by reflexivity.
  assert (H3 : lookup_key "groundwater_information" [("coordinates", JNull)] = None)
    by reflexivity.
  split; [by repeat split|].
  apply (missing_groundwater_key_raises _ _ plain_word plain_rect fixed_coordinate
           fixed_groundwater counted no_groundwater_file (JString "de")
           [("coordinates", JNull)] "a.pdf" H1 H2 H3).
Defined.

End IngestionExamples.
